(** * Bricked: the 3D blueprint page (brick DSL, geometry cache, placement, steps)

    A shallow embedding of the blueprint page component [ThreeEnvironment]
    and of its helpers, as found in [src/unnamed/part_000].  That file holds
    two revisions of the page: lines 1-1144 (called "revision A" below) and
    lines 1147-2429 ("revision B").  The helpers are identical in both
    unless stated otherwise; the component machine follows revision B, and
    the yellow tint of revision A has a smaller machine of its own.

    Conventions of the embedding:
    - a JavaScript number is an exact rational ([Qc]); NaN, infinities and
      the rounding of IEEE doubles are not represented;
    - a JavaScript string is a [string] of 8-bit characters (code units
      below 256);
    - [Math.PI] is a parameter of the development (any positive rational),
      as are the number printer used by [JSON.stringify] and the identifier
      generator [uid]. *)

From Stdlib Require Import ZArith QArith Qcanon Qround String Ascii List Lia Lqa Bool.
From stdpp Require Import base option list strings gmap pretty.

Local Open Scope Z_scope.

(** ** Numbers *)

Module Num.

(** A JavaScript number. *)
Abbreviation num := Qc (only parsing).

Definition ofZ (z : Z) : num := Q2Qc (inject_Z z).

Definition ofDec (n : Z) (d : positive) : num := Q2Qc (Qmake n d).

(** [Math.round]: the nearest integer, ties towards +infinity. *)
Definition round (x : num) : Z := Qfloor (this x + (1 # 2))%Q.

Definition Math_round (x : num) : num := ofZ (round x).

Definition leb (a b : num) : bool := Qle_bool (this a) (this b).

Definition Math_max (a b : num) : num := if leb a b then b else a.
Definition Math_min (a b : num) : num := if leb a b then a else b.


End Num.

Export Num.

(** The double quote, a word between double quotes, and the line feed. *)
Definition dquote : ascii := ascii_of_nat 34.
Definition quoted (s : string) : string :=
  String dquote (s ++ String dquote EmptyString)%string.
Definition newline : string := String (ascii_of_nat 10) EmptyString.

(** Closed equalities between values that contain rationals are decided by
    evaluation. *)
Ltac by_eval := apply (bool_decide_unpack _); vm_compute; reflexivity.

(** ** Colour conversions (lines 103-118, and again 1270-1285) *)

Module Color.

Definition rgb := (num * num * num)%type.

Definition hexDigit (d : Z) : ascii :=
  if d <? 10 then ascii_of_nat (Z.to_nat (48 + d))
  else ascii_of_nat (Z.to_nat (87 + d)).

(** [Number.prototype.toString(16)] on a non-negative integer. *)
Fixpoint toString16_aux (fuel : nat) (n : Z) (acc : string) : string :=
  match fuel with
  | O => acc
  | S f =>
      let acc' := String (hexDigit (n mod 16)) acc in
      if n / 16 =? 0 then acc' else toString16_aux f (n / 16) acc'
  end.

Definition toString16 (n : Z) : string :=
  toString16_aux (S (Z.to_nat (Z.log2 n))) n EmptyString.

(** [s.padStart(2, "0")]. *)
Definition padStart2 (s : string) : string :=
  match String.length s with
  | O => "00"%string
  | S O => String "0"%char s
  | _ => s
  end.

(** The local [to] of [rgb01ToHex]. *)
Definition to (v : num) : string :=
  let n := Math_max 0%Qc (Math_min (ofZ 255) (Math_round (v * ofZ 255)%Qc)) in
  padStart2 (toString16 (Qfloor (this n))).

Definition rgb01ToHex (c : rgb) : string :=
  let '(r, g, b) := c in
  (String "#"%char (to r ++ to g ++ to b))%string.

(** [hex.replace] of the first [#] by the empty string. *)
Fixpoint removeFirstHash (s : string) : string :=
  match s with
  | EmptyString => EmptyString
  | String c rest =>
      if Ascii.eqb c "#"%char then rest else String c (removeFirstHash rest)
  end.

Fixpoint doubleChars (s : string) : string :=
  match s with
  | EmptyString => EmptyString
  | String c rest => String c (String c (doubleChars rest))
  end.

Definition hexVal (c : ascii) : option Z :=
  let n := Z.of_nat (nat_of_ascii c) in
  if (48 <=? n) && (n <=? 57) then Some (n - 48)
  else if (97 <=? n) && (n <=? 102) then Some (n - 87)
  else if (65 <=? n) && (n <=? 70) then Some (n - 55)
  else None.

(** White space and line terminators below code unit 256. *)
Definition isSpace (c : ascii) : bool :=
  let n := nat_of_ascii c in
  ((9 <=? n)%nat && (n <=? 13)%nat) || (n =? 32)%nat || (n =? 160)%nat.

Fixpoint skipSpaces (s : string) : string :=
  match s with
  | String c rest => if isSpace c then skipSpaces rest else s
  | EmptyString => EmptyString
  end.

(** The digits of [parseInt]: the longest prefix of hexadecimal digits;
    [None] when there is none. *)
Fixpoint hexDigits (s : string) (acc : option Z) : option Z :=
  match s with
  | EmptyString => acc
  | String c rest =>
      match hexVal c with
      | Some d => hexDigits rest (Some (16 * default 0 acc + d))
      | None => acc
      end
  end.

Definition strip0x (s : string) : string :=
  match s with
  | String "0"%char (String c rest) =>
      if Ascii.eqb c "x"%char || Ascii.eqb c "X"%char then rest else s
  | _ => s
  end.

(** [parseInt(s, 16)]; [None] is NaN. *)
Definition parseInt16 (s : string) : option Z :=
  let s := skipSpaces s in
  match s with
  | String "-"%char rest => Z.opp <$> hexDigits (strip0x rest) None
  | String "+"%char rest => hexDigits (strip0x rest) None
  | _ => hexDigits (strip0x s) None
  end.

(** ToInt32, the conversion the bit operators apply: NaN becomes 0 and an
    integer wraps around modulo 2^32 into [-2^31, 2^31). *)
Definition toInt32 (n : option Z) : Z :=
  match n with
  | None => 0
  | Some z => (z + 2 ^ 31) mod 2 ^ 32 - 2 ^ 31
  end.

Definition hexToRgb01 (hex : string) : rgb :=
  let h := removeFirstHash hex in
  let full := if (String.length h =? 3)%nat then doubleChars h else h in
  let n := toInt32 (parseInt16 full) in
  let r := Z.land (Z.shiftr n 16) 255 in
  let g := Z.land (Z.shiftr n 8) 255 in
  let b := Z.land n 255 in
  ((ofZ r / ofZ 255)%Qc, (ofZ g / ofZ 255)%Qc, (ofZ b / ofZ 255)%Qc).

Definition isLowerHex (c : ascii) : bool :=
  let n := nat_of_ascii c in
  ((48 <=? n)%nat && (n <=? 57)%nat) || ((97 <=? n)%nat && (n <=? 102)%nat).

(** A colour string as the colour input delivers it: [#] and six
    lower-case hexadecimal digits. *)
Definition isHexColor (h : string) : bool :=
  match h with
  | String "#"%char
      (String a (String b (String c (String d (String e (String f EmptyString)))))) =>
      isLowerHex a && isLowerHex b && isLowerHex c
      && isLowerHex d && isLowerHex e && isLowerHex f
  | _ => false
  end.

(** The two hexadecimal digits of a byte. *)
Definition hex2 (k : Z) : string :=
  String (hexDigit (k / 16)) (String (hexDigit (k mod 16)) EmptyString).

Definition lowerHexChars : list ascii :=
  ["0"; "1"; "2"; "3"; "4"; "5"; "6"; "7"; "8"; "9"; "a"; "b"; "c"; "d"; "e"; "f"]%char.

End Color.


(** ** Regular expressions

    The parser is written with JavaScript regular expressions.  They are
    embedded as syntax trees and run by a backtracking matcher with the
    priorities of the language: alternatives of a quantifier are tried in
    order (greedy: one more iteration first; lazy: the continuation first),
    and an iteration that consumes nothing is not taken. *)

Module Regex.

Inductive cls :=
| Lit (c : ascii)          (* a literal character *)
| Space                    (* \s *)
| Digit                    (* \d *)
| AnyNL                    (* [\s\S] *)
| Dot                      (* . *)
| OneOf (l : list ascii).  (* [...] *)

Inductive re :=
| Eps
| Chr (c : cls)
| Cat (a b : re)
| Star (greedy : bool) (r : re)
| Opt (r : re)             (* r? (greedy) *)
| Group (i : nat) (r : re) (* capture group number i *)
| Eol.                     (* $ under the m flag *)

Definition isLineTerminator (c : ascii) : bool :=
  let n := nat_of_ascii c in (n =? 10)%nat || (n =? 13)%nat.

Definition isDigit (c : ascii) : bool :=
  let n := nat_of_ascii c in (48 <=? n)%nat && (n <=? 57)%nat.

(** Canonicalisation under the i flag (letters a-z). *)
Definition upper (c : ascii) : ascii :=
  let n := nat_of_ascii c in
  if (97 <=? n)%nat && (n <=? 122)%nat then ascii_of_nat (n - 32) else c.

Definition clsMatch (ci : bool) (k : cls) (c : ascii) : bool :=
  match k with
  | Lit a => if ci then Ascii.eqb (upper a) (upper c) else Ascii.eqb a c
  | Space => Color.isSpace c
  | Digit => isDigit c
  | AnyNL => true
  | Dot => negb (isLineTerminator c)
  | OneOf l => existsb (fun a => if ci then Ascii.eqb (upper a) (upper c) else Ascii.eqb a c) l
  end.

(** Captures: group number to captured text. *)
Definition caps := list (nat * string).

Fixpoint getCap (i : nat) (cs : caps) : option string :=
  match cs with
  | [] => None
  | (j, s) :: rest => if (i =? j)%nat then Some s else getCap i rest
  end.

(** The first [n] characters of [s]. *)
Fixpoint takeStr (n : nat) (s : string) : string :=
  match n, s with
  | S n', String c rest => String c (takeStr n' rest)
  | _, _ => EmptyString
  end.

Definition consumed (s s' : string) : string :=
  takeStr (String.length s - String.length s') s.

Section Matcher.
Context {R : Type}.
Variable ci : bool.

(** The iterations of a quantified [body]: with fuel left, a greedy
    quantifier tries one more iteration before the continuation [k], a
    lazy one tries [k] first; an iteration must consume input. *)
Fixpoint starLoop (body : string -> caps -> (string -> caps -> option R) -> option R)
         (greedy : bool) (k : string -> caps -> option R)
         (fuel : nat) (s : string) (cs : caps) {struct fuel} : option R :=
  match fuel with
  | O => k s cs
  | S f =>
      let more (_ : unit) :=
        body s cs (fun s1 cs1 =>
          if (String.length s1 <? String.length s)%nat
          then starLoop body greedy k f s1 cs1 else None) in
      if greedy then
        match more tt with
        | Some x => Some x
        | None => k s cs
        end
      else
        match k s cs with
        | Some x => Some x
        | None => more tt
        end
  end.

(** [run r s cs k]: match [r] at the start of [s], then continue with
    [k] on the rest; [None] when every alternative fails. *)
Fixpoint run (r : re) (s : string) (cs : caps)
         (k : string -> caps -> option R) {struct r} : option R :=
  match r with
  | Eps => k s cs
  | Chr c =>
      match s with
      | String a rest => if clsMatch ci c a then k rest cs else None
      | EmptyString => None
      end
  | Cat a b => run a s cs (fun s1 cs1 => run b s1 cs1 k)
  | Star greedy body => starLoop (run body) greedy k (String.length s) s cs
  | Opt body =>
      match run body s cs k with
      | Some x => Some x
      | None => k s cs
      end
  | Group i body =>
      run body s cs (fun s1 cs1 => k s1 ((i, consumed s s1) :: cs1))
  | Eol =>
      match s with
      | EmptyString => k s cs
      | String a _ => if isLineTerminator a then k s cs else None
      end
  end.
End Matcher.

(** A match at the start of [s]: the rest of the input and the captures. *)
Definition matchAt (ci : bool) (r : re) (s : string) : option (string * caps) :=
  run ci r s [] (fun s1 cs1 => Some (s1, cs1)).

(** [r.exec(s)] from the start of [s]: the leftmost match. *)
Fixpoint search (ci : bool) (r : re) (s : string) : option (string * caps) :=
  match matchAt ci r s with
  | Some res => Some res
  | None =>
      match s with
      | EmptyString => None
      | String _ rest => search ci r rest
      end
  end.

(** The loop [while ((m = r.exec(s)))] of a g-flag expression: the captures
    of the successive matches, each search resuming where the previous
    match ended. *)
Fixpoint execAll (fuel : nat) (ci : bool) (r : re) (s : string) : list caps :=
  match fuel with
  | O => []
  | S f =>
      match search ci r s with
      | None => []
      | Some (rest, cs) => cs :: execAll f ci r rest
      end
  end.

(** [s.replace(r, empty)] for a g-flag expression whose matches are not
    empty. *)
Fixpoint removeAll (fuel : nat) (ci : bool) (r : re) (s : string) : string :=
  match fuel with
  | O => s
  | S f =>
      match s with
      | EmptyString => EmptyString
      | String c rest =>
          match matchAt ci r s with
          | Some (s1, _) =>
              if (String.length s1 <? String.length s)%nat
              then removeAll f ci r s1
              else String c (removeAll f ci r rest)
          | None => String c (removeAll f ci r rest)
          end
      end
  end.

(** Helpers to write expressions. *)
Fixpoint lit (s : string) : re :=
  match s with
  | EmptyString => Eps
  | String c EmptyString => Chr (Lit c)
  | String c rest => Cat (Chr (Lit c)) (lit rest)
  end.

Fixpoint seq (l : list re) : re :=
  match l with
  | [] => Eps
  | [r] => r
  | r :: rest => Cat r (seq rest)
  end.

Definition spaces : re := Star true (Chr Space).
Definition plus (r : re) : re := Cat r (Star true r).

(** Expressions every match of which consumes input. *)
Fixpoint consuming (r : re) : bool :=
  match r with
  | Chr _ => true
  | Cat a b => consuming a || consuming b
  | Group _ a => consuming a
  | _ => false
  end.

End Regex.

(** ** The brick DSL parser (lines 13-199, and again 1158-1369) *)

Inductive revision := RevA | RevB.

Module Parser.
Import Regex.

Definition STUD_PITCH : num := ofZ 8.
Definition BRICK_H : num := ofDec 96 10.
Definition PLATE_H : num := (BRICK_H / ofZ 3)%Qc.

(** [BRICK_DIMS] of revision A (lines 20-55). *)
Definition BRICK_DIMS_A : list (string * (Z * Z)) :=
  [ ("1x1", (1, 1)); ("1x2", (1, 2)); ("1x3", (1, 3)); ("1x4", (1, 4));
    ("1x6", (1, 6)); ("1x8", (1, 8));
    ("2x2", (2, 2)); ("2x3", (2, 3)); ("2x4", (2, 4)); ("2x6", (2, 6));
    ("2x8", (2, 8)); ("2x10", (2, 10));
    ("3x3", (3, 3)); ("4x4", (4, 4));
    ("plate_1x2", (1, 2)); ("plate_1x4", (1, 4)); ("plate_2x2", (2, 2));
    ("plate_2x4", (2, 4)); ("plate_2x6", (2, 6));
    ("tile_1x2", (1, 2)); ("tile_1x4", (1, 4)); ("tile_2x2", (2, 2));
    ("tile_2x4", (2, 4));
    ("slope_45_2x2", (2, 2)); ("slope_45_2x4", (2, 4)) ]%string.

(** [BRICK_DIMS] of revision B (lines 1165-1230). *)
Definition BRICK_DIMS_B : list (string * (Z * Z)) :=
  [ ("1x1", (1, 1)); ("1x2", (1, 2)); ("1x3", (1, 3)); ("1x4", (1, 4));
    ("1x5", (1, 5)); ("1x6", (1, 6)); ("1x8", (1, 8)); ("1x10", (1, 10));
    ("1x12", (1, 12));
    ("2x2", (2, 2)); ("2x3", (2, 3)); ("2x4", (2, 4)); ("2x6", (2, 6));
    ("2x8", (2, 8)); ("2x10", (2, 10)); ("2x12", (2, 12));
    ("3x3", (3, 3)); ("3x4", (3, 4)); ("3x6", (3, 6));
    ("4x4", (4, 4)); ("4x6", (4, 6)); ("4x8", (4, 8));
    ("plate_1x1", (1, 1)); ("plate_1x2", (1, 2)); ("plate_1x3", (1, 3));
    ("plate_1x4", (1, 4)); ("plate_1x6", (1, 6)); ("plate_1x8", (1, 8));
    ("plate_2x2", (2, 2)); ("plate_2x3", (2, 3)); ("plate_2x4", (2, 4));
    ("plate_2x6", (2, 6)); ("plate_2x8", (2, 8)); ("plate_2x10", (2, 10));
    ("plate_3x3", (3, 3)); ("plate_4x4", (4, 4));
    ("tile_1x1", (1, 1)); ("tile_1x2", (1, 2)); ("tile_1x3", (1, 3));
    ("tile_1x4", (1, 4)); ("tile_1x6", (1, 6));
    ("tile_2x2", (2, 2)); ("tile_2x3", (2, 3)); ("tile_2x4", (2, 4));
    ("tile_2x6", (2, 6));
    ("slope_45_1x2", (1, 2)); ("slope_45_2x2", (2, 2)); ("slope_45_2x3", (2, 3));
    ("slope_45_2x4", (2, 4)); ("slope_45_3x2", (3, 2)); ("slope_45_3x3", (3, 3)) ]%string.

Definition BRICK_DIMS (v : revision) : list (string * (Z * Z)) :=
  match v with RevA => BRICK_DIMS_A | RevB => BRICK_DIMS_B end.

(** The static catalog: the keys of [BRICK_DIMS]. *)
Definition inCatalog (v : revision) (kind : string) : bool :=
  existsb (fun e => String.eqb (fst e) kind) (BRICK_DIMS v).

(** [BRICK_DIMS] is an object literal, so its prototype is
    [Object.prototype]; these are the property names of that prototype. *)
Definition objectPrototypeKeys : list string :=
  [ "constructor"; "__defineGetter__"; "__defineSetter__"; "hasOwnProperty";
    "__lookupGetter__"; "__lookupSetter__"; "isPrototypeOf";
    "propertyIsEnumerable"; "toString"; "valueOf"; "__proto__";
    "toLocaleString" ]%string.

(** [kind in BRICK_DIMS]: the [in] operator looks for the property on the
    object and along its prototype chain. *)
Definition kindInBrickDims (v : revision) (kind : string) : bool :=
  inCatalog v kind || existsb (String.eqb kind) objectPrototypeKeys.

Record Brick := mkBrick {
  id : string;
  kind : string;
  xMm : num; yMm : num; zMm : num;
  rotX : num; rotY : num; rotZ : num;
  color : Color.rgb
}.

#[global] Instance Brick_eq_dec : EqDecision Brick.
Proof. solve_decision. Defined.

Definition clamp01 (x : num) : num := Math_max 0%Qc (Math_min 1%Qc x).

(** [stripScadComments]. *)
Definition blockCommentRe : re :=
  seq [lit "/*"; Star false (Chr AnyNL); lit "*/"].
Definition lineCommentRe : re :=
  seq [lit "//"; Star true (Chr Dot); Eol].

Definition stripScadComments (src : string) : string :=
  let noBlock := removeAll (String.length src) false blockCommentRe src in
  removeAll (String.length noBlock) false lineCommentRe noBlock.

(** [String.prototype.trim]. *)
Fixpoint trimEnd (s : string) : string :=
  match s with
  | EmptyString => EmptyString
  | String c rest =>
      match trimEnd rest with
      | EmptyString => if Color.isSpace c then EmptyString else String c EmptyString
      | r => String c r
      end
  end.
Definition trim (s : string) : string := trimEnd (Color.skipSpaces s).

(** The statement expression
    [/brick\s*\(\s*"(.*?)"\s*,([\s\S]*?)\)\s*;?/g]. *)
Definition brickRe : re :=
  seq [ lit "brick"; spaces; lit "("; spaces; Chr (Lit dquote);
        Group 1 (Star false (Chr Dot)); Chr (Lit dquote); spaces; lit ",";
        Group 2 (Star false (Chr AnyNL)); lit ")"; spaces; Opt (lit ";") ].

(** The number pattern [[-+]?\d*\.?\d+]. *)
Definition numRe : re :=
  seq [ Opt (Chr (OneOf ["-"; "+"]%char)); Star true (Chr Digit);
        Opt (lit "."); plus (Chr Digit) ].

(** [Number(s)] on a string of the number pattern: an optional sign,
    digits, and an optional point followed by digits.  (Other strings,
    which the patterns never capture, are outside this definition.) *)
Fixpoint digitsVal (s : string) (acc : Z) (scale : positive) (frac : bool)
  : Z * positive :=
  match s with
  | EmptyString => (acc, scale)
  | String c rest =>
      if isDigit c then
        digitsVal rest (10 * acc + (Z.of_nat (nat_of_ascii c) - 48))
                  (if frac then (10 * scale)%positive else scale) frac
      else if Ascii.eqb c "."%char then digitsVal rest acc scale true
      else (acc, scale)
  end.

Definition Number (s : string) : num :=
  match s with
  | String "-"%char rest =>
      let '(n, d) := digitsVal rest 0 1%positive false in ofDec (- n) d
  | String "+"%char rest =>
      let '(n, d) := digitsVal rest 0 1%positive false in ofDec n d
  | _ => let '(n, d) := digitsVal s 0 1%positive false in ofDec n d
  end.

(** The local [getNum]: [name\s*=\s*(num)], flag i, first match. *)
Definition getNumRe (name : string) : re :=
  seq [lit name; spaces; lit "="; spaces; Group 1 numRe].

Definition getNum (args name : string) : option num :=
  match search true (getNumRe name) args with
  | Some (_, cs) => Some (Number (default EmptyString (getCap 1 cs)))
  | None => None
  end.

(** The local [getVec3]: [name\s*=\s*\[\s*(num)\s*,\s*(num)\s*,\s*(num)\s*\]]. *)
Definition getVec3Re (name : string) : re :=
  seq [ lit name; spaces; lit "="; spaces; lit "["; spaces;
        Group 1 numRe; spaces; lit ","; spaces;
        Group 2 numRe; spaces; lit ","; spaces;
        Group 3 numRe; spaces; lit "]" ].

Definition getVec3 (args name : string) : option (num * num * num) :=
  match search true (getVec3Re name) args with
  | Some (_, cs) =>
      Some (Number (default EmptyString (getCap 1 cs)),
            Number (default EmptyString (getCap 2 cs)),
            Number (default EmptyString (getCap 3 cs)))
  | None => None
  end.

Definition defaultColor : Color.rgb := (ofDec 8 10, ofDec 1 10, ofDec 1 10).

(** Position of a statement (lines 151-171 in revision A, 1319-1341 in
    revision B).  Revision A maps the studs to x and y and the level to z;
    revision B maps the studs to x and z and the level to y. *)
Definition position (v : revision) (args : string) : num * num * num :=
  let xMm := getNum args "xMm" in
  let yMm := getNum args "yMm" in
  let zMm := getNum args "zMm" in
  let xStud := getNum args "xStud" in
  let yStud := getNum args "yStud" in
  let zLevel := getNum args "zLevel" in
  match xMm, yMm, zMm with
  | Some x, Some y, Some z => (x, y, z)
  | _, _, _ =>
      match xStud, yStud, zLevel with
      | Some xs, Some ys, Some zl =>
          match v with
          | RevA => ((xs * STUD_PITCH)%Qc, (ys * STUD_PITCH)%Qc, (zl * BRICK_H)%Qc)
          | RevB => ((xs * STUD_PITCH)%Qc, (zl * BRICK_H)%Qc, (ys * STUD_PITCH)%Qc)
          end
      | _, _, _ => (0%Qc, 0%Qc, 0%Qc)
      end
  end.

Definition rotation (args : string) : num * num * num :=
  match getVec3 args "rot" with
  | Some r => r
  | None =>
      match getNum args "rotY" with
      | Some ry => (0%Qc, ry, 0%Qc)
      | None => (0%Qc, 0%Qc, 0%Qc)
      end
  end.

Definition colorOf (args : string) : Color.rgb :=
  let '(r, g, b) := default defaultColor (getVec3 args "color") in
  (clamp01 r, clamp01 g, clamp01 b).

(** The body of the loop after the catalog test: the brick pushed for a
    statement of kind [kind] with argument text [args]. *)
Definition brickOf (v : revision) (ident kind args : string) : Brick :=
  let '(px, py, pz) := position v args in
  let '(rx, ry, rz) := rotation args in
  mkBrick ident kind px py pz rx ry rz (colorOf args).

Section WithUid.
(** [uid()] draws on the clock and on [Math.random]; the n-th identifier
    generated is [uid n]. *)
Variable uid : nat -> string.

(** The loop over the matches; [n] counts the identifiers drawn. *)
Fixpoint bricksOf (v : revision) (n : nat) (ms : list caps) : list Brick :=
  match ms with
  | [] => []
  | cs :: rest =>
      let kindRaw := trim (default EmptyString (getCap 1 cs)) in
      let args := default EmptyString (getCap 2 cs) in
      if kindInBrickDims v kindRaw
      then brickOf v (uid n) kindRaw args :: bricksOf v (S n) rest
      else bricksOf v n rest
  end.

(** The matches of the statement expression, with the fuel given. *)
Definition statementsFuel (fuel : nat) (scadText : string) : list caps :=
  execAll fuel false brickRe (stripScadComments scadText).

(** Every match consumes input, so the length of the text bounds the
    number of matches. *)
Definition statements (scadText : string) : list caps :=
  statementsFuel (String.length scadText) scadText.

Definition parseBrickDSL (v : revision) (n : nat) (scadText : string) : list Brick :=
  bricksOf v n (statements scadText).
End WithUid.

End Parser.

(** ** The geometry cache (lines 360-385, and again 1558-1594)

    [getBrickGeometry] with its two maps.  A promise is a cell of the store
    [promises], named by its index; a geometry object is named by the
    number it was allocated under, so two names are equal exactly when the
    objects are reference-identical. *)

Module Cache.

Record BrickGeomParams := mkParams {
  fn : num; stud_d : num; stud_h : num; wall_gap : num
}.

Inductive pstate :=
| Pending
| Fulfilled (geo : nat)
| Rejected (diag : string).

#[global] Instance pstate_eq_dec : EqDecision pstate.
Proof. solve_decision. Defined.

Record promise := mkPromise { p_key : string; p_state : pstate }.

Record t := mkCache {
  geomCache : gmap string nat;       (* geomCacheRef.current *)
  geomPromise : gmap string nat;     (* geomPromiseRef.current *)
  promises : list promise;           (* the promises created so far *)
  nextGeo : nat;                     (* geometries allocated so far *)
  compiles : list (nat * string)     (* compile requests submitted: promise, key *)
}.

Definition empty : t := mkCache ∅ ∅ [] 0 [].

(** What a call hands to its caller: the cached geometry, or a promise. *)
Inductive answer :=
| Cached (geo : nat)
| Awaits (pid : nat).

(** What the external compiler reports for a request. *)
Inductive outcome :=
| Bytes                      (* the STL bytes of the mesh *)
| Failed (diag : string).    (* an error carrying a diagnostic *)

Definition notIterable : string := "BRICK_DIMS[kind] is not iterable".

Section WithPrinter.
(** The conversion of a number to text that [JSON.stringify] applies. *)
Variable numberToString : num -> string.

(** [geomKey]: [JSON.stringify({ kind, ...p })].  A kind holds no
    character that JSON escapes (the statement pattern excludes the
    quote from it only, but every kind that passes the catalog test is
    made of letters, digits and underscores). *)
Definition geomKey (kind : string) (p : BrickGeomParams) : string :=
  ("{" ++ quoted "kind" ++ ":" ++ quoted kind
   ++ "," ++ quoted "fn" ++ ":" ++ numberToString (fn p)
   ++ "," ++ quoted "stud_d" ++ ":" ++ numberToString (stud_d p)
   ++ "," ++ quoted "stud_h" ++ ":" ++ numberToString (stud_h p)
   ++ "," ++ quoted "wall_gap" ++ ":" ++ numberToString (wall_gap p) ++ "}")%string.

(** [getBrickGeometry(kind, p)] up to its first suspension.  The body of
    the inner async function starts with [buildBrickScad], whose
    [const [nx, ny] = BRICK_DIMS[kind]] throws for a kind that is not a
    key of the catalog: the promise is then rejected at once and no
    request reaches the compiler. *)
Definition getBrickGeometry (v : revision) (kind : string) (p : BrickGeomParams)
           (st : t) : answer * t :=
  let key := geomKey kind p in
  match geomCache st !! key with
  | Some geo => (Cached geo, st)
  | None =>
      match geomPromise st !! key with
      | Some pid => (Awaits pid, st)
      | None =>
          let pid := length (promises st) in
          if Parser.inCatalog v kind then
            (Awaits pid,
             mkCache (geomCache st) (<[key := pid]> (geomPromise st))
                     (promises st ++ [mkPromise key Pending])
                     (nextGeo st) (compiles st ++ [(pid, key)]))
          else
            (Awaits pid,
             mkCache (geomCache st) (<[key := pid]> (geomPromise st))
                     (promises st ++ [mkPromise key (Rejected notIterable)])
                     (nextGeo st) (compiles st))
      end
  end.
End WithPrinter.

(** The rest of the inner async function, run when the compiler answers
    the request of promise [pid]. *)
Definition compileDone (pid : nat) (o : outcome) (st : t) : t :=
  match promises st !! pid with
  | Some (mkPromise key Pending) =>
      match o with
      | Bytes =>
          let geo := nextGeo st in
          mkCache (<[key := geo]> (geomCache st)) (delete key (geomPromise st))
                  (<[pid := mkPromise key (Fulfilled geo)]> (promises st))
                  (S geo) (compiles st)
      | Failed d =>
          mkCache (geomCache st) (geomPromise st)
                  (<[pid := mkPromise key (Rejected d)]> (promises st))
                  (nextGeo st) (compiles st)
      end
  | _ => st
  end.

(** What a caller that awaits the answer observes in state [st]. *)
Definition observe (a : answer) (st : t) : pstate :=
  match a with
  | Cached geo => Fulfilled geo
  | Awaits pid =>
      match promises st !! pid with
      | Some pr => p_state pr
      | None => Pending
      end
  end.

(** Histories of the cache: calls and compiler answers. *)
Inductive event :=
| Call (kind : string) (p : BrickGeomParams)
| Done (pid : nat) (o : outcome).

Section Run.
Variable numberToString : num -> string.
Variable v : revision.

Definition step (st : t) (e : event) : t * list (string * answer) :=
  match e with
  | Call kind p =>
      let '(a, st') := getBrickGeometry numberToString v kind p st in
      (st', [(geomKey numberToString kind p, a)])
  | Done pid o => (compileDone pid o st, [])
  end.

(** The state after a history, and the answers handed out, each with
    the key of its call. *)
Fixpoint run (st : t) (es : list event) : t * list (string * answer) :=
  match es with
  | [] => (st, [])
  | e :: rest =>
      let '(st1, a1) := step st e in
      let '(st2, a2) := run st1 rest in
      (st2, a1 ++ a2)
  end.

End Run.

(** An answer handed out for key [k] is backed by the state: the geometry
    is the cached one, or the promise exists and is a promise of [k]. *)
Definition backed (st : t) (ka : string * answer) : Prop :=
  match snd ka with
  | Cached geo => geomCache st !! fst ka = Some geo
  | Awaits pid => ∃ ps, promises st !! pid = Some (mkPromise (fst ka) ps)
  end.

(** The invariant of the two maps. *)
Record invariant (st : t) : Prop := mkInvariant {
  (* a promise is of a cached key, or it is the one the in-flight map holds *)
  inv_tracked : ∀ pid pr, promises st !! pid = Some pr ->
      geomCache st !! p_key pr ≠ None ∨ geomPromise st !! p_key pr = Some pid;
  (* a fulfilled promise put its geometry in the cache *)
  inv_fulfilled : ∀ pid key geo,
      promises st !! pid = Some (mkPromise key (Fulfilled geo)) ->
      geomCache st !! key = Some geo;
  (* one promise per key *)
  inv_unique : ∀ pid1 pid2 pr1 pr2,
      promises st !! pid1 = Some pr1 -> promises st !! pid2 = Some pr2 ->
      p_key pr1 = p_key pr2 -> pid1 = pid2;
  (* the promise of a cached key is fulfilled with the cached geometry *)
  inv_cached : ∀ key geo pid pr,
      geomCache st !! key = Some geo -> promises st !! pid = Some pr ->
      p_key pr = key -> p_state pr = Fulfilled geo;
  (* the in-flight map holds promises of the right key *)
  inv_inflight : ∀ key pid,
      geomPromise st !! key = Some pid ->
      ∃ ps, promises st !! pid = Some (mkPromise key ps)
}.

End Cache.

(** ** Snapping and commit (lines 447-499, and again 1671-1721) *)

Module Snap.
Import Parser.

Definition vec3 := (num * num * num)%type.

(** The two kinds of emphasis of revision B ([applyMaterialState]). *)
Inductive emphasis := NoEmphasis | SelectEmphasis | AutoEmphasis.

(** What the page keeps of a [THREE.Mesh]: its transform (the rotation is
    an Euler triple in radians), its visibility and its emissive state. *)
Record Mesh := mkMesh {
  position : vec3;
  rotation : vec3;
  visible : bool;
  emissive : emphasis
}.

(** The three snap options of the page state. *)
Record SnapOptions := mkSnap {
  snapEnabled : bool;
  snapStud : bool;
  snapLevels : bool   (* snapZLevels in revision A, snapYLevels in revision B *)
}.

#[global] Instance emphasis_eq_dec : EqDecision emphasis.
Proof. solve_decision. Defined.
#[global] Instance Mesh_eq_dec : EqDecision Mesh.
Proof. solve_decision. Defined.
#[global] Instance SnapOptions_eq_dec : EqDecision SnapOptions.
Proof. solve_decision. Defined.

Definition snapValue (v stepV : num) : num :=
  (Math_round (v / stepV) * stepV)%Qc.

Section WithPi.
Variable PI : num.

(** [THREE.MathUtils.degToRad] and [radToDeg]. *)
Definition degToRad (d : num) : num := (d * (PI / ofZ 180))%Qc.
Definition radToDeg (r : num) : num := (r * (ofZ 180 / PI))%Qc.

Definition snapEulerToDegStep (e : vec3) (stepDeg : num) : vec3 :=
  let stepRad := degToRad stepDeg in
  let '(x, y, z) := e in
  ((Math_round (x / stepRad) * stepRad)%Qc,
   (Math_round (y / stepRad) * stepRad)%Qc,
   (Math_round (z / stepRad) * stepRad)%Qc).

(** The step of the two grid axes and the step of the level axis. *)
Definition gridStep (o : SnapOptions) : num :=
  if snapStud o then STUD_PITCH else 1%Qc.
Definition levelStep (o : SnapOptions) : num :=
  if snapLevels o then (BRICK_H / ofZ 3)%Qc else 1%Qc.

(** [applySnapToMesh]; [ctrl] is [keysRef.current.ctrl].  Revision A
    snaps x and y to the grid and z to the levels, revision B snaps x
    and z to the grid and y to the levels. *)
Definition applySnapToMesh (v : revision) (o : SnapOptions) (ctrl : bool)
           (mesh : Mesh) : Mesh :=
  if negb (snapEnabled o) then mesh
  else if ctrl then mesh
  else
    let '(x, y, z) := position mesh in
    let pos :=
      match v with
      | RevA => (snapValue x (gridStep o), snapValue y (gridStep o),
                 snapValue z (levelStep o))
      | RevB => (snapValue x (gridStep o), snapValue y (levelStep o),
                 snapValue z (gridStep o))
      end in
    mkMesh pos (snapEulerToDegStep (rotation mesh) (ofZ 90))
           (visible mesh) (emissive mesh).

(** The record written by the updater of [commitSelectedMeshToState]:
    [{ ...next[idx], xMm, yMm, zMm, rotX, rotY, rotZ }]. *)
Definition writeBack (b : Brick) (mesh : Mesh) : Brick :=
  let '(px, py, pz) := position mesh in
  let '(rx, ry, rz) := rotation mesh in
  mkBrick (id b) (kind b) px py pz
          (radToDeg rx) (radToDeg ry) (radToDeg rz) (color b).

(** The updater passed to [setBricks]. *)
Definition commitUpdater (idx : nat) (mesh : Mesh) (prev : list Brick) : list Brick :=
  match prev !! idx with
  | None => prev
  | Some b => <[idx := writeBack b mesh]> prev
  end.
End WithPi.



Definition vx (a : vec3) : num := fst (fst a).
Definition vy (a : vec3) : num := snd (fst a).
Definition vz (a : vec3) : num := snd a.




End Snap.

(** ** The page component, revision B (lines 1489-2197)

    The component as a state machine.  A state holds the React state of the
    component, its refs, and what its closures and collaborators remember.
    [bricksRef.current] is assigned from [bricks] by the first effect that
    runs when [bricks] changes (line 1554), before any reader runs, so one
    field stands for both.  Materials' colours and opacity, the geometry
    swap, the camera, the status line and the pulse and pop animations are
    not represented. *)

Module Page.
Import Parser Snap.
Export Cache (BrickGeomParams, mkParams).

(** The values the dependency arrays of the effects mention.  The array
    [bricks] and the object [geomParams] are compared by identity:
    [d_bricksId] and [d_geom] name them. *)
Record Deps := mkDeps {
  d_text : string;
  d_bricksId : nat;
  d_len : nat;
  d_kindsKey : string;
  d_step : Z;
  d_geom : nat
}.

#[global] Instance Deps_eq_dec : EqDecision Deps.
Proof. solve_decision. Defined.

Inductive mode := Translate | Rotate.

Record State := mkState {
  (* useState *)
  scadInput : string;
  bricks : list Brick;
  bricksId : nat;
  step : Z;
  geomParams : BrickGeomParams;
  geomId : nat;
  snap : SnapOptions;
  selectedHex : string;
  (* useRef *)
  selectedIndex : option nat;
  autoHighlightIdx : option nat;
  brickMeshes : list Mesh;
  ctrl : bool;
  gizmoActive : bool;
  prevStep : Z;
  (* closures and collaborators *)
  listenerSnap : SnapOptions; (* the options the gizmo listeners closed over *)
  rebuild : option Z;         (* visibleCount of the rebuild awaiting its geometries *)
  attached : option nat;      (* the mesh attached to the TransformControls *)
  gizmoMode : mode;
  uidCount : nat;             (* identifiers drawn so far *)
  rendered : Deps             (* dependencies at the last run of the effects *)
}.

Definition set_scadInput (x : string) (s : State) : State :=
  mkState x (bricks s) (bricksId s) (step s) (geomParams s) (geomId s) (snap s) (selectedHex s)
    (selectedIndex s) (autoHighlightIdx s) (brickMeshes s) (ctrl s) (gizmoActive s)
    (prevStep s) (listenerSnap s) (rebuild s) (attached s) (gizmoMode s) (uidCount s)
    (rendered s).
(** Installing a new array gives [bricks] a new identity. *)
Definition set_bricks (x : list Brick) (s : State) : State :=
  mkState (scadInput s) x (S (bricksId s)) (step s) (geomParams s) (geomId s) (snap s) (selectedHex s)
    (selectedIndex s) (autoHighlightIdx s) (brickMeshes s) (ctrl s) (gizmoActive s)
    (prevStep s) (listenerSnap s) (rebuild s) (attached s) (gizmoMode s) (uidCount s)
    (rendered s).
Definition set_step (x : Z) (s : State) : State :=
  mkState (scadInput s) (bricks s) (bricksId s) x (geomParams s) (geomId s) (snap s) (selectedHex s)
    (selectedIndex s) (autoHighlightIdx s) (brickMeshes s) (ctrl s) (gizmoActive s)
    (prevStep s) (listenerSnap s) (rebuild s) (attached s) (gizmoMode s) (uidCount s)
    (rendered s).
(** A new parameter object has a new identity. *)
Definition set_geomParams (x : BrickGeomParams) (s : State) : State :=
  mkState (scadInput s) (bricks s) (bricksId s) (step s) x (S (geomId s)) (snap s)
    (selectedHex s)
    (selectedIndex s) (autoHighlightIdx s) (brickMeshes s) (ctrl s) (gizmoActive s)
    (prevStep s) (listenerSnap s) (rebuild s) (attached s) (gizmoMode s) (uidCount s)
    (rendered s).
Definition set_snap (x : SnapOptions) (s : State) : State :=
  mkState (scadInput s) (bricks s) (bricksId s) (step s) (geomParams s) (geomId s) x
    (selectedHex s)
    (selectedIndex s) (autoHighlightIdx s) (brickMeshes s) (ctrl s) (gizmoActive s)
    (prevStep s) (listenerSnap s) (rebuild s) (attached s) (gizmoMode s) (uidCount s)
    (rendered s).
Definition set_selectedHex (x : string) (s : State) : State :=
  mkState (scadInput s) (bricks s) (bricksId s) (step s) (geomParams s) (geomId s) (snap s) x
    (selectedIndex s) (autoHighlightIdx s) (brickMeshes s) (ctrl s) (gizmoActive s)
    (prevStep s) (listenerSnap s) (rebuild s) (attached s) (gizmoMode s) (uidCount s)
    (rendered s).
Definition set_selectedIndex (x : option nat) (s : State) : State :=
  mkState (scadInput s) (bricks s) (bricksId s) (step s) (geomParams s) (geomId s) (snap s) (selectedHex s)
    x (autoHighlightIdx s) (brickMeshes s) (ctrl s) (gizmoActive s)
    (prevStep s) (listenerSnap s) (rebuild s) (attached s) (gizmoMode s) (uidCount s)
    (rendered s).
Definition set_autoHighlightIdx (x : option nat) (s : State) : State :=
  mkState (scadInput s) (bricks s) (bricksId s) (step s) (geomParams s) (geomId s) (snap s) (selectedHex s)
    (selectedIndex s) x (brickMeshes s) (ctrl s) (gizmoActive s)
    (prevStep s) (listenerSnap s) (rebuild s) (attached s) (gizmoMode s) (uidCount s)
    (rendered s).
Definition set_brickMeshes (x : list Mesh) (s : State) : State :=
  mkState (scadInput s) (bricks s) (bricksId s) (step s) (geomParams s) (geomId s) (snap s) (selectedHex s)
    (selectedIndex s) (autoHighlightIdx s) x (ctrl s) (gizmoActive s)
    (prevStep s) (listenerSnap s) (rebuild s) (attached s) (gizmoMode s) (uidCount s)
    (rendered s).
Definition set_ctrl (x : bool) (s : State) : State :=
  mkState (scadInput s) (bricks s) (bricksId s) (step s) (geomParams s) (geomId s) (snap s) (selectedHex s)
    (selectedIndex s) (autoHighlightIdx s) (brickMeshes s) x (gizmoActive s)
    (prevStep s) (listenerSnap s) (rebuild s) (attached s) (gizmoMode s) (uidCount s)
    (rendered s).
Definition set_gizmoActive (x : bool) (s : State) : State :=
  mkState (scadInput s) (bricks s) (bricksId s) (step s) (geomParams s) (geomId s) (snap s) (selectedHex s)
    (selectedIndex s) (autoHighlightIdx s) (brickMeshes s) (ctrl s) x
    (prevStep s) (listenerSnap s) (rebuild s) (attached s) (gizmoMode s) (uidCount s)
    (rendered s).
Definition set_prevStep (x : Z) (s : State) : State :=
  mkState (scadInput s) (bricks s) (bricksId s) (step s) (geomParams s) (geomId s) (snap s) (selectedHex s)
    (selectedIndex s) (autoHighlightIdx s) (brickMeshes s) (ctrl s) (gizmoActive s)
    x (listenerSnap s) (rebuild s) (attached s) (gizmoMode s) (uidCount s)
    (rendered s).
Definition set_rebuild (x : option Z) (s : State) : State :=
  mkState (scadInput s) (bricks s) (bricksId s) (step s) (geomParams s) (geomId s) (snap s) (selectedHex s)
    (selectedIndex s) (autoHighlightIdx s) (brickMeshes s) (ctrl s) (gizmoActive s)
    (prevStep s) (listenerSnap s) x (attached s) (gizmoMode s) (uidCount s)
    (rendered s).
Definition set_attached (x : option nat) (s : State) : State :=
  mkState (scadInput s) (bricks s) (bricksId s) (step s) (geomParams s) (geomId s) (snap s) (selectedHex s)
    (selectedIndex s) (autoHighlightIdx s) (brickMeshes s) (ctrl s) (gizmoActive s)
    (prevStep s) (listenerSnap s) (rebuild s) x (gizmoMode s) (uidCount s)
    (rendered s).
Definition set_gizmoMode (x : mode) (s : State) : State :=
  mkState (scadInput s) (bricks s) (bricksId s) (step s) (geomParams s) (geomId s) (snap s) (selectedHex s)
    (selectedIndex s) (autoHighlightIdx s) (brickMeshes s) (ctrl s) (gizmoActive s)
    (prevStep s) (listenerSnap s) (rebuild s) (attached s) x (uidCount s)
    (rendered s).
Definition set_uidCount (x : nat) (s : State) : State :=
  mkState (scadInput s) (bricks s) (bricksId s) (step s) (geomParams s) (geomId s) (snap s) (selectedHex s)
    (selectedIndex s) (autoHighlightIdx s) (brickMeshes s) (ctrl s) (gizmoActive s)
    (prevStep s) (listenerSnap s) (rebuild s) (attached s) (gizmoMode s) x
    (rendered s).
Definition set_rendered (x : Deps) (s : State) : State :=
  mkState (scadInput s) (bricks s) (bricksId s) (step s) (geomParams s) (geomId s) (snap s) (selectedHex s)
    (selectedIndex s) (autoHighlightIdx s) (brickMeshes s) (ctrl s) (gizmoActive s)
    (prevStep s) (listenerSnap s) (rebuild s) (attached s) (gizmoMode s) (uidCount s)
    x.

(** [kindsKey]: [bricks.map((b) => b.kind).join("|")]. *)
Definition kindsKey (bs : list Brick) : string :=
  String.concat "|" (map kind bs).

Definition depsOf (s : State) : Deps :=
  mkDeps (scadInput s) (bricksId s) (length (bricks s)) (kindsKey (bricks s))
         (step s) (geomId s).

(** [Math.max(0, Math.min(step, bricks.length))]. *)
Definition visibleCountOf (stp : Z) (len : nat) : Z :=
  Z.max 0 (Z.min stp (Z.of_nat len)).

(** [visibleCount > 0 ? visibleCount - 1 : null]. *)
Definition lastRevealed (vc : Z) : option nat :=
  if 0 <? vc then Some (Z.to_nat (vc - 1)) else None.

(** [applyMaterialState], the emphasis mesh [i] is given. *)
Definition emphasisOf (sel auto : option nat) (i : nat) : emphasis :=
  if bool_decide (sel = Some i) then SelectEmphasis
  else if bool_decide (auto = Some i) && bool_decide (sel = None) then AutoEmphasis
  else NoEmphasis.

Definition withEmissive (e : emphasis) (m : Mesh) : Mesh :=
  mkMesh (position m) (rotation m) (visible m) e.

Definition refreshAllMaterials (s : State) : State :=
  set_brickMeshes
    (imap (fun i m => withEmissive (emphasisOf (selectedIndex s) (autoHighlightIdx s) i) m)
          (brickMeshes s)) s.

Definition setAutoHighlight (idx : option nat) (s : State) : State :=
  refreshAllMaterials (set_autoHighlightIdx idx s).

Section WithParams.
Variable PI : num.
Variable uid : nat -> string.

Definition transformOf (b : Brick) : vec3 * vec3 :=
  ((xMm b, yMm b, zMm b),
   (degToRad PI (rotX b), degToRad PI (rotY b), degToRad PI (rotZ b))).

(** The part of [rebuildProgressive] that runs before it suspends
    (lines 1866-1930); [cur] holds the values of its closure. *)
Definition rebuildProgressive (cur : Deps) (s : State) : State :=
  let bricksNow := bricks s in
  let visibleCount := visibleCountOf (d_step cur) (length bricksNow) in
  let s := set_brickMeshes [] s in
  let s := set_selectedIndex None s in
  let s := setAutoHighlight None s in
  let s := set_attached None s in
  let s := set_brickMeshes
             (imap (fun i b =>
                      mkMesh (fst (transformOf b)) (snd (transformOf b))
                             (Z.of_nat i <? visibleCount) NoEmphasis)
                   bricksNow) s in
  let s := refreshAllMaterials s in
  set_rebuild (Some visibleCount) s.

(** The rest of [rebuildProgressive], once [Promise.all] has resolved
    (lines 1961-1970).  Every compile is awaited inside [try]/[catch],
    so a failed kind does not keep this from running. *)
Definition rebuildDone (s : State) : State :=
  match rebuild s with
  | None => s
  | Some visibleCount =>
      let s := set_rebuild None s in
      if bool_decide (selectedIndex s = None)
      then setAutoHighlight (lastRevealed visibleCount) s
      else s
  end.

(** The sync effect (lines 1985-2009). *)
Definition syncEffect (cur : Deps) (s : State) : State :=
  match brickMeshes s with
  | [] => s
  | meshes =>
      let visibleCount := visibleCountOf (d_step cur) (length (bricks s)) in
      refreshAllMaterials
        (set_brickMeshes
           (imap (fun i mesh =>
                    match bricks s !! i with
                    | None => mesh
                    | Some b =>
                        mkMesh (fst (transformOf b)) (snd (transformOf b))
                               (Z.of_nat i <? visibleCount) (emissive mesh)
                    end) meshes) s)
  end.

(** The step-transition effect (lines 2014-2028). *)
Definition stepEffect (cur : Deps) (s : State) : State :=
  let prev := prevStep s in
  let s := set_prevStep (d_step cur) s in
  if prev <? d_step cur then
    let visibleCount := visibleCountOf (d_step cur) (d_len cur) in
    if bool_decide (selectedIndex s = None)
    then setAutoHighlight (lastRevealed visibleCount) s
    else s
  else s.

(** The effects on the refs, in the order of their declaration: an effect
    runs when one of its dependencies differs from the previous render
    ([old]); [cur] holds the values of this render. *)
Definition runEffects (old cur : Deps) (s : State) : State :=
  let idCh := negb (bool_decide (d_bricksId old = d_bricksId cur)) in
  let lenCh := negb (bool_decide (d_len old = d_len cur)) in
  let kindsCh := negb (bool_decide (d_kindsKey old = d_kindsKey cur)) in
  let stepCh := negb (bool_decide (d_step old = d_step cur)) in
  let geomCh := negb (bool_decide (d_geom old = d_geom cur)) in
  (* [geomParams, step, bricks.length, kindsKey] (line 1980) *)
  let s := if geomCh || stepCh || lenCh || kindsCh then rebuildProgressive cur s else s in
  (* [bricks, step] (line 2009) *)
  let s := if idCh || stepCh then syncEffect cur s else s in
  (* [step, bricks.length] (line 2028) *)
  if stepCh || lenCh then stepEffect cur s else s.

Definition textChanged (s : State) : bool :=
  negb (bool_decide (d_text (rendered s) = scadInput s)).
Definition lenChanged (s : State) : bool :=
  negb (bool_decide (d_len (rendered s) = length (bricks s))).

(** One render and the effects it runs; the state updates that the effects
    request take effect after the pass. *)
Definition renderPass (s : State) : State :=
  let old := rendered s in
  let cur := depsOf s in
  (* useMemo (line 1518) and the effect of line 1520: setBricks(parsedBricks) *)
  let parsed :=
    if textChanged s then Some (parseBrickDSL uid RevB (uidCount s) (scadInput s)) else None in
  (* line 1523: setStep((s) => Math.min(s, bricks.length)) *)
  let clampTo := if lenChanged s then Some (Z.of_nat (d_len cur)) else None in
  let s := runEffects old cur (set_rendered cur s) in
  let s := match parsed with
           | Some bs => set_uidCount (uidCount s + length bs) (set_bricks bs s)
           | None => s
           end in
  match clampTo with
  | Some n => set_step (Z.min (step s) n) s
  | None => s
  end.

(** React renders again while an effect has changed the state. *)
Fixpoint settle (fuel : nat) (s : State) : State :=
  if bool_decide (rendered s = depsOf s) then s
  else match fuel with
       | O => s
       | S f => settle f (renderPass s)
       end.

(** [commitSelectedMeshToState], called by the gizmo listeners that the
    scene effect registers once (dependencies [[]], lines 1774-1783 and
    1856): the snap options it reads are those of that first render. *)
Definition commitSelectedMeshToState (s : State) : State :=
  match selectedIndex s with
  | None => s
  | Some idx =>
      match brickMeshes s !! idx with
      | None => s
      | Some mesh =>
          let mesh' := applySnapToMesh PI RevB (listenerSnap s) (ctrl s) mesh in
          let s := set_brickMeshes (<[idx := mesh']> (brickMeshes s)) s in
          match bricks s !! idx with
          | None => s
          | Some _ => set_bricks (commitUpdater PI idx mesh' (bricks s)) s
          end
      end
  end.

(** [applySelectedColor]. *)
Definition applySelectedColor (hex : string) (s : State) : State :=
  match selectedIndex s with
  | None => s
  | Some idx =>
      match bricks s !! idx with
      | None => s
      | Some b =>
          set_bricks
            (<[idx := mkBrick (id b) (kind b) (xMm b) (yMm b) (zMm b)
                              (rotX b) (rotY b) (rotZ b) (Color.hexToRgb01 hex)]>
               (bricks s)) s
      end
  end.

(** Deselection, by [Escape] or by a click that hits nothing. *)
Definition deselect (s : State) : State :=
  let s := set_selectedIndex None s in
  let s := set_attached None s in
  setAutoHighlight
    (lastRevealed (visibleCountOf (step s) (length (bricks s)))) s.

(** [onPointerDown] (lines 2074-2121); [hit] is the part index of the
    nearest mesh the ray meets among the visible ones. *)
Definition onPointerDown (hit : option nat) (s : State) : State :=
  if gizmoActive s then s
  else match brickMeshes s with
       | [] => s
       | _ =>
           match hit with
           | None => deselect s
           | Some idx =>
               match brickMeshes s !! idx with
               | Some m =>
                   if visible m then
                     let s := set_selectedIndex (Some idx) s in
                     match bricks s !! idx with
                     | None => s   (* b.color throws: the handler stops here *)
                     | Some b =>
                         let s := set_selectedHex (Color.rgb01ToHex (color b)) s in
                         let s := setAutoHighlight None s in
                         set_attached (Some idx) (refreshAllMaterials s)
                     end
                   else s
               | None => s
               end
           end
       end.

Inductive event :=
| SetScadInput (text : string)        (* the DSL text area *)
| SliderStep (v : Z)                  (* the step slider *)
| Prev | Next | FinishBuild           (* the step buttons *)
| KeyEnter | KeyBackspace | KeyEscape
| KeyMode (m : mode)                  (* W and E, and the two mode buttons *)
| KeyCtrl (down : bool)
| PointerDown (hit : option nat)
| GizmoMouseDown | GizmoMouseUp
| DraggingChanged (value : bool)
| GizmoMove (pos rot : vec3)          (* the gizmo moves the attached mesh *)
| SetSnap (o : SnapOptions)           (* the three snap check boxes *)
| SetGeomParams (p : BrickGeomParams)
| ColorInput (hex : string)
| RebuildDone.                        (* the geometries of a rebuild have settled *)

Definition handler (e : event) (s : State) : State :=
  match e with
  | SetScadInput text => set_scadInput text s
  | SliderStep v =>
      (* a range input with min 0 and max bricks.length *)
      if (0 <=? v) && (v <=? Z.of_nat (length (bricks s))) then set_step v s else s
  | Prev | KeyBackspace => set_step (Z.max 0 (step s - 1)) s
  | Next | KeyEnter => set_step (Z.min (Z.of_nat (length (bricks s))) (step s + 1)) s
  | FinishBuild => set_step (Z.of_nat (length (bricks s))) s
  | KeyEscape => deselect s
  | KeyMode m => set_gizmoMode m s
  | KeyCtrl down => set_ctrl down s
  | PointerDown hit => onPointerDown hit s
  | GizmoMouseDown => set_gizmoActive true s
  | GizmoMouseUp => commitSelectedMeshToState (set_gizmoActive false s)
  | DraggingChanged value => if value then s else commitSelectedMeshToState s
  | GizmoMove pos rot =>
      match attached s with
      | None => s
      | Some i =>
          set_brickMeshes
            (alter (fun m => mkMesh pos rot (visible m) (emissive m)) i (brickMeshes s)) s
      end
  | SetSnap o => set_snap o s
  | SetGeomParams p => set_geomParams p s
  | ColorInput hex => applySelectedColor hex (set_selectedHex hex s)
  | RebuildDone => rebuildDone s
  end.

(** An event: its handler, then the renders it causes. *)
Definition handle (e : event) (s : State) : State := settle 3 (handler e s).

Definition defaultGeom : BrickGeomParams :=
  mkParams (ofZ 48) (ofDec 48 10) (ofDec 18 10) (ofDec 2 100).

Definition allSnaps : SnapOptions := mkSnap true true true.

(** The component after its first render and the effects of the mount,
    for the initial DSL text [text]. *)
Definition init (text : string) : State :=
  let bs := parseBrickDSL uid RevB 0 text in
  let s0 := mkState text bs 0 0 defaultGeom 0 allSnaps "#ffcc00"
                    None None [] false false 0
                    allSnaps None None Translate (length bs)
                    (mkDeps text 0 (length bs) (kindsKey bs) 0 0) in
  let cur := depsOf s0 in
  stepEffect cur (syncEffect cur (rebuildProgressive cur s0)).

Definition run (es : list event) (s : State) : State :=
  foldl (fun s e => handle e s) s es.

(** The state fields that only handlers and queued updates change. *)
Definition core (s : State) :=
  (scadInput s, bricks s, bricksId s, step s, geomId s, uidCount s,
   rendered s, snap s, listenerSnap s, selectedHex s, ctrl s, gizmoActive s, gizmoMode s,
   geomParams s).

(** Nothing is left to render. *)
Definition stable (s : State) : Prop := rendered s = depsOf s.

(** Every mesh shows the emphasis [applyMaterialState] gives it. *)
Definition consistent (s : State) : Prop :=
  ∀ i m, brickMeshes s !! i = Some m ->
         emissive m = emphasisOf (selectedIndex s) (autoHighlightIdx s) i.

(** [visibleCount] as of the last render. *)
Definition renderedCount (s : State) : Z :=
  visibleCountOf (d_step (rendered s)) (d_len (rendered s)).

(** The invariant of the page. *)
Record pageInv (s : State) : Prop := mkPageInv {
  inv_meshes : length (brickMeshes s) = d_len (rendered s);
  inv_emissive : consistent s;
  inv_exclusive : selectedIndex s ≠ None -> autoHighlightIdx s = None;
  inv_cursor : 0 <= step s <= Z.of_nat (d_len (rendered s));
  inv_prevStep : prevStep s = d_step (rendered s);
  inv_auto : selectedIndex s = None -> rebuild s = None ->
             autoHighlightIdx s = lastRevealed (renderedCount s);
  inv_rebuild : ∀ vc, rebuild s = Some vc -> vc = renderedCount s
}.

(** The states the page can be in. *)
Inductive reachable : State -> Prop :=
| reach_init text : reachable (init text)
| reach_step s e : reachable s -> reachable (handle e s).
End WithParams.

End Page.

(** ** Sample inputs *)

Module Samples.
Import Parser Snap.

(** A stand-in for [Math.PI]. *)
Definition pi_approx : num := ofDec 355 113.

(** A stand-in for the number printer: the numerator and the denominator. *)
Definition showNum (x : num) : string :=
  (pretty (Qnum (this x)) ++ "/" ++ pretty (Zpos (Qden (this x))))%string.

(** A stand-in for [uid]. *)
Definition uid0 (n : nat) : string := String (ascii_of_nat (65 + n)) EmptyString.


Definition gridStatement : string :=
  ("brick(" ++ quoted "2x4" ++ ", xStud=2, yStud=0, zLevel=0);")%string.

Definition bothStatement : string :=
  ("brick(" ++ quoted "2x4"
   ++ ", xStud=2, yStud=1, zLevel=3, xMm=1.5, yMm=-2, zMm=.25);")%string.

Definition partialStatement : string :=
  ("brick(" ++ quoted "2x4" ++ ", xStud=2, yStud=1, xMm=1.5, zMm=4);")%string.

Definition prototypeStatement : string :=
  ("brick(" ++ quoted "toString" ++ ", xStud=1, yStud=0, zLevel=0);")%string.

(** Two good statements, a commented one, an unknown kind, a broken one,
    and a statement without position. *)
Definition mixedText : string :=
  ("/* sample */" ++ newline
   ++ "brick(" ++ quoted "2x4"
   ++ ", xStud=0, yStud=0, zLevel=0, rotY=0, color=[0.85,0.1,0.1]);" ++ newline
   ++ "// brick(" ++ quoted "2x2" ++ ", xStud=1, yStud=0, zLevel=0);" ++ newline
   ++ "brick(" ++ quoted "nope" ++ ", xStud=5, yStud=0, zLevel=0);" ++ newline
   ++ "brick(2x2, xStud=5;" ++ newline
   ++ "brick(" ++ quoted "1x1"
   ++ ", xMm=10.2, yMm=9.6, zMm=6.7, rot=[0,15,0], color=[0.2,0.9,1.3]);" ++ newline
   ++ "brick(" ++ quoted "1x2" ++ ", rotY=90)")%string.
Definition twoParts : string :=
  ("brick(" ++ quoted "2x4" ++ ", xStud=0, yStud=0, zLevel=0);" ++ newline
   ++ "brick(" ++ quoted "2x2" ++ ", xStud=2, yStud=0, zLevel=0, rotY=90);")%string.

Definition threeParts : string :=
  ("brick(" ++ quoted "1x1" ++ ", xStud=0, yStud=0, zLevel=0);"
   ++ "brick(" ++ quoted "1x1" ++ ", xStud=1, yStud=0, zLevel=0);"
   ++ "brick(" ++ quoted "1x1" ++ ", xStud=2, yStud=0, zLevel=0);")%string.

Definition fiveParts : string :=
  (threeParts
   ++ "brick(" ++ quoted "1x1" ++ ", xStud=3, yStud=0, zLevel=0);"
   ++ "brick(" ++ quoted "1x1" ++ ", xStud=4, yStud=0, zLevel=0);")%string.

(** The first part of [twoParts], as parsed. *)
Definition firstPart : Brick :=
  mkBrick "A" "2x4" 0%Qc 0%Qc 0%Qc 0%Qc 0%Qc 0%Qc defaultColor.


(** Both parts revealed, the first one selected and dragged. *)
Definition draggedState : Page.State :=
  Page.run pi_approx uid0
    [Page.Next; Page.Next; Page.RebuildDone; Page.PointerDown (Some 0%nat);
     Page.GizmoMouseDown;
     Page.GizmoMove (ofZ 13, ofDec 94 10, ofZ 3) (ofZ 1, 0%Qc, 0%Qc)]
    (Page.init pi_approx uid0 twoParts).

(** Both parts revealed and highlighted in turn. *)
Definition steppedState : Page.State :=
  Page.run pi_approx uid0
    [Page.RebuildDone; Page.Next; Page.RebuildDone; Page.Next; Page.RebuildDone]
    (Page.init pi_approx uid0 twoParts).

(** Five parts, all revealed. *)
Definition finishedState : Page.State :=
  Page.run pi_approx uid0 [Page.FinishBuild; Page.RebuildDone]
    (Page.init pi_approx uid0 fiveParts).
End Samples.

(** ** The highlight blend of revision A (lines 89-101) *)

Module Blend.
Import Parser.

(** [blend(a, b, t)]. *)
Definition blend (a b : Color.rgb) (t : num) : Color.rgb :=
  let t := clamp01 t in
  let '(a0, a1, a2) := a in
  let '(b0, b1, b2) := b in
  ((a0 * (1 - t) + b0 * t)%Qc, (a1 * (1 - t) + b1 * t)%Qc, (a2 * (1 - t) + b2 * t)%Qc).

Definition HIGHLIGHT_T : num := ofDec 55 100.
Definition HIGHLIGHT_RGB : Color.rgb := (1%Qc, 1%Qc, 0%Qc).

(** The byte the local [to] of [rgb01ToHex] prints for a component: the
    rounded product, kept within 0..255. *)
Definition byteOf (v : num) : Z := Z.max 0 (Z.min 255 (round (v * ofZ 255)%Qc)).

(** A component between 0 and 1. *)
Definition unit01 (x : num) : Prop := (0 <= x)%Qc /\ (x <= 1)%Qc.

(** A triple of components between 0 and 1. *)
Definition inGamut (c : Color.rgb) : Prop :=
  let '(r, g, b) := c in unit01 r /\ unit01 g /\ unit01 b.

End Blend.

(** ** The instruction line (lines 202-224 and 832-845; again 1371-1396
    and 2159-2174) *)

Module Naming.
Import Parser.

(** [s.startsWith(p)]. *)
Fixpoint startsWith (p s : string) : bool :=
  match p, s with
  | EmptyString, _ => true
  | String a p', String b s' => Ascii.eqb a b && startsWith p' s'
  | String _ _, EmptyString => false
  end.

Fixpoint dropStr (n : nat) (s : string) : string :=
  match n, s with
  | S n', String _ rest => dropStr n' rest
  | _, _ => s
  end.

(** [s.replace(pat, rep)] with a string pattern: the first occurrence. *)
Fixpoint replaceFirst (pat rep s : string) : string :=
  if startsWith pat s then (rep ++ dropStr (String.length pat) s)%string
  else match s with
       | EmptyString => EmptyString
       | String c rest => String c (replaceFirst pat rep rest)
       end.

(** [s.replaceAll(c, rep)] for a pattern of one character. *)
Fixpoint replaceAllChar (c : ascii) (rep s : string) : string :=
  match s with
  | EmptyString => EmptyString
  | String a rest =>
      if Ascii.eqb a c then (rep ++ replaceAllChar c rep rest)%string
      else String a (replaceAllChar c rep rest)
  end.

(** The multiplication sign, code unit 215. *)
Definition times : string := String (ascii_of_nat 215) EmptyString.

(** [kindPretty].  After the prefix is removed, revision A replaces an
    underscore by the multiplication sign, revision B the letter x. *)
Definition kindPretty (v : revision) (kind : string) : string :=
  let sep := match v with RevA => "_" | RevB => "x" end%string in
  if startsWith "plate_" kind
  then ("plate " ++ replaceFirst sep times (replaceFirst "plate_" EmptyString kind))%string
  else if startsWith "tile_" kind
  then ("tile " ++ replaceFirst sep times (replaceFirst "tile_" EmptyString kind))%string
  else if startsWith "slope_" kind then replaceAllChar "_" " " kind
  else ("brick " ++ replaceFirst "x" times kind)%string.

(** The comparisons [a > b] and [a < b]. *)
Definition gtb (a b : num) : bool := negb (leb a b).
Definition ltb (a b : num) : bool := negb (leb b a).

(** [colorName]. *)
Definition colorName (rgb : Color.rgb) : string :=
  let '(r, g, b) := rgb in
  if gtb r (ofDec 7 10) && gtb g (ofDec 7 10) && ltb b (ofDec 35 100) then "yellow"
  else if gtb r (ofDec 75 100) && ltb g (ofDec 35 100) && ltb b (ofDec 35 100) then "red"
  else if gtb g (ofDec 65 100) && ltb r (ofDec 45 100) && ltb b (ofDec 55 100) then "green"
  else if gtb b (ofDec 7 10) && ltb r (ofDec 45 100) && ltb g (ofDec 6 10) then "blue"
  else if gtb r (ofDec 6 10) && gtb g (ofDec 6 10) && gtb b (ofDec 6 10) then "light gray"
  else if ltb r (ofDec 35 100) && ltb g (ofDec 35 100) && ltb b (ofDec 35 100) then "dark gray"
  else if gtb r (ofDec 6 10) && gtb b (ofDec 6 10) && ltb g (ofDec 5 10) then "purple"
  else if gtb r (ofDec 7 10) && gtb g (ofDec 4 10) && ltb b (ofDec 3 10) then "orange"
  else "colored".

(** [instructionBrick]: the part the instruction line is about.  Revision A
    takes the index [Math.max(0, Math.min(visibleCount - 1,
    Math.max(0, bricks.length - 1)))] when there are parts and
    [visibleCount > 0]; revision B takes [visibleCount - 1] when
    [visibleCount > 0]. *)
Definition instructionBrick (v : revision) (bricks : list Brick) (step : Z) : option Brick :=
  let visibleCount := Page.visibleCountOf step (length bricks) in
  match v with
  | RevA =>
      let instructionIdx :=
        Z.max 0 (Z.min (visibleCount - 1) (Z.max 0 (Z.of_nat (length bricks) - 1))) in
      if negb (length bricks =? 0)%nat && (0 <? visibleCount)
      then bricks !! Z.to_nat instructionIdx else None
  | RevB =>
      match Page.lastRevealed visibleCount with
      | Some idx => bricks !! idx
      | None => None
      end
  end.

(** The sentence about a part:
    [`Place the ${colorName(b.color)} ${kindPretty(b.kind)} where highlighted.`],
    with a comma after the kind in revision A. *)
Definition placeText (v : revision) (b : Brick) : string :=
  ("Place the " ++ colorName (color b) ++ " " ++ kindPretty v (kind b)
   ++ match v with RevA => "," | RevB => EmptyString end
   ++ " where highlighted.")%string.

(** [instructionText]. *)
Definition instructionText (v : revision) (bricks : list Brick) (step : Z) : string :=
  let visibleCount := Page.visibleCountOf step (length bricks) in
  if (length bricks =? 0)%nat then "Add bricks in the DSL to generate a blueprint."
  else if visibleCount =? 0 then "Press Next to reveal step 1."
  else match instructionBrick v bricks step with
       | Some b => placeText v b
       | None => "Press Next to continue."
       end.

(** What the instruction box shows: revision A shows [instructionText]
    (line 891), revision B replaces it by a closing line once every part
    is revealed (lines 2174 and 2232). *)
Definition instructionLine (v : revision) (bricks : list Brick) (step : Z) : string :=
  match v with
  | RevA => instructionText v bricks step
  | RevB =>
      if negb (length bricks =? 0)%nat && (step =? Z.of_nat (length bricks))
      then "Build complete. Nice."
      else instructionText v bricks step
  end.

(** A string of decimal digits. *)
Fixpoint allDigits (s : string) : bool :=
  match s with
  | EmptyString => true
  | String c rest => Regex.isDigit c && allDigits rest
  end.

End Naming.

(** ** Shapes of text, for the statements about comments *)

Module Text.

(** The character [c] occurs in [s]. *)
Fixpoint hasChar (c : ascii) (s : string) : bool :=
  match s with
  | EmptyString => false
  | String a rest => Ascii.eqb a c || hasChar c rest
  end.

(** No line terminator occurs in [s]. *)
Fixpoint oneLine (s : string) : bool :=
  match s with
  | EmptyString => true
  | String a rest => negb (Regex.isLineTerminator a) && oneLine rest
  end.

(** [s] is empty or starts with a line terminator. *)
Definition atLineEnd (s : string) : bool :=
  match s with
  | EmptyString => true
  | String a _ => Regex.isLineTerminator a
  end.

End Text.

(** ** More sample inputs *)

Module MoreSamples.
Import Parser.

Definition firstLine : string :=
  ("brick(" ++ quoted "2x4" ++ ", xStud=0, yStud=0, zLevel=0);" ++ newline)%string.

Definition hiddenStatement : string :=
  (" brick(" ++ quoted "2x2" ++ ", xStud=1, yStud=0, zLevel=0);")%string.

Definition lastLine : string :=
  (newline ++ "brick(" ++ quoted "1x1" ++ ", xStud=4, yStud=0, zLevel=1);")%string.

End MoreSamples.

(** ** The scene of revision B and the cursor *)

Module Scene.
Import Snap Page.

(** The meshes [ms] show the first [n] parts and hide the others. *)
Definition shows (n : Z) (ms : list Mesh) : Prop :=
  ∀ i m, ms !! i = Some m -> visible m = (Z.of_nat i <? n).

(** What the page keeps about its scene: the meshes show the parts up to
    the cursor as of the last render, the selected part is one of them,
    and the gizmo is attached to the selected part. *)
Record sceneInv (s : State) : Prop := mkSceneInv {
  scene_shows : shows (renderedCount s) (brickMeshes s);
  scene_selected : ∀ i, selectedIndex s = Some i -> Z.of_nat i < renderedCount s;
  scene_attached : attached s = selectedIndex s
}.

End Scene.

(** ** The page of revision A: the yellow tint (lines 319-421 and 608-816)

    Revision A marks a part by blending the colour of its material with
    yellow.  The state below holds what the tint depends on: the parts,
    the cursor, the two selection refs, the colour and visibility of
    every mesh and the rebuild in flight.  The transforms of the meshes,
    the gizmo and the camera are not represented. *)

Module PageA.
Import Parser Blend.

(** A mesh of [brickMeshesRef]: the colour of its material and its
    [visible] flag. *)
Record MeshA := mkMeshA {
  matColor : Color.rgb;
  shown : bool
}.

Record StateA := mkStateA {
  (* useState *)
  bricks : list Brick;        (* also [bricksRef.current]: the effect of line 356
                                 copies the array before any effect reads the ref *)
  step : Z;
  selectedHex : string;
  (* useRef *)
  selectedIndex : option nat;
  prevSelectedIndex : option nat;
  brickMeshes : list MeshA;
  (* the rebuild waiting for its geometries, with the [step] of its closure *)
  rebuild : option Z
}.

Definition set_bricks (x : list Brick) (s : StateA) : StateA :=
  mkStateA x (step s) (selectedHex s) (selectedIndex s) (prevSelectedIndex s)
           (brickMeshes s) (rebuild s).
Definition set_step (x : Z) (s : StateA) : StateA :=
  mkStateA (bricks s) x (selectedHex s) (selectedIndex s) (prevSelectedIndex s)
           (brickMeshes s) (rebuild s).
Definition set_selectedHex (x : string) (s : StateA) : StateA :=
  mkStateA (bricks s) (step s) x (selectedIndex s) (prevSelectedIndex s)
           (brickMeshes s) (rebuild s).
Definition set_selectedIndex (x : option nat) (s : StateA) : StateA :=
  mkStateA (bricks s) (step s) (selectedHex s) x (prevSelectedIndex s)
           (brickMeshes s) (rebuild s).
Definition set_prevSelectedIndex (x : option nat) (s : StateA) : StateA :=
  mkStateA (bricks s) (step s) (selectedHex s) (selectedIndex s) x
           (brickMeshes s) (rebuild s).
Definition set_brickMeshes (x : list MeshA) (s : StateA) : StateA :=
  mkStateA (bricks s) (step s) (selectedHex s) (selectedIndex s) (prevSelectedIndex s)
           x (rebuild s).
Definition set_rebuild (x : option Z) (s : StateA) : StateA :=
  mkStateA (bricks s) (step s) (selectedHex s) (selectedIndex s) (prevSelectedIndex s)
           (brickMeshes s) x.

(** The colour a part is drawn in, tinted or plain. *)
Definition tinted (on : bool) (b : Brick) : Color.rgb :=
  if on then blend (color b) HIGHLIGHT_RGB HIGHLIGHT_T else color b.

(** [setBrickHighlight] (lines 390-397). *)
Definition setBrickHighlight (brickIndex : nat) (on : bool) (s : StateA) : StateA :=
  match brickMeshes s !! brickIndex, bricks s !! brickIndex with
  | Some mesh, Some b =>
      set_brickMeshes (<[brickIndex := mkMeshA (tinted on b) (shown mesh)]> (brickMeshes s)) s
  | _, _ => s
  end.

(** [const prev = prevSelectedIndexRef.current;
     if (prev != null) setBrickHighlight(prev, false)]. *)
Definition clearPrevious (s : StateA) : StateA :=
  match prevSelectedIndex s with
  | Some prev => setBrickHighlight prev false s
  | None => s
  end.

(** The effect on [step] that highlights the part revealed last (lines
    400-421). *)
Definition autoHighlightEffect (s : StateA) : StateA :=
  match selectedIndex s with
  | Some _ => s
  | None =>
      let last := step s - 1 in
      if last <? 0 then s
      else
        let s := clearPrevious s in
        let s := set_prevSelectedIndex (Some (Z.to_nat last)) s in
        setBrickHighlight (Z.to_nat last) true s
  end.

(** The meshes [rebuild] makes once the geometries are there (lines
    637-663). *)
Definition newMeshes (stp : Z) (bs : list Brick) : list MeshA :=
  imap (fun i b =>
          mkMeshA (color b) (Z.of_nat i <? Page.visibleCountOf stp (length bs))) bs.

(** [rebuild] after its [await]s. *)
Definition rebuildDone (s : StateA) : StateA :=
  match rebuild s with
  | None => s
  | Some stp => set_rebuild None (set_brickMeshes (newMeshes stp (bricks s)) s)
  end.

(** [rebuild] gave up: [getBrickGeometry] rejected. *)
Definition rebuildFailed (s : StateA) : StateA := set_rebuild None s.

(** The rebuild effect (lines 608-680) up to its first [await]; the
    cleanup of the run before cancels the rebuild in flight.  Without
    parts there is no geometry to wait for and [rebuild] runs to its
    end. *)
Definition rebuildEffect (s : StateA) : StateA :=
  let s := set_brickMeshes [] s in
  let s := set_selectedIndex None s in
  let s := set_prevSelectedIndex None s in
  let s := set_rebuild (Some (step s)) s in
  match bricks s with
  | [] => rebuildDone s
  | _ => s
  end.

(** The sync effect (lines 684-709). *)
Definition syncEffect (s : StateA) : StateA :=
  match brickMeshes s with
  | [] => s
  | meshes =>
      let visibleCount := Page.visibleCountOf (step s) (length (bricks s)) in
      set_brickMeshes
        (imap (fun i mesh =>
                 match bricks s !! i with
                 | None => mesh
                 | Some b =>
                     mkMeshA (tinted (bool_decide (selectedIndex s = Some i)) b)
                             (Z.of_nat i <? visibleCount)
                 end) meshes) s
  end.

(** The effects of one render, in the order of their declaration; the
    flags tell which of [bricks], [step], [bricks.length], [kindsKey] and
    [geomParams] the render changed. *)
Definition effects (dBricks dStep dLen dKinds dGeom : bool) (s : StateA) : StateA :=
  let s := if dStep then autoHighlightEffect s else s in
  let s := if dGeom || dStep || dLen || dKinds then rebuildEffect s else s in
  if dBricks || dStep then syncEffect s else s.

(** [setBricks] with a new array, and the renders it leads to: the one
    that installs the array, and one more when the effect of line 325
    lowers the cursor. *)
Definition setBricks (bs : list Brick) (s : StateA) : StateA :=
  let dLen := negb (length bs =? length (bricks s))%nat in
  let dKinds := negb (String.eqb (Page.kindsKey bs) (Page.kindsKey (bricks s))) in
  let s := effects true false dLen dKinds false (set_bricks bs s) in
  let clamped := Z.min (step s) (Z.of_nat (length bs)) in
  if dLen && negb (clamped =? step s)
  then effects false true false false false (set_step clamped s)
  else s.

(** [setStep] and the render it leads to. *)
Definition setStep (v : Z) (s : StateA) : StateA :=
  if v =? step s then s
  else effects false true false false false (set_step v s).

(** [setGeomParams]: the object is a new one every time. *)
Definition setGeomParams (s : StateA) : StateA :=
  effects false false false false true s.

(** Escape, and a press next to every part (lines 722-728 and 766-773). *)
Definition deselect (s : StateA) : StateA :=
  let s := clearPrevious s in
  let s := set_selectedIndex None s in
  set_prevSelectedIndex None s.

(** [onPointerDown] (lines 746-795) for a press the gizmo leaves to it;
    [hit] is the part index of the nearest mesh the ray meets among the
    visible ones.  Reading [b.color] of a missing part throws and ends
    the handler. *)
Definition onPointerDown (hit : option nat) (s : StateA) : StateA :=
  match brickMeshes s with
  | [] => s
  | _ =>
      match hit with
      | None => deselect s
      | Some idx =>
          match brickMeshes s !! idx with
          | Some mesh =>
              if shown mesh then
                let s := clearPrevious s in
                let s := set_selectedIndex (Some idx) s in
                let s := set_prevSelectedIndex (Some idx) s in
                match bricks s !! idx with
                | None => s
                | Some b =>
                    let s := set_selectedHex (Color.rgb01ToHex (color b)) s in
                    setBrickHighlight idx true s
                end
              else s
          | None => s
          end
      end
  end.

(** [applySelectedColor] (lines 802-815). *)
Definition applySelectedColor (hex : string) (s : StateA) : StateA :=
  match selectedIndex s with
  | None => s
  | Some idx =>
      let rgb := Color.hexToRgb01 hex in
      match bricks s !! idx with
      | None => s
      | Some b =>
          setBricks
            (<[idx := mkBrick (id b) (kind b) (xMm b) (yMm b) (zMm b)
                              (rotX b) (rotY b) (rotZ b) rgb]> (bricks s)) s
      end
  end.

Inductive event :=
| SetStep (v : Z)                   (* the slider and the step buttons *)
| SetBricks (bs : list Brick)       (* the parts of an edited text, or of a released gizmo *)
| SetGeomParams                     (* a geometry slider *)
| PointerDown (hit : option nat)
| KeyEscape
| ColorInput (hex : string)         (* the colour input, lines 1057-1062 *)
| RebuildDone                       (* the geometries of the rebuild have settled *)
| RebuildFailed.

Definition handler (e : event) (s : StateA) : StateA :=
  match e with
  | SetStep v => setStep v s
  | SetBricks bs => setBricks bs s
  | SetGeomParams => setGeomParams s
  | PointerDown hit => onPointerDown hit s
  | KeyEscape => deselect s
  | ColorInput hex => applySelectedColor hex (set_selectedHex hex s)
  | RebuildDone => rebuildDone s
  | RebuildFailed => rebuildFailed s
  end.

(** The page after its first render and the effects of the mount. *)
Definition init (bs : list Brick) : StateA :=
  effects true true true true true (mkStateA bs 0 "#ffcc00" None None [] None).

Definition run (es : list event) (s : StateA) : StateA :=
  foldl (fun s e => handler e s) s es.

(** Every mesh has its part's colour, blended with yellow for the
    selected part and for no other. *)
Definition tintMarksSelection (s : StateA) : Prop :=
  ∀ i m, brickMeshes s !! i = Some m ->
         ∃ b, bricks s !! i = Some b
              /\ matColor m = tinted (bool_decide (selectedIndex s = Some i)) b.

Record invA (s : StateA) : Prop := mkInvA {
  inv_prev : prevSelectedIndex s = selectedIndex s;
  inv_selected : ∀ i, selectedIndex s = Some i -> is_Some (brickMeshes s !! i);
  inv_waiting : rebuild s <> None -> brickMeshes s = [];
  inv_tint : tintMarksSelection s
}.

(** The states the page can be in. *)
Inductive reachable : StateA -> Prop :=
| reach_init bs : reachable (init bs)
| reach_step s e : reachable s -> reachable (handler e s).

End PageA.

(** ** Sample states of revision A *)

Module SamplesA.
Import Parser PageA.

(** The parts of [Samples.twoParts]. *)
Definition twoBricks : list Brick :=
  parseBrickDSL Samples.uid0 RevA 0 Samples.twoParts.

(** Both parts revealed and the second one clicked. *)
Definition selectedState : StateA :=
  run [RebuildDone; SetStep 2; RebuildDone; PointerDown (Some 1%nat)] (init twoBricks).

End SamplesA.

(** * Properties *)

(** ** Rationals *)

Module NumFacts.

Lemma this_ofZ z : this (ofZ z) = inject_Z z.
Proof.
  unfold ofZ, inject_Z. cbn [this Q2Qc].
  apply Qred_identity. apply Z.gcd_1_r.
Qed.



Lemma this_mult (a b : Qc) : (this (a * b)%Qc == this a * this b)%Q.
Proof. simpl. apply Qred_correct. Qed.

Lemma this_plus (a b : Qc) : (this (a + b)%Qc == this a + this b)%Q.
Proof. simpl. apply Qred_correct. Qed.

Lemma this_opp (a : Qc) : (this (- a)%Qc == - this a)%Q.
Proof. simpl. apply Qred_correct. Qed.

Lemma this_minus (a b : Qc) : (this (a - b)%Qc == this a - this b)%Q.
Proof. unfold Qcminus. rewrite this_plus, this_opp. reflexivity. Qed.

Lemma this_inv (a : Qc) : (this (/ a)%Qc == / this a)%Q.
Proof. simpl. apply Qred_correct. Qed.

Lemma this_div (a b : Qc) : (this (a / b)%Qc == this a / this b)%Q.
Proof. unfold Qcdiv. rewrite this_mult, this_inv. reflexivity. Qed.

Lemma Qc_nonzero (a : Qc) : a <> 0%Qc -> ~ (this a == 0)%Q.
Proof. intros H E. apply H. apply Qc_is_canon. exact E. Qed.



Lemma leb_le (a b : num) : leb a b = true <-> (a <= b)%Qc.
Proof. unfold leb, Qcle. apply Qle_bool_iff. Qed.

Lemma leb_gt (a b : num) : leb a b = false <-> (b < a)%Qc.
Proof.
  unfold leb, Qclt. split; intros H.
  - apply Qnot_le_lt. intros L. apply Qle_bool_iff in L. congruence.
  - destruct (Qle_bool (this a) (this b)) eqn:E; [| reflexivity].
    apply Qle_bool_iff in E. exfalso. apply (Qlt_not_le _ _ H E).
Qed.


End NumFacts.

(** ** Colour conversions *)

Module ColorFacts.
Import Color NumFacts.

Example rgb01ToHex_ex :
  rgb01ToHex (ofDec 8 10, ofDec 1 10, ofDec 1 10) = "#cc1a1a"%string.
Proof. vm_compute. reflexivity. Qed.

Example hexToRgb01_ex :
  hexToRgb01 "#ffcc00" = (ofZ 1, ofDec 4 5, ofZ 0).
Proof. by_eval. Qed.

(** A string that is no number reads as black. *)
Example hexToRgb01_garbage :
  hexToRgb01 "#zz" = (ofZ 0, ofZ 0, ofZ 0).
Proof. by_eval. Qed.

Lemma isLowerHex_cases c : isLowerHex c = true -> In c lowerHexChars.
Proof.
  destruct c as [[] [] [] [] [] [] [] []]; vm_compute; intros H;
    try discriminate H; tauto.
Qed.

Lemma lowerHex_val c :
  isLowerHex c = true ->
  exists v, hexVal c = Some v /\ 0 <= v < 16 /\ hexDigit v = c.
Proof.
  intros H. apply isLowerHex_cases in H. simpl in H.
  repeat (destruct H as [<- | H];
          [eexists; split; [vm_compute; reflexivity | split; [lia | reflexivity]] |]).
  destruct H.
Qed.

Lemma hexDigit_lower v : 0 <= v < 16 -> isLowerHex (hexDigit v) = true.
Proof.
  intros H.
  assert (C : v = 0 \/ v = 1 \/ v = 2 \/ v = 3 \/ v = 4 \/ v = 5 \/ v = 6 \/ v = 7
              \/ v = 8 \/ v = 9 \/ v = 10 \/ v = 11 \/ v = 12 \/ v = 13 \/ v = 14
              \/ v = 15) by lia.
  repeat (destruct C as [-> | C]; [reflexivity |]). subst. reflexivity.
Qed.

Lemma hexVal_hexDigit v : 0 <= v < 16 -> hexVal (hexDigit v) = Some v.
Proof.
  intros H.
  assert (C : v = 0 \/ v = 1 \/ v = 2 \/ v = 3 \/ v = 4 \/ v = 5 \/ v = 6 \/ v = 7
              \/ v = 8 \/ v = 9 \/ v = 10 \/ v = 11 \/ v = 12 \/ v = 13 \/ v = 14
              \/ v = 15) by lia.
  repeat (destruct C as [-> | C]; [reflexivity |]). subst. reflexivity.
Qed.

(** Bounded quantification over bytes, by enumeration. *)
Lemma forall_byte (P : Z -> bool) :
  forallb P (map Z.of_nat (seq 0 256)) = true ->
  forall k, 0 <= k <= 255 -> P k = true.
Proof.
  intros H k Hk. rewrite forallb_forall in H. apply H.
  apply in_map_iff. exists (Z.to_nat k). split; [lia |].
  apply in_seq. lia.
Qed.

(** The local [to] prints a byte over 255 as its two hexadecimal digits. *)
Lemma to_byte k : 0 <= k <= 255 -> to (ofZ k / ofZ 255)%Qc = hex2 k.
Proof.
  intros H.
  pose proof (forall_byte
    (fun k => String.eqb (to (ofZ k / ofZ 255)%Qc) (hex2 k))) as E.
  apply String.eqb_eq. apply E; [| exact H].
  vm_compute. reflexivity.
Qed.

Lemma byte_of_digits v1 v2 :
  0 <= v1 < 16 -> 0 <= v2 < 16 ->
  hex2 (16 * v1 + v2) = String (hexDigit v1) (String (hexDigit v2) EmptyString).
Proof.
  intros H1 H2. unfold hex2.
  replace ((16 * v1 + v2) / 16) with v1 by (apply Z.div_unique with (r := v2); lia).
  replace ((16 * v1 + v2) mod 16) with v2 by (apply Z.mod_unique with (q := v1); lia).
  reflexivity.
Qed.

(** The three bytes of a 24-bit number. *)
Lemma bytes_of_rgb r g b :
  0 <= r <= 255 -> 0 <= g <= 255 -> 0 <= b <= 255 ->
  let n := toInt32 (Some (65536 * r + 256 * g + b)) in
  Z.land (Z.shiftr n 16) 255 = r /\ Z.land (Z.shiftr n 8) 255 = g /\ Z.land n 255 = b.
Proof.
  intros Hr Hg Hb n.
  assert (En : n = 65536 * r + 256 * g + b).
  { unfold n, toInt32.
    rewrite Z.mod_small by lia. lia. }
  rewrite En. change 255 with (Z.ones 8). rewrite !Z.land_ones by lia.
  rewrite !Z.shiftr_div_pow2 by lia.
  change (2 ^ 16) with 65536. change (2 ^ 8) with 256.
  repeat split.
  - replace ((65536 * r + 256 * g + b) / 65536) with r
      by (apply Z.div_unique with (r := 256 * g + b); lia).
    apply Z.mod_small; lia.
  - replace ((65536 * r + 256 * g + b) / 256) with (256 * r + g)
      by (apply Z.div_unique with (r := b); lia).
    symmetry; apply Z.mod_unique with (q := r); lia.
  - symmetry; apply Z.mod_unique with (q := 256 * r + g); lia.
Qed.

Lemma hexDigits_cons c rest acc v :
  hexVal c = Some v ->
  hexDigits (String c rest) acc = hexDigits rest (Some (16 * default 0 acc + v)).
Proof. intros H. cbn [hexDigits]. rewrite H. reflexivity. Qed.

(** Reading a colour string: its digit pairs are the three bytes. *)
Lemma hexToRgb01_digits c1 c2 c3 c4 c5 c6 v1 v2 v3 v4 v5 v6 :
  isLowerHex c1 = true ->
  hexVal c1 = Some v1 -> hexVal c2 = Some v2 -> hexVal c3 = Some v3 ->
  hexVal c4 = Some v4 -> hexVal c5 = Some v5 -> hexVal c6 = Some v6 ->
  isLowerHex c2 = true ->
  0 <= v1 < 16 -> 0 <= v2 < 16 -> 0 <= v3 < 16 ->
  0 <= v4 < 16 -> 0 <= v5 < 16 -> 0 <= v6 < 16 ->
  hexToRgb01
    (String "#" (String c1 (String c2 (String c3 (String c4 (String c5 (String c6 EmptyString)))))))
  = ((ofZ (16 * v1 + v2) / ofZ 255)%Qc,
     (ofZ (16 * v3 + v4) / ofZ 255)%Qc,
     (ofZ (16 * v5 + v6) / ofZ 255)%Qc).
Proof.
  intros L1 E1 E2 E3 E4 E5 E6 L2 B1 B2 B3 B4 B5 B6.
  assert (P : parseInt16
                (String c1 (String c2 (String c3 (String c4 (String c5 (String c6 EmptyString))))))
              = Some (65536 * (16 * v1 + v2) + 256 * (16 * v3 + v4) + (16 * v5 + v6))).
  { assert (X2 : (Ascii.eqb c2 "x" || Ascii.eqb c2 "X")%char = false).
    { apply isLowerHex_cases in L2. simpl in L2.
      repeat (destruct L2 as [<- | L2]; [reflexivity |]). destruct L2. }
    apply isLowerHex_cases in L1. simpl in L1.
    repeat (destruct L1 as [<- | L1];
      [ unfold parseInt16; simpl skipSpaces; cbv beta iota; unfold strip0x;
        try rewrite X2;
        rewrite (hexDigits_cons _ _ _ v1 E1), (hexDigits_cons _ _ _ v2 E2),
          (hexDigits_cons _ _ _ v3 E3), (hexDigits_cons _ _ _ v4 E4),
          (hexDigits_cons _ _ _ v5 E5), (hexDigits_cons _ _ _ v6 E6);
        simpl; f_equal; lia |]).
    destruct L1. }
  unfold hexToRgb01. cbn [removeFirstHash Ascii.eqb Bool.eqb].
  cbn [String.length Nat.eqb]. rewrite P.
  destruct (bytes_of_rgb (16 * v1 + v2) (16 * v3 + v4) (16 * v5 + v6))
    as (R & G & B); [lia | lia | lia |].
  cbv zeta in R, G, B. rewrite R, G, B. reflexivity.
Qed.

(** C10 — the hex/RGB conversions of the colour editor form a round trip:
    every string made of [#] and six lower-case hexadecimal digits is
    recovered by [rgb01ToHex] after [hexToRgb01], and every triple of
    multiples of 1/255 in [0,1] is recovered by [hexToRgb01] after
    [rgb01ToHex]. *)
Theorem C10_hex_rgb_round_trip (h : string) (r g b : Z) :
  isHexColor h = true ->
  0 <= r <= 255 -> 0 <= g <= 255 -> 0 <= b <= 255 ->
  rgb01ToHex (hexToRgb01 h) = h
  /\ hexToRgb01 (rgb01ToHex ((ofZ r / ofZ 255)%Qc, (ofZ g / ofZ 255)%Qc, (ofZ b / ofZ 255)%Qc))
     = ((ofZ r / ofZ 255)%Qc, (ofZ g / ofZ 255)%Qc, (ofZ b / ofZ 255)%Qc).
Proof.
  intros Hh Hr Hg Hb. split.
  - destruct h as [| c0 [| c1 [| c2 [| c3 [| c4 [| c5 [| c6 [| ? ?]]]]]]]];
      try discriminate Hh.
    + destruct c0 as [[] [] [] [] [] [] [] []]; discriminate Hh.
    + destruct c0 as [[] [] [] [] [] [] [] []]; discriminate Hh.
    + destruct c0 as [[] [] [] [] [] [] [] []]; discriminate Hh.
    + destruct c0 as [[] [] [] [] [] [] [] []]; discriminate Hh.
    + destruct c0 as [[] [] [] [] [] [] [] []]; discriminate Hh.
    + destruct c0 as [[] [] [] [] [] [] [] []]; discriminate Hh.
    + destruct c0 as [[] [] [] [] [] [] [] []]; try discriminate Hh.
      cbn [isHexColor] in Hh.
      repeat (apply andb_prop in Hh; destruct Hh as [Hh ?]).
      destruct (lowerHex_val c1) as (v1 & E1 & B1 & D1); [assumption |].
      destruct (lowerHex_val c2) as (v2 & E2 & B2 & D2); [assumption |].
      destruct (lowerHex_val c3) as (v3 & E3 & B3 & D3); [assumption |].
      destruct (lowerHex_val c4) as (v4 & E4 & B4 & D4); [assumption |].
      destruct (lowerHex_val c5) as (v5 & E5 & B5 & D5); [assumption |].
      destruct (lowerHex_val c6) as (v6 & E6 & B6 & D6); [assumption |].
      rewrite (hexToRgb01_digits c1 c2 c3 c4 c5 c6 v1 v2 v3 v4 v5 v6) by assumption.
      unfold rgb01ToHex.
      rewrite !to_byte by lia. rewrite !byte_of_digits by lia.
      rewrite D1, D2, D3, D4, D5, D6. cbv [String.append]. reflexivity.
    + destruct c0 as [[] [] [] [] [] [] [] []]; discriminate Hh.
  - unfold rgb01ToHex. rewrite !to_byte by lia. unfold hex2.
    cbv [String.append].
    assert (Q : forall k, 0 <= k <= 255 -> 0 <= k / 16 < 16 /\ 0 <= k mod 16 < 16).
    { intros k Hk. split.
      - split; [apply Z.div_pos; lia | apply Z.div_lt_upper_bound; lia].
      - apply Z.mod_pos_bound; lia. }
    destruct (Q r Hr) as [R1 R2]. destruct (Q g Hg) as [G1 G2].
    destruct (Q b Hb) as [B1 B2].
    rewrite (hexToRgb01_digits _ _ _ _ _ _ (r / 16) (r mod 16) (g / 16) (g mod 16)
               (b / 16) (b mod 16));
      try (apply hexVal_hexDigit; assumption);
      try (apply hexDigit_lower; assumption); try assumption.
    rewrite <- !Z.div_mod by lia. reflexivity.
Qed.

Lemma C10_witness :
  rgb01ToHex (hexToRgb01 "#ffcc00") = "#ffcc00"%string
  /\ hexToRgb01 (rgb01ToHex ((ofZ 255 / ofZ 255)%Qc, (ofZ 204 / ofZ 255)%Qc, (ofZ 0 / ofZ 255)%Qc))
     = ((ofZ 255 / ofZ 255)%Qc, (ofZ 204 / ofZ 255)%Qc, (ofZ 0 / ofZ 255)%Qc).
Proof.
  apply (C10_hex_rgb_round_trip "#ffcc00" 255 204 0); [reflexivity | lia | lia | lia].
Defined.

End ColorFacts.

(** ** Snapping *)

Module SnapFacts.
Import Parser Snap NumFacts.
Local Open Scope Qc_scope.




















End SnapFacts.

(** ** The parser *)

Module RegexFacts.
Import Regex.

Lemma starLoop_shrinks {R}
      (body : string -> caps -> (string -> caps -> option R) -> option R) g k fuel :
  (forall s cs k' x,
      body s cs k' = Some x ->
      exists s' cs', k' s' cs' = Some x /\ (String.length s' <= String.length s)%nat) ->
  forall s cs x,
    starLoop body g k fuel s cs = Some x ->
    exists s' cs', k s' cs' = Some x /\ (String.length s' <= String.length s)%nat.
Proof.
  intros IH. induction fuel as [| f IHf]; intros s cs x H; cbn [starLoop] in H.
  - eauto.
  - assert (M : forall y,
              body s cs
                   (fun s1 cs1 =>
                      if (String.length s1 <? String.length s)%nat
                      then starLoop body g k f s1 cs1
                      else None) = Some y ->
              exists s' cs', k s' cs' = Some y
                             /\ (String.length s' <= String.length s)%nat).
    { intros y Hy. apply IH in Hy as (s1 & cs1 & Hy & L1).
      destruct (String.length s1 <? String.length s)%nat; [| discriminate].
      apply IHf in Hy as (s2 & cs2 & Hy & L2).
      exists s2, cs2. split; [exact Hy | lia]. }
    cbv zeta in H. destruct g.
    + match type of H with
      | match ?m with _ => _ end = _ =>
          pose proof (M x) as Mx; destruct m as [y |]
      end.
      * injection H as ->. apply Mx. reflexivity.
      * eauto.
    + destruct (k s cs) as [y |] eqn:E.
      * injection H as ->. eauto.
      * apply M. exact H.
Qed.

(** A successful run hands its continuation a suffix no longer than the
    input. *)
Lemma run_shrinks {R} ci (r : re) :
  forall (s : string) (cs : caps) (k : string -> caps -> option R) (x : R),
    run ci r s cs k = Some x ->
    exists s' cs', k s' cs' = Some x /\ (String.length s' <= String.length s)%nat.
Proof.
  induction r as [| c | a IHa b IHb | g body IH | body IH | i body IH |];
    intros s cs k x H; cbn [run] in H.
  - eauto.
  - destruct s as [| a rest]; [discriminate |].
    destruct (clsMatch ci c a); [| discriminate].
    exists rest, cs. split; [exact H | cbn; lia].
  - apply IHa in H as (s1 & cs1 & H & L1).
    apply IHb in H as (s2 & cs2 & H & L2).
    exists s2, cs2. split; [exact H | lia].
  - eapply starLoop_shrinks; [| exact H]. intros. eapply IH. eassumption.
  - destruct (run ci body s cs k) as [y |] eqn:E.
    + injection H as ->. apply IH in E. exact E.
    + eauto.
  - apply IH in H as (s1 & cs1 & H & L1). eauto.
  - destruct s as [| a rest]; [eauto |].
    destruct (isLineTerminator a); [eauto | discriminate].
Qed.

Lemma run_progress {R} ci (r : re) :
  consuming r = true ->
  forall (s : string) (cs : caps) (k : string -> caps -> option R) (x : R),
    run ci r s cs k = Some x ->
    exists s' cs', k s' cs' = Some x /\ (String.length s' < String.length s)%nat.
Proof.
  induction r as [| c | a IHa b IHb | g body IH | body IH | i body IH |];
    intros C s cs k x H; cbn [consuming] in C; try discriminate; cbn [run] in H.
  - destruct s as [| a rest]; [discriminate |].
    destruct (clsMatch ci c a); [| discriminate].
    exists rest, cs. split; [exact H | cbn; lia].
  - destruct (consuming a) eqn:Ca.
    + apply IHa in H as (s1 & cs1 & H & L1); [| reflexivity].
      apply run_shrinks in H as (s2 & cs2 & H & L2).
      exists s2, cs2. split; [exact H | lia].
    + apply run_shrinks in H as (s1 & cs1 & H & L1).
      apply IHb in H as (s2 & cs2 & H & L2); [| exact C].
      exists s2, cs2. split; [exact H | lia].
  - apply IH in H as (s1 & cs1 & H & L1); [| exact C]. eauto.
Qed.

Lemma matchAt_progress ci r s rest cs :
  consuming r = true -> matchAt ci r s = Some (rest, cs) ->
  (String.length rest < String.length s)%nat.
Proof.
  intros C H. unfold matchAt in H.
  apply run_progress in H as (s' & cs' & H & L); [| exact C].
  injection H as -> ->. exact L.
Qed.

Lemma search_progress ci r s rest cs :
  consuming r = true -> search ci r s = Some (rest, cs) ->
  (String.length rest < String.length s)%nat.
Proof.
  intros C. induction s as [| a s IH]; cbn [search]; intros H.
  - destruct (matchAt ci r EmptyString) as [[rest' cs'] |] eqn:E; [| discriminate].
    apply matchAt_progress in E; [| exact C]. cbn in E. lia.
  - destruct (matchAt ci r (String a s)) as [[rest' cs'] |] eqn:E.
    + injection H as -> ->. eapply matchAt_progress; eauto.
    + apply IH in H. cbn. lia.
Qed.

(** The loop over the matches ends: beyond the length of the input, more
    fuel changes nothing. *)
Lemma execAll_fuel ci r :
  consuming r = true ->
  forall fuel s, (String.length s <= fuel)%nat ->
                 execAll (S fuel) ci r s = execAll fuel ci r s.
Proof.
  intros C. induction fuel as [| f IH]; intros s L.
  - cbn [execAll]. destruct (search ci r s) as [[rest cs] |] eqn:E; [| reflexivity].
    apply search_progress in E; [| exact C]. lia.
  - change (execAll (S (S f)) ci r s)
      with (match search ci r s with
            | None => []
            | Some (rest, cs) => cs :: execAll (S f) ci r rest
            end).
    change (execAll (S f) ci r s)
      with (match search ci r s with
            | None => []
            | Some (rest, cs) => cs :: execAll f ci r rest
            end).
    destruct (search ci r s) as [[rest cs] |] eqn:E; [| reflexivity].
    apply search_progress in E; [| exact C].
    rewrite IH by lia. reflexivity.
Qed.

Lemma execAll_enough ci r s fuel :
  consuming r = true -> (String.length s <= fuel)%nat ->
  execAll fuel ci r s = execAll (String.length s) ci r s.
Proof.
  intros C L. induction L as [| m L IH]; [reflexivity |].
  rewrite execAll_fuel by assumption. exact IH.
Qed.

Lemma removeAll_shrinks ci r fuel s :
  (String.length (removeAll fuel ci r s) <= String.length s)%nat.
Proof.
  revert s. induction fuel as [| f IH]; intros s; cbn [removeAll]; [lia |].
  destruct s as [| c rest]; [cbn; lia |].
  destruct (matchAt ci r (String c rest)) as [[s1 cs] |].
  - destruct (String.length s1 <? String.length (String c rest))%nat eqn:E.
    + apply Nat.ltb_lt in E. specialize (IH s1). lia.
    + specialize (IH rest). cbn [String.length] in *. lia.
  - specialize (IH rest). cbn [String.length] in *. lia.
Qed.

Lemma removeAll_fuel ci r :
  forall fuel s, (String.length s <= fuel)%nat ->
                 removeAll (S fuel) ci r s = removeAll fuel ci r s.
Proof.
  induction fuel as [| f IH]; intros s L.
  - destruct s; [reflexivity | cbn in L; lia].
  - change (removeAll (S (S f)) ci r s)
      with (match s with
            | EmptyString => EmptyString
            | String c rest =>
                match matchAt ci r s with
                | Some (s1, _) =>
                    if (String.length s1 <? String.length s)%nat
                    then removeAll (S f) ci r s1
                    else String c (removeAll (S f) ci r rest)
                | None => String c (removeAll (S f) ci r rest)
                end
            end).
    change (removeAll (S f) ci r s)
      with (match s with
            | EmptyString => EmptyString
            | String c rest =>
                match matchAt ci r s with
                | Some (s1, _) =>
                    if (String.length s1 <? String.length s)%nat
                    then removeAll f ci r s1
                    else String c (removeAll f ci r rest)
                | None => String c (removeAll f ci r rest)
                end
            end).
    destruct s as [| c rest]; [reflexivity |]. cbn [String.length] in L.
    destruct (matchAt ci r (String c rest)) as [[s1 cs] |].
    + destruct (String.length s1 <? String.length (String c rest))%nat eqn:E.
      * apply Nat.ltb_lt in E. cbn [String.length] in E. apply IH. lia.
      * rewrite IH by lia. reflexivity.
    + rewrite IH by lia. reflexivity.
Qed.

Lemma removeAll_enough ci r s fuel :
  (String.length s <= fuel)%nat ->
  removeAll fuel ci r s = removeAll (String.length s) ci r s.
Proof.
  intros L. induction L as [| m L IH]; [reflexivity |].
  rewrite removeAll_fuel by assumption. exact IH.
Qed.

End RegexFacts.

Module ParserFacts.
Import Regex RegexFacts Parser Samples.

Lemma brickRe_consuming : consuming brickRe = true.
Proof. reflexivity. Qed.

Lemma stripScadComments_shrinks text :
  (String.length (stripScadComments text) <= String.length text)%nat.
Proof.
  unfold stripScadComments.
  pose proof (removeAll_shrinks false blockCommentRe (String.length text) text) as H1.
  pose proof (removeAll_shrinks false lineCommentRe
                (String.length (removeAll (String.length text) false blockCommentRe text))
                (removeAll (String.length text) false blockCommentRe text)) as H2.
  cbv zeta. lia.
Qed.

(** The loop of [parseBrickDSL] ends on every text: the length of the text
    is fuel enough, and more fuel yields the same matches. *)
Lemma statements_fuel_enough text fuel :
  (String.length text <= fuel)%nat ->
  statementsFuel fuel text = statements text.
Proof.
  intros L. unfold statements, statementsFuel.
  pose proof (stripScadComments_shrinks text) as S.
  rewrite (execAll_enough false brickRe (stripScadComments text) fuel)
    by (try apply brickRe_consuming; lia).
  rewrite (execAll_enough false brickRe (stripScadComments text) (String.length text))
    by (try apply brickRe_consuming; lia).
  reflexivity.
Qed.

(** Every brick of the result carries a kind that passed the test
    [kind in BRICK_DIMS]. *)
Lemma bricksOf_kinds uid v ms :
  forall n b, In b (bricksOf uid v n ms) -> kindInBrickDims v (kind b) = true.
Proof.
  induction ms as [| cs rest IH]; intros n b H; cbn [bricksOf] in H; [destruct H |].
  destruct (kindInBrickDims v (trim (default EmptyString (getCap 1 cs)))) eqn:E.
  - destruct H as [<- | H]; [| eapply IH; exact H].
    unfold brickOf.
    destruct (position v _) as [[px py] pz]. destruct (rotation _) as [[rx ry] rz].
    exact E.
  - eapply IH; exact H.
Qed.

(** A statement whose kind fails the test yields no brick. *)
Lemma bricksOf_skips uid v n cs rest :
  kindInBrickDims v (trim (default EmptyString (getCap 1 cs))) = false ->
  bricksOf uid v n (cs :: rest) = bricksOf uid v n rest.
Proof. intros H. cbn [bricksOf]. rewrite H. reflexivity. Qed.

(** A statement without any of the fields yields the defaults: origin, no
    rotation, the default colour. *)
Lemma brickOf_defaults v ident kind args :
  getNum args "xMm" = None -> getNum args "xStud" = None ->
  getVec3 args "rot" = None -> getNum args "rotY" = None ->
  getVec3 args "color" = None ->
  brickOf v ident kind args
  = mkBrick ident kind 0%Qc 0%Qc 0%Qc 0%Qc 0%Qc 0%Qc defaultColor.
Proof.
  intros H1 H2 H3 H4 H5. unfold brickOf, position, rotation, colorOf.
  rewrite H1, H2, H3, H4, H5. reflexivity.
Qed.

Example parse_mixedText uid :
  map (fun b => (kind b, (xMm b, yMm b, zMm b), (rotX b, rotY b, rotZ b), color b))
      (parseBrickDSL uid RevB 0 mixedText)
  = [ ("2x4"%string, (0%Qc, 0%Qc, 0%Qc), (0%Qc, 0%Qc, 0%Qc),
       (ofDec 85 100, ofDec 1 10, ofDec 1 10));
      ("1x1"%string, (ofDec 102 10, ofDec 96 10, ofDec 67 10), (0%Qc, ofZ 15, 0%Qc),
       (ofDec 2 10, ofDec 9 10, 1%Qc));
      ("1x2"%string, (0%Qc, 0%Qc, 0%Qc), (0%Qc, ofZ 90, 0%Qc), defaultColor) ].
Proof. by_eval. Qed.

(** C3 — evaluation at the failing input: a statement whose kind is a
    property name of [Object.prototype] passes the test
    [kind in BRICK_DIMS] and yields a part, although the name is not in
    the static catalog. *)
Theorem C3_prototype_kind_not_skipped (uid : nat -> string) (v : revision) :
  inCatalog v "toString" = false
  /\ map kind (parseBrickDSL uid v 0 prototypeStatement) = ["toString"%string].
Proof. split; destruct v; vm_compute; reflexivity. Qed.

(** C5 — a full explicit triple (xMm, yMm, zMm) is the position; failing
    that, a full grid triple (xStud, yStud, zLevel) is multiplied by the
    stud pitch on the two grid axes and by the brick height on the level
    axis; failing both, the position is the origin.  The statement
    [xStud=2, yStud=0, zLevel=0] parses to position (16, 0, 0). *)
Theorem C5_position_encodings (uid : nat -> string) (v : revision) (args : string) :
  (forall x y z,
      getNum args "xMm" = Some x -> getNum args "yMm" = Some y ->
      getNum args "zMm" = Some z ->
      position v args = (x, y, z))
  /\ (forall xs ys zl,
         getNum args "xMm" = None \/ getNum args "yMm" = None
         \/ getNum args "zMm" = None ->
         getNum args "xStud" = Some xs -> getNum args "yStud" = Some ys ->
         getNum args "zLevel" = Some zl ->
         position v args
         = match v with
           | RevA => ((xs * ofZ 8)%Qc, (ys * ofZ 8)%Qc, (zl * ofDec 96 10)%Qc)
           | RevB => ((xs * ofZ 8)%Qc, (zl * ofDec 96 10)%Qc, (ys * ofZ 8)%Qc)
           end)
  /\ (getNum args "xMm" = None \/ getNum args "yMm" = None
      \/ getNum args "zMm" = None ->
      getNum args "xStud" = None \/ getNum args "yStud" = None
      \/ getNum args "zLevel" = None ->
      position v args = (0%Qc, 0%Qc, 0%Qc))
  /\ map (fun b => (xMm b, yMm b, zMm b)) (parseBrickDSL uid v 0 gridStatement)
     = [(ofZ 16, 0%Qc, 0%Qc)].
Proof.
  repeat split.
  - intros x y z Hx Hy Hz. unfold position. rewrite Hx, Hy, Hz. reflexivity.
  - intros xs ys zl Hmm Hxs Hys Hzl. unfold position.
    rewrite Hxs, Hys, Hzl.
    destruct Hmm as [-> | [-> | ->]];
      repeat match goal with
             | |- context [match getNum args ?n with _ => _ end] =>
                 destruct (getNum args n)
             end; destruct v; reflexivity.
  - intros Hmm Hst. unfold position.
    destruct Hmm as [-> | [-> | ->]]; destruct Hst as [-> | [-> | ->]];
      repeat match goal with
             | |- context [match getNum args ?n with _ => _ end] =>
                 destruct (getNum args n)
             end; reflexivity.
  - destruct v; by_eval.
Qed.

Lemma C5_witness :
  position RevB " xStud=2, yStud=0, zLevel=0" = (ofZ 2 * ofZ 8, ofZ 0 * ofDec 96 10, ofZ 0 * ofZ 8)%Qc
  /\ position RevA " xMm=1.5, yMm=-2, zMm=.25" = (ofDec 15 10, ofZ (-2), ofDec 25 100)
  /\ position RevA " xStud=2, yStud=1, xMm=1.5, zMm=4" = (0%Qc, 0%Qc, 0%Qc).
Proof.
  split; [| split].
  - apply (proj1 (proj2 (C5_position_encodings uid0 RevB " xStud=2, yStud=0, zLevel=0"))
             (ofZ 2) (ofZ 0) (ofZ 0)).
    + left. vm_compute. reflexivity.
    + by_eval.
    + by_eval.
    + by_eval.
  - apply (proj1 (C5_position_encodings uid0 RevA " xMm=1.5, yMm=-2, zMm=.25")); by_eval.
  - apply (proj1 (proj2 (proj2
             (C5_position_encodings uid0 RevA " xStud=2, yStud=1, xMm=1.5, zMm=4")))).
    + right. left. vm_compute. reflexivity.
    + right. right. vm_compute. reflexivity.
Defined.

End ParserFacts.

(** ** The geometry cache *)

Module CacheFacts.
Import Cache.

Section WithPrinter.
Variable numberToString : num -> string.
Variable v : revision.

Lemma invariant_empty : invariant empty.
Proof.
  split; cbn; intros *; try rewrite lookup_nil; try rewrite lookup_empty; congruence.
Qed.

(** A call that finds neither a geometry nor a promise creates a promise and
    enters it into the in-flight map. *)
Lemma call_fresh kind p st :
  let key := geomKey numberToString kind p in
  geomCache st !! key = None -> geomPromise st !! key = None ->
  ∃ ps cs,
    getBrickGeometry numberToString v kind p st
    = (Awaits (length (promises st)),
       mkCache (geomCache st) (<[key := length (promises st)]> (geomPromise st))
               (promises st ++ [mkPromise key ps]) (nextGeo st) cs)
    ∧ ∀ geo, ps ≠ Fulfilled geo.
Proof.
  intros key Hc Hp. unfold getBrickGeometry. fold key. rewrite Hc, Hp.
  destruct (Parser.inCatalog v kind); eexists _, _; (split; [reflexivity | congruence]).
Qed.

Lemma call_invariant kind p st :
  invariant st -> invariant (snd (getBrickGeometry numberToString v kind p st)).
Proof.
  intros I. set (key := geomKey numberToString kind p).
  destruct (geomCache st !! key) as [geo |] eqn:Hc.
  { unfold getBrickGeometry. fold key. rewrite Hc. exact I. }
  destruct (geomPromise st !! key) as [pid |] eqn:Hp.
  { unfold getBrickGeometry. fold key. rewrite Hc, Hp. exact I. }
  destruct (call_fresh kind p st Hc Hp) as (ps & cs & -> & Hps). fold key. cbn [snd].
  assert (Fresh : ∀ pid pr, promises st !! pid = Some pr -> p_key pr ≠ key).
  { intros pid pr H E. destruct (inv_tracked st I pid pr H) as [C | C];
      rewrite E in C; congruence. }
  split; cbn [geomCache geomPromise promises].
  - intros pid pr H. apply lookup_snoc_Some in H as [[L H] | [-> <-]].
    + destruct (inv_tracked st I pid pr H) as [C | C]; [left; exact C | right].
      rewrite lookup_insert_ne; [exact C |]. intros E. exact (Fresh pid pr H (eq_sym E)).
    + right. cbn. apply lookup_insert_eq.
  - intros pid k geo H. apply lookup_snoc_Some in H as [[L H] | [-> E]].
    + eapply inv_fulfilled; eauto.
    + injection E as -> E. exfalso. exact (Hps geo E).
  - intros pid1 pid2 pr1 pr2 H1 H2 E.
    apply lookup_snoc_Some in H1 as [[L1 H1] | [-> <-]];
      apply lookup_snoc_Some in H2 as [[L2 H2] | [-> <-]].
    + eapply inv_unique; eauto.
    + exfalso. exact (Fresh pid1 pr1 H1 E).
    + exfalso. exact (Fresh pid2 pr2 H2 (eq_sym E)).
    + reflexivity.
  - intros k geo pid pr C H E.
    apply lookup_snoc_Some in H as [[L H] | [-> <-]].
    + eapply inv_cached; eauto.
    + cbn in E. subst k. congruence.
  - intros k pid H. destruct (decide (key = k)) as [<- | N].
    + rewrite lookup_insert_eq in H. injection H as <-.
      exists ps. apply lookup_snoc_Some. right. split; reflexivity.
    + rewrite lookup_insert_ne in H by exact N.
      destruct (inv_inflight st I k pid H) as [ps' H'].
      exists ps'. rewrite lookup_app_l; [exact H' | eapply lookup_lt_Some; exact H'].
Qed.

Lemma compileDone_invariant pid o st :
  invariant st -> invariant (compileDone pid o st).
Proof.
  intros I. unfold compileDone.
  destruct (promises st !! pid) as [[key ps] |] eqn:Hpid; [| exact I].
  destruct ps; try exact I.
  pose proof (lookup_lt_Some _ _ _ Hpid) as Lpid.
  assert (Hc : geomCache st !! key = None).
  { destruct (geomCache st !! key) as [geo |] eqn:C; [| reflexivity].
    pose proof (inv_cached st I key geo pid _ C Hpid eq_refl) as F. discriminate F. }
  destruct o as [| d]; split; cbn [geomCache geomPromise promises].
  - intros pid' pr H. apply list_lookup_insert_Some in H as [(<- & <- & _) | (N & H)].
    + left. cbn. rewrite lookup_insert_eq. congruence.
    + destruct (decide (p_key pr = key)) as [E | E].
      * left. rewrite E, lookup_insert_eq. congruence.
      * rewrite lookup_insert_ne by congruence. rewrite lookup_delete_ne by congruence.
        eapply inv_tracked; eauto.
  - intros pid' k geo H. apply list_lookup_insert_Some in H as [(<- & E & _) | (N & H)].
    + injection E as -> ->. apply lookup_insert_eq.
    + destruct (decide (k = key)) as [-> | E].
      * exfalso. apply N. eapply (inv_unique st I); eauto.
      * rewrite lookup_insert_ne by congruence. eapply inv_fulfilled; eauto.
  - intros pid1 pid2 pr1 pr2 H1 H2 E.
    apply list_lookup_insert_Some in H1 as [(<- & <- & _) | (N1 & H1)];
      apply list_lookup_insert_Some in H2 as [(<- & <- & _) | (N2 & H2)].
    + reflexivity.
    + eapply (inv_unique st I); eauto.
    + eapply (inv_unique st I); eauto.
    + eapply (inv_unique st I); eauto.
  - intros k geo pid' pr C H E.
    apply list_lookup_insert_Some in H as [(<- & <- & _) | (N & H)].
    + cbn in E. subst k. rewrite lookup_insert_eq in C. injection C as ->. reflexivity.
    + destruct (decide (k = key)) as [-> | Ek].
      * exfalso. apply N. eapply (inv_unique st I); eauto.
      * rewrite lookup_insert_ne in C by congruence. eapply inv_cached; eauto.
  - intros k pid' H. destruct (decide (key = k)) as [<- | Nk].
    + rewrite lookup_delete_eq in H. discriminate H.
    + rewrite lookup_delete_ne in H by exact Nk.
      destruct (inv_inflight st I k pid' H) as [ps' H'].
      exists ps'. rewrite list_lookup_insert_ne; [exact H' |].
      intros <-. rewrite Hpid in H'. congruence.
  - intros pid' pr H. apply list_lookup_insert_Some in H as [(<- & <- & _) | (N & H)].
    + cbn. exact (inv_tracked st I pid _ Hpid).
    + eapply inv_tracked; eauto.
  - intros pid' k geo H. apply list_lookup_insert_Some in H as [(<- & E & _) | (N & H)].
    + discriminate E.
    + eapply inv_fulfilled; eauto.
  - intros pid1 pid2 pr1 pr2 H1 H2 E.
    apply list_lookup_insert_Some in H1 as [(<- & <- & _) | (N1 & H1)];
      apply list_lookup_insert_Some in H2 as [(<- & <- & _) | (N2 & H2)].
    + reflexivity.
    + eapply (inv_unique st I); eauto.
    + eapply (inv_unique st I); eauto.
    + eapply (inv_unique st I); eauto.
  - intros k geo pid' pr C H E.
    apply list_lookup_insert_Some in H as [(<- & <- & _) | (N & H)].
    + cbn in E. subst k. congruence.
    + eapply inv_cached; eauto.
  - intros k pid' H. destruct (inv_inflight st I k pid' H) as [ps' H'].
    destruct (decide (pid = pid')) as [<- | N].
    + rewrite Hpid in H'. injection H' as -> <-.
      eexists. apply list_lookup_insert_eq. exact Lpid.
    + exists ps'. rewrite list_lookup_insert_ne by exact N. exact H'.
Qed.

Lemma step_invariant st e : invariant st -> invariant (fst (step numberToString v st e)).
Proof.
  intros I. destruct e as [kind p | pid o]; cbn [step].
  - pose proof (call_invariant kind p st I) as H.
    destruct (getBrickGeometry numberToString v kind p st) as [a st']. exact H.
  - apply compileDone_invariant. exact I.
Qed.

(** An answer stays backed. *)
Lemma call_backed_mono kind p st ka :
  backed st ka -> backed (snd (getBrickGeometry numberToString v kind p st)) ka.
Proof.
  intros B. unfold getBrickGeometry.
  destruct (geomCache st !! _); [exact B |].
  destruct (geomPromise st !! _); [exact B |].
  destruct ka as [k [geo | pid]]; unfold backed in *; cbn [fst snd] in *.
  - destruct (Parser.inCatalog v kind); exact B.
  - destruct B as [ps B]. exists ps.
    destruct (Parser.inCatalog v kind); cbn [promises snd];
      (rewrite lookup_app_l; [exact B | eapply lookup_lt_Some; exact B]).
Qed.

Lemma compileDone_backed_mono pid o st ka :
  invariant st -> backed st ka -> backed (compileDone pid o st) ka.
Proof.
  intros I B. unfold compileDone.
  destruct (promises st !! pid) as [[key ps] |] eqn:Hpid; [| exact B].
  destruct ps; try exact B.
  pose proof (lookup_lt_Some _ _ _ Hpid) as Lpid.
  destruct ka as [k [geo | pid']]; unfold backed in *; cbn [fst snd] in *.
  - destruct o; cbn [geomCache]; [| exact B].
    destruct (decide (key = k)) as [-> | N].
    + pose proof (inv_cached st I k geo pid _ B Hpid eq_refl) as F. discriminate F.
    + rewrite lookup_insert_ne by exact N. exact B.
  - destruct B as [ps B].
    destruct (decide (pid = pid')) as [<- | N].
    + rewrite Hpid in B. injection B as -> <-.
      destruct o; cbn [promises]; eexists; apply list_lookup_insert_eq; exact Lpid.
    + exists ps. destruct o; cbn [promises];
        (rewrite list_lookup_insert_ne by exact N; exact B).
Qed.

Lemma call_backed kind p st :
  invariant st ->
  backed (snd (getBrickGeometry numberToString v kind p st))
         (geomKey numberToString kind p, fst (getBrickGeometry numberToString v kind p st)).
Proof.
  intros I. set (key := geomKey numberToString kind p).
  destruct (geomCache st !! key) as [geo |] eqn:Hc.
  { unfold getBrickGeometry. fold key. rewrite Hc. exact Hc. }
  destruct (geomPromise st !! key) as [pid |] eqn:Hp.
  { unfold getBrickGeometry. fold key. rewrite Hc, Hp.
    exact (inv_inflight st I key pid Hp). }
  destruct (call_fresh kind p st Hc Hp) as (ps & cs & -> & Hps). fold key.
  exists ps. cbn [fst snd promises]. apply lookup_snoc_Some. right. split; reflexivity.
Qed.

(** Along a history the invariant holds and every answer handed out stays
    backed. *)
Lemma run_invariant es :
  forall st, invariant st ->
    invariant (fst (run numberToString v st es))
    ∧ (∀ ka, backed st ka -> backed (fst (run numberToString v st es)) ka)
    ∧ (∀ ka, In ka (snd (run numberToString v st es)) ->
             backed (fst (run numberToString v st es)) ka).
Proof.
  induction es as [| e es IH]; intros st I; cbn [run].
  - split; [exact I | split; [auto | intros ka []]].
  - pose proof (step_invariant st e I) as I1.
    assert (M1 : ∀ ka, backed st ka -> backed (fst (step numberToString v st e)) ka).
    { intros ka B. destruct e as [kind p | pid o]; cbn [step].
      - pose proof (call_backed_mono kind p st ka B) as H.
        destruct (getBrickGeometry numberToString v kind p st). exact H.
      - apply compileDone_backed_mono; assumption. }
    assert (N1 : ∀ ka, In ka (snd (step numberToString v st e)) ->
                       backed (fst (step numberToString v st e)) ka).
    { intros ka H. destruct e as [kind p | pid o]; cbn [step] in *.
      - pose proof (call_backed kind p st I) as B.
        destruct (getBrickGeometry numberToString v kind p st) as [a st'].
        cbn [fst snd] in *. destruct H as [<- | []]. exact B.
      - destruct H. }
    destruct (step numberToString v st e) as [st1 a1]. cbn [fst snd] in *.
    destruct (IH st1 I1) as (I2 & M2 & N2).
    destruct (run numberToString v st1 es) as [st2 a2]. cbn [fst snd] in *.
    split; [exact I2 | split].
    + intros ka B. apply M2, M1, B.
    + intros ka H. apply in_app_or in H as [H | H]; [apply M2, N1, H | apply N2, H].
Qed.



(** C1 — evaluation at the failing input: when the compiler fails for the
    promise a call was given, the promise is rejected with the diagnostic;
    the maps are left as they were, so the in-flight map still holds that
    promise, and the next call with the same key returns it, rejected, and
    submits nothing to the compiler. *)
Theorem C1_failure_stays_in_flight (kind : string) (p : BrickGeomParams)
        (st st1 : t) (pid : nat) (key : string) (diag : string) :
  getBrickGeometry numberToString v kind p st = (Awaits pid, st1) ->
  promises st1 !! pid = Some (mkPromise key Pending) ->
  let st2 := compileDone pid (Failed diag) st1 in
  observe (Awaits pid) st2 = Rejected diag
  ∧ getBrickGeometry numberToString v kind p st2 = (Awaits pid, st2)
  ∧ compiles st2 = compiles st1.
Proof.
  intros H Hpid st2.
  assert (Maps : geomCache st1 !! geomKey numberToString kind p = None
                 ∧ geomPromise st1 !! geomKey numberToString kind p = Some pid).
  { unfold getBrickGeometry in H.
    destruct (geomCache st !! _) eqn:Hc; [discriminate |].
    destruct (geomPromise st !! _) eqn:Hp.
    - injection H as -> ->. split; assumption.
    - destruct (Parser.inCatalog v kind); injection H as <- <-;
        cbn [geomCache geomPromise]; (split; [exact Hc | apply lookup_insert_eq]). }
  destruct Maps as [Hc Hp].
  assert (E2 : st2 = mkCache (geomCache st1) (geomPromise st1)
                             (<[pid := mkPromise key (Rejected diag)]> (promises st1))
                             (nextGeo st1) (compiles st1)).
  { unfold st2, compileDone. rewrite Hpid. reflexivity. }
  split; [| split].
  - unfold observe. rewrite E2. cbn [promises].
    rewrite list_lookup_insert_eq by (eapply lookup_lt_Some; exact Hpid). reflexivity.
  - unfold getBrickGeometry. rewrite E2. cbn [geomCache geomPromise].
    rewrite Hc, Hp. reflexivity.
  - rewrite E2. reflexivity.
Qed.

End WithPrinter.

Lemma C1_witness :
  let key := geomKey Samples.showNum "2x4" Page.defaultGeom in
  let st1 := snd (getBrickGeometry Samples.showNum RevB "2x4" Page.defaultGeom empty) in
  let st2 := compileDone 0 (Failed "boom") st1 in
  observe (Awaits 0) st2 = Rejected "boom"
  ∧ getBrickGeometry Samples.showNum RevB "2x4" Page.defaultGeom st2 = (Awaits 0, st2)
  ∧ compiles st2 = compiles st1.
Proof.
  apply (C1_failure_stays_in_flight Samples.showNum RevB "2x4" Page.defaultGeom empty
           (snd (getBrickGeometry Samples.showNum RevB "2x4" Page.defaultGeom empty)) 0
           (geomKey Samples.showNum "2x4" Page.defaultGeom) "boom").
  - reflexivity.
  - reflexivity.
Defined.

End CacheFacts.

(** ** The page component *)

Module PageFacts.
Import Parser Snap Page.

Section WithParams.
Variable PI : num.
Variable uid : nat -> string.

Local Abbreviation rebuildProgressive := (rebuildProgressive PI).
Local Abbreviation syncEffect := (syncEffect PI).
Local Abbreviation renderPass := (renderPass PI uid).
Local Abbreviation settle := (settle PI uid).
Local Abbreviation handle := (handle PI uid).
Local Abbreviation handler := (handler PI).
Local Abbreviation init := (init PI uid).
Local Abbreviation reachable := (reachable PI uid).

(** *** What the effects leave alone *)

Lemma refresh_core s : core (refreshAllMaterials s) = core s.
Proof. reflexivity. Qed.

Lemma rebuildProgressive_core cur s : core (rebuildProgressive cur s) = core s.
Proof. reflexivity. Qed.

Lemma syncEffect_core cur s : core (syncEffect cur s) = core s.
Proof. unfold Page.syncEffect. destruct (brickMeshes s); reflexivity. Qed.

Lemma stepEffect_core cur s : core (stepEffect cur s) = core s.
Proof.
  unfold stepEffect. destruct (prevStep s <? d_step cur); [| reflexivity].
  cbn [selectedIndex set_prevStep].
  destruct (bool_decide (selectedIndex s = None)); reflexivity.
Qed.

Lemma core_fields s s' :
  core s = core s' ->
  scadInput s = scadInput s' /\ bricks s = bricks s' /\ bricksId s = bricksId s'
  /\ step s = step s' /\ geomId s = geomId s' /\ uidCount s = uidCount s'
  /\ rendered s = rendered s'.
Proof. unfold core. intros H. injection H. intros. repeat split; assumption. Qed.

Lemma core_listenerSnap s s' : core s = core s' -> listenerSnap s = listenerSnap s'.
Proof. unfold core. intros H. injection H. intros. assumption. Qed.

(** *** One render pass, field by field *)

Lemma runEffects_core old cur s : core (runEffects PI old cur s) = core s.
Proof.
  unfold Page.runEffects. cbv zeta.
  repeat match goal with
         | |- context [if ?b then _ else _] => destruct b
         end;
    rewrite ?stepEffect_core, ?syncEffect_core, ?rebuildProgressive_core; reflexivity.
Qed.

Lemma renderPass_fields s :
  scadInput (renderPass s) = scadInput s
  /\ geomId (renderPass s) = geomId s
  /\ rendered (renderPass s) = depsOf s
  /\ bricks (renderPass s)
     = (if textChanged s then parseBrickDSL uid RevB (uidCount s) (scadInput s)
        else bricks s)
  /\ bricksId (renderPass s) = (if textChanged s then S (bricksId s) else bricksId s)
  /\ step (renderPass s)
     = (if lenChanged s then Z.min (step s) (Z.of_nat (length (bricks s))) else step s).
Proof.
  unfold Page.renderPass. cbv zeta.
  pose proof (runEffects_core (rendered s) (depsOf s) (set_rendered (depsOf s) s)) as C.
  set (E := runEffects PI (rendered s) (depsOf s) (set_rendered (depsOf s) s)) in *.
  apply core_fields in C. destruct C as (C1 & C2 & C3 & C4 & C5 & C6 & C7).
  cbn [scadInput bricks bricksId step geomId uidCount rendered set_rendered] in *.
  destruct (textChanged s); destruct (lenChanged s);
    cbn [scadInput bricks bricksId step geomId uidCount rendered
         set_uidCount set_bricks set_step d_len depsOf];
    rewrite ?C1, ?C2, ?C3, ?C4, ?C5, ?C6, ?C7; repeat split; reflexivity.
Qed.

(** The refs after a pass are those the effects left. *)
Lemma renderPass_refs s :
  let E := runEffects PI (rendered s) (depsOf s) (set_rendered (depsOf s) s) in
  selectedIndex (renderPass s) = selectedIndex E
  /\ autoHighlightIdx (renderPass s) = autoHighlightIdx E
  /\ brickMeshes (renderPass s) = brickMeshes E
  /\ prevStep (renderPass s) = prevStep E
  /\ rebuild (renderPass s) = rebuild E
  /\ attached (renderPass s) = attached E.
Proof.
  unfold Page.renderPass. cbv zeta.
  destruct (textChanged s); destruct (lenChanged s); repeat split; reflexivity.
Qed.

(** Three passes always reach a state with nothing left to render. *)
Lemma renderPass3_stable s : stable (renderPass (renderPass (renderPass s))).
Proof.
  set (s1 := renderPass s). set (s2 := renderPass s1). set (s3 := renderPass s2).
  destruct (renderPass_fields s) as (T0 & G0 & R0 & _).
  destruct (renderPass_fields s1) as (T1 & G1 & R1 & B1 & I1 & _).
  destruct (renderPass_fields s2) as (T2 & G2 & R2 & B2 & I2 & S2).
  fold s1 in T0, G0, R0. fold s2 in T1, G1, R1, B1, I1. fold s3 in T2, G2, R2, B2, I2, S2.
  assert (C1 : textChanged s1 = false).
  { unfold textChanged. rewrite R0, T0. cbn [d_text depsOf].
    rewrite bool_decide_eq_true_2; reflexivity. }
  rewrite C1 in B1, I1.
  assert (C2 : textChanged s2 = false).
  { unfold textChanged. rewrite R1, T1. cbn [d_text depsOf].
    rewrite bool_decide_eq_true_2; reflexivity. }
  rewrite C2 in B2, I2.
  assert (L2 : lenChanged s2 = false).
  { unfold lenChanged. rewrite R1, B1. cbn [d_len depsOf].
    rewrite bool_decide_eq_true_2; reflexivity. }
  rewrite L2 in S2.
  unfold stable. rewrite R2. unfold depsOf. rewrite T2, G2, B2, I2, S2. reflexivity.
Qed.

Lemma settle_stable s : stable (settle 3 s).
Proof.
  cbn [Page.settle].
  repeat match goal with
         | |- context [bool_decide ?P] => destruct (bool_decide_reflect P)
         end; try assumption.
  apply renderPass3_stable.
Qed.

(** *** What the effects do to the refs *)

Lemma refresh_consistent s : consistent (refreshAllMaterials s).
Proof.
  intros i m H. unfold refreshAllMaterials in H.
  cbn [brickMeshes set_brickMeshes selectedIndex autoHighlightIdx] in *.
  rewrite list_lookup_imap in H.
  destruct (brickMeshes s !! i) as [m0 |]; [| discriminate].
  injection H as <-. reflexivity.
Qed.

Lemma refresh_length s :
  length (brickMeshes (refreshAllMaterials s)) = length (brickMeshes s).
Proof. unfold refreshAllMaterials. cbn. apply length_imap. Qed.

Lemma rebuildProgressive_refs cur s :
  let s' := rebuildProgressive cur s in
  selectedIndex s' = None /\ autoHighlightIdx s' = None
  /\ rebuild s' = Some (visibleCountOf (d_step cur) (length (bricks s)))
  /\ prevStep s' = prevStep s
  /\ length (brickMeshes s') = length (bricks s)
  /\ consistent s'.
Proof.
  cbv zeta. repeat split.
  - unfold Page.rebuildProgressive. cbn. rewrite !length_imap. reflexivity.
  - unfold Page.rebuildProgressive. cbv zeta.
    match goal with
    | |- consistent (set_rebuild _ (refreshAllMaterials ?x)) =>
        exact (refresh_consistent x)
    end.
Qed.

Lemma syncEffect_refs cur s :
  let s' := syncEffect cur s in
  selectedIndex s' = selectedIndex s /\ autoHighlightIdx s' = autoHighlightIdx s
  /\ rebuild s' = rebuild s /\ prevStep s' = prevStep s
  /\ length (brickMeshes s') = length (brickMeshes s)
  /\ (consistent s -> consistent s').
Proof.
  cbv zeta. unfold Page.syncEffect.
  destruct (brickMeshes s) as [| m0 rest] eqn:E.
  - rewrite E. repeat split. auto.
  - repeat split.
    + rewrite refresh_length. cbn [brickMeshes set_brickMeshes]. apply length_imap.
    + intros _. apply refresh_consistent.
Qed.

Lemma stepEffect_refs cur s :
  let s' := stepEffect cur s in
  selectedIndex s' = selectedIndex s
  /\ rebuild s' = rebuild s /\ prevStep s' = d_step cur
  /\ length (brickMeshes s') = length (brickMeshes s)
  /\ (consistent s -> consistent s')
  /\ (autoHighlightIdx s' = autoHighlightIdx s \/ selectedIndex s = None).
Proof.
  cbv zeta. unfold stepEffect.
  destruct (prevStep s <? d_step cur).
  - cbn [selectedIndex set_prevStep].
    destruct (bool_decide_reflect (selectedIndex s = None)) as [N | N].
    + repeat split.
      * unfold setAutoHighlight. rewrite refresh_length. reflexivity.
      * intros _. apply refresh_consistent.
      * right. exact N.
    + repeat split; auto.
  - repeat split; auto.
Qed.

(** The three effects together; [b1], [b2], [b3] say which of them run. *)
Lemma effects_chain (b1 b2 b3 : bool) cur s :
  let s1 := if b1 then rebuildProgressive cur s else s in
  let s2 := if b2 then syncEffect cur s1 else s1 in
  let s3 := if b3 then stepEffect cur s2 else s2 in
  (consistent s -> consistent s3)
  /\ ((selectedIndex s ≠ None -> autoHighlightIdx s = None) ->
      selectedIndex s3 ≠ None -> autoHighlightIdx s3 = None)
  /\ (if b1
      then length (brickMeshes s3) = length (bricks s)
           /\ rebuild s3 = Some (visibleCountOf (d_step cur) (length (bricks s)))
      else length (brickMeshes s3) = length (brickMeshes s)
           /\ rebuild s3 = rebuild s
           /\ (b3 = false -> selectedIndex s3 = selectedIndex s
                             /\ autoHighlightIdx s3 = autoHighlightIdx s))
  /\ prevStep s3 = (if b3 then d_step cur else prevStep s).
Proof.
  intros s1 s2 s3.
  assert (F1 : if b1 then selectedIndex s1 = None /\ autoHighlightIdx s1 = None
                          /\ rebuild s1 = Some (visibleCountOf (d_step cur) (length (bricks s)))
                          /\ prevStep s1 = prevStep s
                          /\ length (brickMeshes s1) = length (bricks s)
                          /\ consistent s1
               else s1 = s).
  { unfold s1. destruct b1; [apply rebuildProgressive_refs | reflexivity]. }
  assert (F2 : selectedIndex s2 = selectedIndex s1
               /\ autoHighlightIdx s2 = autoHighlightIdx s1
               /\ rebuild s2 = rebuild s1 /\ prevStep s2 = prevStep s1
               /\ length (brickMeshes s2) = length (brickMeshes s1)
               /\ (consistent s1 -> consistent s2)).
  { unfold s2. destruct b2; [apply syncEffect_refs | tauto]. }
  assert (F3 : selectedIndex s3 = selectedIndex s2
               /\ rebuild s3 = rebuild s2
               /\ prevStep s3 = (if b3 then d_step cur else prevStep s2)
               /\ length (brickMeshes s3) = length (brickMeshes s2)
               /\ (consistent s2 -> consistent s3)
               /\ (autoHighlightIdx s3 = autoHighlightIdx s2 \/ selectedIndex s2 = None)
               /\ (b3 = false -> autoHighlightIdx s3 = autoHighlightIdx s2)).
  { unfold s3. destruct b3.
    - pose proof (stepEffect_refs cur s2) as H. cbv zeta in H.
      destruct H as (H1 & H2 & H3 & H4 & H5 & H6). repeat split; auto. discriminate.
    - repeat split; auto. }
  clearbody s1 s2 s3.
  destruct F2 as (A2 & B2 & C2 & D2 & E2 & G2).
  destruct F3 as (A3 & C3 & D3 & E3 & G3 & H3 & I3).
  destruct b1.
  - destruct F1 as (A1 & B1 & C1 & D1 & E1 & G1).
    repeat split.
    + intros _. auto.
    + intros _ N. destruct H3 as [H3 | H3]; congruence.
    + congruence.
    + congruence.
    + destruct b3; congruence.
  - subst s1. repeat split.
    + auto.
    + intros X N. destruct H3 as [H3 | H3]; [| congruence].
      rewrite H3, B2. apply X. congruence.
    + congruence.
    + congruence.
    + congruence.
    + rewrite I3 by assumption. congruence.
    + destruct b3; congruence.
Qed.

(** A render pass keeps the invariant. *)
Lemma renderPass_inv s : pageInv s -> pageInv (renderPass s).
Proof.
  intros [J1 J2 J3 J4 J5 J6 J7].
  destruct (renderPass_fields s) as (T & G & R & B & I & S).
  destruct (renderPass_refs s) as (Rs & Ra & Rm & Rp & Rr & _). cbv zeta in *.
  unfold Page.runEffects in Rs, Ra, Rm, Rp, Rr. cbv zeta in *.
  match type of Rs with
  | _ = selectedIndex (if ?b3 then _ else if ?b2 then _ (if ?b1 then _ else ?s0) else _) =>
      pose proof (effects_chain b1 b2 b3 (depsOf s) s0) as C; cbv zeta in C;
      set (B1 := b1) in *; set (B2 := b2) in *; set (B3 := b3) in *
  end.
  destruct C as (Cc & Ce & Cr & Cp).
  rewrite <- Rs, <- Ra, <- Rm, <- Rp, <- Rr in *.
  cbn [d_len d_step d_geom d_kindsKey depsOf bricks brickMeshes rebuild selectedIndex
       autoHighlightIdx prevStep set_rendered] in *.
  assert (Cons : consistent (renderPass s)).
  { intros i m H. rewrite Rs, Ra. rewrite Rm in H. revert i m H.
    apply Cc. exact J2. }
  assert (Bdef : B1 = false ->
                 d_step (rendered s) = step s /\ d_len (rendered s) = length (bricks s)
                 /\ B3 = false).
  { unfold B1, B3. intros H.
    apply orb_false_elim in H as [H Hk]. apply orb_false_elim in H as [H Hl].
    apply orb_false_elim in H as [Hg Hs].
    apply negb_false_iff in Hs, Hl. apply bool_decide_eq_true in Hs, Hl.
    rewrite (proj2 (negb_false_iff _) (proj2 (bool_decide_eq_true _) Hs)).
    rewrite (proj2 (negb_false_iff _) (proj2 (bool_decide_eq_true _) Hl)).
    auto. }
  split.
  - rewrite R. cbn [d_len depsOf]. destruct B1.
    + tauto.
    + destruct (Bdef eq_refl) as (_ & El & _). destruct Cr as (Cr & _). congruence.
  - exact Cons.
  - apply Ce. exact J3.
  - rewrite R, S. cbn [d_len depsOf]. unfold lenChanged.
    destruct (bool_decide_reflect (d_len (rendered s) = length (bricks s))) as [E | N];
      cbn [negb]; [rewrite <- E; exact J4 | lia].
  - rewrite R, Cp. cbn [d_step depsOf]. destruct B3 eqn:E3; [reflexivity |].
    unfold B3 in E3. apply orb_false_elim in E3 as [Hs _].
    apply negb_false_iff in Hs. apply bool_decide_eq_true in Hs. congruence.
  - unfold renderedCount. rewrite R. cbn [d_len d_step depsOf]. intros Hsel Hreb.
    destruct B1.
    + destruct Cr as (_ & Cr). congruence.
    + destruct (Bdef eq_refl) as (Es & El & E3).
      destruct Cr as (_ & Cr & Cs). destruct (Cs E3) as (Cs1 & Cs2).
      rewrite Cs2, <- Es, <- El. apply J6; congruence.
  - unfold renderedCount. rewrite R. cbn [d_len d_step depsOf]. intros vc Hreb.
    destruct B1.
    + destruct Cr as (_ & Cr). congruence.
    + destruct (Bdef eq_refl) as (Es & El & E3).
      destruct Cr as (_ & Cr & _). rewrite <- Es, <- El. apply J7. congruence.
Qed.

Lemma settle_inv fuel s : pageInv s -> pageInv (settle fuel s).
Proof.
  revert s. induction fuel as [| f IH]; intros s J; cbn [Page.settle];
    destruct (bool_decide (rendered s = depsOf s)); try exact J.
  apply IH. apply renderPass_inv. exact J.
Qed.

(** *** The handlers *)

Lemma applySnap_emissive v o c mesh :
  emissive (applySnapToMesh PI v o c mesh) = emissive mesh.
Proof.
  unfold applySnapToMesh. destruct (negb (snapEnabled o)); [reflexivity |].
  destruct c; [reflexivity |]. destruct (position mesh) as [[x y] z]. reflexivity.
Qed.

(** Invariant and stability only look at these fields. *)
Lemma pageInv_ext s s' :
  brickMeshes s' = brickMeshes s -> selectedIndex s' = selectedIndex s ->
  autoHighlightIdx s' = autoHighlightIdx s -> step s' = step s ->
  prevStep s' = prevStep s -> rebuild s' = rebuild s -> rendered s' = rendered s ->
  pageInv s -> pageInv s'.
Proof.
  intros Em Es Ea Et Ep Er Ed [J1 J2 J3 J4 J5 J6 J7].
  split; unfold consistent, renderedCount in *; rewrite ?Em, ?Es, ?Ea, ?Et, ?Ep, ?Er, ?Ed;
    assumption.
Qed.

Lemma stable_len s : stable s -> d_len (rendered s) = length (bricks s).
Proof. intros H. rewrite H. reflexivity. Qed.

Lemma stable_step s : stable s -> d_step (rendered s) = step s.
Proof. intros H. rewrite H. reflexivity. Qed.

Lemma set_step_inv v s :
  stable s -> 0 <= v <= Z.of_nat (length (bricks s)) -> pageInv s -> pageInv (set_step v s).
Proof.
  intros St Hv [J1 J2 J3 J4 J5 J6 J7].
  split; try assumption.
  change (0 <= v <= Z.of_nat (d_len (rendered s))).
  pose proof (stable_len s St) as XX. rewrite XX. exact Hv.
Qed.

Lemma deselect_inv s : stable s -> pageInv s -> pageInv (deselect s).
Proof.
  intros St [J1 J2 J3 J4 J5 J6 J7]. unfold deselect, setAutoHighlight.
  split.
  - rewrite refresh_length. exact J1.
  - apply refresh_consistent.
  - intros N. exfalso. apply N. reflexivity.
  - exact J4.
  - exact J5.
  - intros _ _.
    change (lastRevealed (visibleCountOf (step s) (length (bricks s)))
            = lastRevealed (visibleCountOf (d_step (rendered s)) (d_len (rendered s)))).
    rewrite (stable_len s St), (stable_step s St). reflexivity.
  - exact J7.
Qed.

Lemma onPointerDown_inv hit s : stable s -> pageInv s -> pageInv (onPointerDown hit s).
Proof.
  intros St J. unfold onPointerDown.
  destruct (gizmoActive s); [exact J |].
  destruct (brickMeshes s) as [| m0 rest] eqn:Em; [exact J |]. rewrite <- Em.
  destruct hit as [idx |]; [| apply deselect_inv; assumption].
  destruct (brickMeshes s !! idx) as [m |] eqn:Hm; [| exact J].
  destruct (visible m); [| exact J].
  cbn [bricks set_selectedIndex].
  destruct (bricks s !! idx) as [b |] eqn:Hb.
  - destruct J as [J1 J2 J3 J4 J5 J6 J7]. split.
    + unfold setAutoHighlight. cbn [brickMeshes set_attached rendered].
      rewrite !refresh_length. exact J1.
    + intros i mi H. cbn [brickMeshes set_attached selectedIndex autoHighlightIdx] in *.
      exact (refresh_consistent _ i mi H).
    + reflexivity.
    + exact J4.
    + exact J5.
    + intros N. discriminate N.
    + exact J7.
  - exfalso. apply lookup_lt_Some in Hm. apply lookup_ge_None in Hb.
    rewrite (inv_meshes s J), (stable_len s St) in Hm. lia.
Qed.

Lemma commit_inv s : pageInv s -> pageInv (commitSelectedMeshToState PI s).
Proof.
  intros J. unfold commitSelectedMeshToState.
  destruct (selectedIndex s) as [idx |] eqn:Hs; [| exact J].
  destruct (brickMeshes s !! idx) as [mesh |] eqn:Hm; [| exact J].
  set (mesh' := applySnapToMesh PI RevB (listenerSnap s) (ctrl s) mesh).
  assert (J' : pageInv (set_brickMeshes (<[idx := mesh']> (brickMeshes s)) s)).
  { destruct J as [J1 J2 J3 J4 J5 J6 J7]. split; try assumption.
    - cbn [brickMeshes set_brickMeshes rendered]. rewrite length_insert. exact J1.
    - intros i m H. cbn [brickMeshes set_brickMeshes selectedIndex autoHighlightIdx] in *.
      apply list_lookup_insert_Some in H as [(<- & <- & _) | (N & H)].
      + unfold mesh'. rewrite applySnap_emissive. apply J2. exact Hm.
      + apply J2. exact H. }
  cbn [bricks set_brickMeshes].
  destruct (bricks s !! idx); [| exact J'].
  revert J'. apply pageInv_ext; reflexivity.
Qed.

Lemma rebuildDone_inv s : pageInv s -> pageInv (rebuildDone s).
Proof.
  intros J. unfold rebuildDone.
  destruct (rebuild s) as [vc |] eqn:Hr; [| exact J].
  destruct J as [J1 J2 J3 J4 J5 J6 J7].
  cbn [selectedIndex set_rebuild].
  destruct (bool_decide_reflect (selectedIndex s = None)) as [N | N].
  - unfold setAutoHighlight. split.
    + rewrite refresh_length. exact J1.
    + apply refresh_consistent.
    + intros X. exfalso. apply X. exact N.
    + exact J4.
    + exact J5.
    + intros _ _. cbn. rewrite (J7 vc Hr). reflexivity.
    + intros vc' H. discriminate H.
  - split; try assumption.
    + intros X. exfalso. apply N. exact X.
    + intros vc' H. discriminate H.
Qed.

Lemma handler_inv e s : stable s -> pageInv s -> pageInv (handler e s).
Proof.
  intros St J. pose proof J as [J1 J2 J3 J4 J5 J6 J7].
  destruct e; cbn [Page.handler].
  - revert J. apply pageInv_ext; reflexivity.
  - destruct ((0 <=? v) && (v <=? Z.of_nat (length (bricks s)))) eqn:E; [| exact J].
    apply andb_prop in E as [E1 E2]. apply set_step_inv; try assumption. lia.
  - apply set_step_inv; try assumption. rewrite (stable_len s St) in J4. lia.
  - apply set_step_inv; try assumption. lia.
  - apply set_step_inv; try assumption. lia.
  - apply set_step_inv; try assumption. lia.
  - apply set_step_inv; try assumption. rewrite (stable_len s St) in J4. lia.
  - apply deselect_inv; assumption.
  - revert J. apply pageInv_ext; reflexivity.
  - revert J. apply pageInv_ext; reflexivity.
  - apply onPointerDown_inv; assumption.
  - revert J. apply pageInv_ext; reflexivity.
  - apply commit_inv. revert J. apply pageInv_ext; reflexivity.
  - destruct value; [exact J | apply commit_inv; exact J].
  - destruct (attached s) as [i |]; [| exact J].
    split; try assumption.
    + cbn [brickMeshes set_brickMeshes rendered]. rewrite length_alter. exact J1.
    + intros j m H. cbn [brickMeshes set_brickMeshes selectedIndex autoHighlightIdx] in *.
      destruct (decide (i = j)) as [<- | N].
      * rewrite list_lookup_alter_eq in H.
        destruct (brickMeshes s !! i) as [m0 |] eqn:H0; [| discriminate].
        injection H as <-. cbn [emissive]. apply J2. exact H0.
      * rewrite list_lookup_alter_ne in H by exact N. apply J2. exact H.
  - revert J. apply pageInv_ext; reflexivity.
  - revert J. apply pageInv_ext; reflexivity.
  - unfold applySelectedColor. cbn [selectedIndex set_selectedHex bricks].
    destruct (selectedIndex s); [| revert J; apply pageInv_ext; reflexivity].
    destruct (bricks s !! n); revert J; apply pageInv_ext; reflexivity.
  - apply rebuildDone_inv. exact J.
Qed.

Lemma init_inv text : pageInv (init text) /\ stable (init text).
Proof.
  unfold Page.init. cbv zeta.
  set (bs := parseBrickDSL uid RevB 0 text).
  set (s0 := mkState _ _ _ _ _ _ _ _ _ _ _ _ _ _ _ _ _ _ _ _).
  pose proof (effects_chain true true true (depsOf s0) s0) as C. cbv zeta in C.
  destruct C as (Cc & Ce & (Cl & Cr) & Cp).
  assert (K : core (stepEffect (depsOf s0)
                      (syncEffect (depsOf s0) (rebuildProgressive (depsOf s0) s0)))
              = core s0).
  { rewrite stepEffect_core, syncEffect_core. reflexivity. }
  apply core_fields in K. destruct K as (K1 & K2 & K3 & K4 & K5 & K6 & K7).
  set (s1 := stepEffect _ _) in *.
  assert (St : stable s1).
  { unfold stable, depsOf. rewrite K1, K2, K3, K4, K5, K7. reflexivity. }
  split; [| exact St]. split.
  - rewrite Cl, K7. reflexivity.
  - apply Cc. intros i m H. cbn in H. rewrite lookup_nil in H. discriminate H.
  - apply Ce. intros N. exfalso. apply N. reflexivity.
  - rewrite K4, K7. cbn. lia.
  - rewrite Cp, K7. reflexivity.
  - intros _ H. rewrite Cr in H. discriminate H.
  - intros vc H. rewrite Cr in H. injection H as <-.
    unfold renderedCount. rewrite K7. reflexivity.
Qed.

(** Every state the page can be in satisfies the invariant, with nothing
    left to render. *)
Lemma reachable_inv s : reachable s -> pageInv s /\ stable s.
Proof.
  induction 1 as [text | s e R [J St]].
  - apply init_inv.
  - split; [| apply settle_stable].
    apply settle_inv. apply handler_inv; assumption.
Qed.

(** *** Renders that leave the part list and the cursor alone *)

Lemma settle_clean n :
  forall s, d_text (rendered s) = scadInput s ->
            d_len (rendered s) = length (bricks s) ->
            bricks (settle n s) = bricks s /\ step (settle n s) = step s.
Proof.
  induction n as [| n IH]; intros s Ht Hl; cbn [Page.settle];
    destruct (bool_decide (rendered s = depsOf s)); try (split; reflexivity).
  destruct (renderPass_fields s) as (T & G & R & B & I & S).
  assert (Ct : textChanged s = false).
  { unfold textChanged. rewrite bool_decide_eq_true_2 by exact Ht. reflexivity. }
  assert (Cl : lenChanged s = false).
  { unfold lenChanged. rewrite bool_decide_eq_true_2 by exact Hl. reflexivity. }
  rewrite Ct in B. rewrite Cl in S.
  destruct (IH (renderPass s)) as [Hb Hs].
  - rewrite R, T. reflexivity.
  - rewrite R, B. reflexivity.
  - rewrite Hb, Hs, B, S. split; reflexivity.
Qed.

Ltac frame := repeat split; try reflexivity; try assumption.

Lemma commit_frame s :
  let s' := commitSelectedMeshToState PI s in
  scadInput s' = scadInput s /\ rendered s' = rendered s /\ step s' = step s
  /\ length (bricks s') = length (bricks s).
Proof.
  cbv zeta. unfold commitSelectedMeshToState.
  destruct (selectedIndex s) as [idx |]; [| frame].
  destruct (brickMeshes s !! idx) as [mesh |]; [| frame].
  cbn [bricks set_brickMeshes].
  destruct (bricks s !! idx) as [b |] eqn:Hb; [| frame].
  cbn [scadInput rendered step bricks set_bricks].
  unfold commitUpdater. cbn [bricks set_brickMeshes]. rewrite Hb, length_insert. frame.
Qed.

(** Every handler but the text area's leaves the text, the last render and
    the number of parts as they were. *)
Lemma handler_frame e s :
  (forall text, e <> SetScadInput text) ->
  scadInput (handler e s) = scadInput s /\ rendered (handler e s) = rendered s
  /\ length (bricks (handler e s)) = length (bricks s).
Proof.
  intros N. destruct e; cbn [Page.handler]; try solve [frame].
  - exfalso. exact (N text eq_refl).
  - destruct ((0 <=? v) && (v <=? Z.of_nat (length (bricks s)))); frame.
  - unfold onPointerDown. destruct (gizmoActive s); [frame |].
    destruct (brickMeshes s) as [| m0 rest]; [frame |]. destruct hit as [idx |]; [| frame].
    destruct (_ !! idx) as [m |]; [| frame]. destruct (visible m); [| frame].
    cbn [bricks set_selectedIndex]. destruct (bricks s !! idx); frame.
  - pose proof (commit_frame (set_gizmoActive false s)) as H. cbv zeta in H.
    destruct H as (H1 & H2 & H3 & H4). repeat split; assumption.
  - destruct value; [frame |]. pose proof (commit_frame s) as H. cbv zeta in H.
    destruct H as (H1 & H2 & H3 & H4). repeat split; assumption.
  - destruct (attached s); frame.
  - unfold applySelectedColor. cbn [selectedIndex set_selectedHex bricks].
    destruct (selectedIndex s) as [idx |]; [| frame].
    destruct (bricks s !! idx) eqn:Hb; [| frame].
    cbn [scadInput rendered bricks set_bricks set_selectedHex].
    rewrite length_insert. frame.
  - unfold rebuildDone. destruct (rebuild s); [| frame].
    cbn [selectedIndex set_rebuild].
    destruct (bool_decide (selectedIndex s = None)); frame.
Qed.

(** After such a handler the renders change neither the parts nor the
    cursor. *)
Lemma handle_frame e s :
  stable s -> (forall text, e <> SetScadInput text) ->
  bricks (handle e s) = bricks (handler e s) /\ step (handle e s) = step (handler e s).
Proof.
  intros St N. destruct (handler_frame e s N) as (Ht & Hr & Hl).
  unfold Page.handle. apply settle_clean.
  - rewrite Hr, Ht, St. reflexivity.
  - rewrite Hr, Hl, St. reflexivity.
Qed.

(** *** The cursor *)

Lemma reachable_cursor s : reachable s -> 0 <= step s <= Z.of_nat (length (bricks s)).
Proof.
  intros R. destruct (reachable_inv s R) as [J St].
  pose proof (inv_cursor s J) as H. rewrite (stable_len s St) in H. exact H.
Qed.

(** A change of the text leaves the cursor at the smaller of its value and
    the new number of parts. *)
Lemma text_clamps s text :
  reachable s ->
  step (handle (SetScadInput text) s)
  = Z.min (step s) (Z.of_nat (length (bricks (handle (SetScadInput text) s)))).
Proof.
  intros R. destruct (reachable_inv s R) as [J St].
  pose proof (reachable_cursor s R) as Hc.
  unfold Page.handle. cbn [Page.handler].
  set (s0 := set_scadInput text s).
  assert (E0 : bricks s0 = bricks s /\ step s0 = step s /\ rendered s0 = rendered s)
    by (repeat split; reflexivity).
  destruct E0 as (B0 & S0 & R0).
  cbn [Page.settle].
  destruct (bool_decide (rendered s0 = depsOf s0)); [rewrite B0, S0; lia |].
  destruct (renderPass_fields s0) as (T1 & _ & R1 & B1 & _ & S1).
  assert (L0 : lenChanged s0 = false).
  { unfold lenChanged. rewrite R0, B0, (stable_len s St).
    rewrite bool_decide_eq_true_2; reflexivity. }
  rewrite L0, S0 in S1.
  set (s1 := renderPass s0) in *.
  destruct (bool_decide_reflect (rendered s1 = depsOf s1)) as [St1 | _].
  { rewrite S1. rewrite R1 in St1. apply (f_equal d_len) in St1. cbn in St1.
    rewrite <- St1. lia. }
  destruct (renderPass_fields s1) as (T2 & _ & R2 & B2 & _ & S2).
  assert (C1 : textChanged s1 = false).
  { unfold textChanged. rewrite R1, T1. cbn [d_text depsOf].
    rewrite bool_decide_eq_true_2; reflexivity. }
  rewrite C1 in B2.
  set (s2 := renderPass s1) in *.
  assert (S2' : step s2 = Z.min (step s) (Z.of_nat (length (bricks s1)))).
  { rewrite S2, S1. unfold lenChanged. rewrite R1. cbn [d_len depsOf]. rewrite B0.
    destruct (bool_decide_reflect (length (bricks s) = length (bricks s1))) as [E | E];
      cbn [negb]; [rewrite <- E; lia | reflexivity]. }
  destruct (settle_clean 1 s2) as [B3 S3].
  - rewrite R2, T2. reflexivity.
  - rewrite R2, B2. reflexivity.
  - cbn [Page.settle] in B3, S3.
    destruct (bool_decide (rendered s2 = depsOf s2)).
    + rewrite S2', B2. reflexivity.
    + rewrite B3, S3, S2', B2. reflexivity.
Qed.

(** C7 — the cursor lies in [0, partCount] in every state the page can be
    in; advancing and retreating clamp at the bounds; a change of the part
    list leaves the cursor at the smaller of its value and the new part
    count. *)
Theorem C7_cursor_in_range (s : State) :
  reachable s ->
  0 <= step s <= Z.of_nat (length (bricks s))
  /\ step (handle Next s) = Z.min (Z.of_nat (length (bricks s))) (step s + 1)
  /\ step (handle Prev s) = Z.max 0 (step s - 1)
  /\ (forall text,
         step (handle (SetScadInput text) s)
         = Z.min (step s) (Z.of_nat (length (bricks (handle (SetScadInput text) s))))).
Proof.
  intros R. destruct (reachable_inv s R) as [J St].
  split; [apply reachable_cursor; exact R |].
  split; [| split].
  - destruct (handle_frame Next s St) as [_ H]; [discriminate |]. exact H.
  - destruct (handle_frame Prev s St) as [_ H]; [discriminate |]. exact H.
  - intros text. apply text_clamps. exact R.
Qed.

(** *** Commit *)

Lemma writeBack_fields b mesh :
  id (writeBack PI b mesh) = id b /\ kind (writeBack PI b mesh) = kind b
  /\ color (writeBack PI b mesh) = color b
  /\ (xMm (writeBack PI b mesh), yMm (writeBack PI b mesh), zMm (writeBack PI b mesh))
     = position mesh
  /\ rotX (writeBack PI b mesh) = radToDeg PI (vx (rotation mesh))
  /\ rotY (writeBack PI b mesh) = radToDeg PI (vy (rotation mesh))
  /\ rotZ (writeBack PI b mesh) = radToDeg PI (vz (rotation mesh)).
Proof.
  unfold writeBack. destruct (position mesh) as [[px py] pz].
  destruct (rotation mesh) as [[rx ry] rz]. repeat split; reflexivity.
Qed.

(** The part list after [commitSelectedMeshToState]. *)
Lemma commit_bricks s :
  bricks (commitSelectedMeshToState PI s)
  = match selectedIndex s with
    | Some idx =>
        match brickMeshes s !! idx, bricks s !! idx with
        | Some mesh, Some b =>
            <[idx := writeBack PI b
                       (applySnapToMesh PI RevB (listenerSnap s) (ctrl s) mesh)]> (bricks s)
        | _, _ => bricks s
        end
    | None => bricks s
    end.
Proof.
  unfold commitSelectedMeshToState.
  destruct (selectedIndex s) as [idx |]; [| reflexivity].
  destruct (brickMeshes s !! idx) as [mesh |]; [| reflexivity].
  cbn [bricks set_brickMeshes].
  destruct (bricks s !! idx) as [b |] eqn:Hb; [| reflexivity].
  cbn [bricks set_bricks set_brickMeshes]. unfold commitUpdater.
  cbn [bricks set_brickMeshes]. rewrite Hb. reflexivity.
Qed.

(** The part list after a release of the gizmo. *)
Lemma release_bricks s e :
  stable s -> e = GizmoMouseUp \/ e = DraggingChanged false ->
  bricks (handle e s) = bricks (commitSelectedMeshToState PI s).
Proof.
  intros St [-> | ->].
  - destruct (handle_frame GizmoMouseUp s St) as [H _]; [discriminate |].
    rewrite H. cbn [Page.handler]. rewrite !commit_bricks. reflexivity.
  - destruct (handle_frame (DraggingChanged false) s St) as [H _]; [discriminate |].
    rewrite H. reflexivity.
Qed.

(** The part list while the gizmo is dragged. *)
Lemma drag_bricks s :
  stable s ->
  (forall pos rot, bricks (handle (GizmoMove pos rot) s) = bricks s)
  /\ bricks (handle GizmoMouseDown s) = bricks s
  /\ bricks (handle (DraggingChanged true) s) = bricks s.
Proof.
  intros St. split; [| split].
  - intros pos rot.
    destruct (handle_frame (GizmoMove pos rot) s St) as [H _]; [discriminate |].
    rewrite H. cbn [Page.handler]. destruct (attached s); reflexivity.
  - destruct (handle_frame GizmoMouseDown s St) as [H _]; [discriminate |]. exact H.
  - destruct (handle_frame (DraggingChanged true) s St) as [H _]; [discriminate |]. exact H.
Qed.

(** C9 — a release of the gizmo writes back into the selected part only,
    and there only the position and the rotation: the identifier, the kind
    and the colour of the selected part stay, every other part stays, the
    list keeps its length; the events of the drag itself leave the part
    list untouched. *)
Theorem C9_commit_writes_selected_transform (s : State) (e : event) :
  stable s ->
  e = GizmoMouseUp \/ e = DraggingChanged false ->
  length (bricks (handle e s)) = length (bricks s)
  /\ (forall j b, bricks s !! j = Some b ->
        exists b', bricks (handle e s) !! j = Some b'
                   /\ id b' = id b /\ kind b' = kind b /\ color b' = color b
                   /\ (selectedIndex s <> Some j -> b' = b))
  /\ (forall pos rot, bricks (handle (GizmoMove pos rot) s) = bricks s)
  /\ bricks (handle GizmoMouseDown s) = bricks s
  /\ bricks (handle (DraggingChanged true) s) = bricks s.
Proof.
  intros St He. rewrite (release_bricks s e St He), commit_bricks.
  split; [| split; [| apply drag_bricks; exact St]].
  - destruct (selectedIndex s) as [idx |]; [| reflexivity].
    destruct (brickMeshes s !! idx); [| reflexivity].
    destruct (bricks s !! idx); [apply length_insert | reflexivity].
  - intros j b Hj.
    destruct (selectedIndex s) as [idx |]; [| exists b; auto].
    destruct (brickMeshes s !! idx) as [mesh |]; [| exists b; auto].
    destruct (bricks s !! idx) as [b0 |] eqn:Hb; [| exists b; auto].
    destruct (decide (idx = j)) as [<- | N].
    + rewrite Hb in Hj. injection Hj as ->.
      eexists. split; [apply list_lookup_insert_eq; eapply lookup_lt_Some; exact Hb |].
      destruct (writeBack_fields b
                  (applySnapToMesh PI RevB (listenerSnap s) (ctrl s) mesh))
        as (H1 & H2 & H3 & _).
      repeat split; try assumption. intros X. exfalso. apply X. reflexivity.
    + exists b. rewrite list_lookup_insert_ne by exact N. auto.
Qed.


(** *** Highlights *)

Lemma classic_text (e : event) :
  (exists text, e = SetScadInput text) \/ (forall text, e <> SetScadInput text).
Proof. destruct e; try (right; discriminate). left. eexists. reflexivity. Qed.





(** *** The options the gizmo listeners read *)

Lemma renderPass_listenerSnap s : listenerSnap (renderPass s) = listenerSnap s.
Proof.
  unfold Page.renderPass. cbv zeta.
  pose proof (core_listenerSnap _ _
                (runEffects_core (rendered s) (depsOf s) (set_rendered (depsOf s) s))) as C.
  destruct (textChanged s); destruct (lenChanged s);
    cbn [listenerSnap set_uidCount set_bricks set_step]; rewrite C; reflexivity.
Qed.

Lemma settle_listenerSnap n : forall s, listenerSnap (settle n s) = listenerSnap s.
Proof.
  induction n as [| n IH]; intros s; cbn [Page.settle];
    destruct (bool_decide (rendered s = depsOf s)); try reflexivity.
  rewrite IH. apply renderPass_listenerSnap.
Qed.

Lemma handler_listenerSnap e s : listenerSnap (handler e s) = listenerSnap s.
Proof.
  destruct e; cbn [Page.handler]; try reflexivity.
  - destruct ((0 <=? v) && (v <=? Z.of_nat (length (bricks s)))); reflexivity.
  - unfold onPointerDown. destruct (gizmoActive s); [reflexivity |].
    destruct (brickMeshes s) as [| m0 rest]; [reflexivity |].
    destruct hit as [idx |]; [| reflexivity].
    destruct (_ !! idx) as [m |]; [| reflexivity]. destruct (visible m); [| reflexivity].
    cbn [bricks set_selectedIndex]. destruct (bricks s !! idx); reflexivity.
  - unfold commitSelectedMeshToState. cbn [selectedIndex set_gizmoActive brickMeshes].
    destruct (selectedIndex s) as [idx |]; [| reflexivity].
    destruct (brickMeshes s !! idx); [| reflexivity].
    cbn [bricks set_brickMeshes set_gizmoActive]. destruct (bricks s !! idx); reflexivity.
  - destruct value; [reflexivity |]. unfold commitSelectedMeshToState.
    destruct (selectedIndex s) as [idx |]; [| reflexivity].
    destruct (brickMeshes s !! idx); [| reflexivity].
    cbn [bricks set_brickMeshes]. destruct (bricks s !! idx); reflexivity.
  - destruct (attached s); reflexivity.
  - unfold applySelectedColor. cbn [selectedIndex set_selectedHex bricks].
    destruct (selectedIndex s) as [idx |]; [| reflexivity].
    destruct (bricks s !! idx); reflexivity.
  - unfold rebuildDone. destruct (rebuild s); [| reflexivity].
    cbn [selectedIndex set_rebuild].
    destruct (bool_decide (selectedIndex s = None)); reflexivity.
Qed.

(** The gizmo listeners are registered once, by the effect of the mount, so
    the snap options they read are those of the first render, whatever the
    check boxes show later. *)
Lemma listenerSnap_fixed s : reachable s -> listenerSnap s = allSnaps.
Proof.
  induction 1 as [text | s e R IH].
  - unfold Page.init. cbv zeta.
    match goal with
    | |- listenerSnap (stepEffect ?c (Page.syncEffect PI ?c (Page.rebuildProgressive PI ?c ?s0))) = _ =>
        pose proof (core_listenerSnap _ _
                      (stepEffect_core c (syncEffect c (rebuildProgressive c s0)))) as C1;
        pose proof (core_listenerSnap _ _ (syncEffect_core c (rebuildProgressive c s0))) as C2
    end.
    rewrite C1, C2. reflexivity.
  - unfold Page.handle. rewrite settle_listenerSnap, handler_listenerSnap. exact IH.
Qed.

End WithParams.
End PageFacts.

Module PageExamples.
Import Parser Snap Page Samples PageFacts.

Lemma reachable_run PI uid es :
  forall s, reachable PI uid s -> reachable PI uid (run PI uid es s).
Proof.
  induction es as [| e es IH]; intros s R; cbn [run foldl]; [exact R |].
  apply IH. constructor. exact R.
Qed.

Lemma draggedState_reachable : reachable pi_approx uid0 draggedState.
Proof. apply reachable_run. constructor. Qed.

Lemma steppedState_reachable : reachable pi_approx uid0 steppedState.
Proof. apply reachable_run. constructor. Qed.

Lemma finishedState_reachable : reachable pi_approx uid0 finishedState.
Proof. apply reachable_run. constructor. Qed.

Lemma draggedState_stable : stable draggedState.
Proof. unfold stable. by_eval. Qed.

Lemma pi_approx_pos : (0 < pi_approx)%Qc.
Proof. reflexivity. Qed.

(** The scenario of the specification: two parts; the cursor at 1 highlights
    part 0 and shows the first part only, the cursor at 2 highlights part 1
    and shows both. *)
Example stepping_scenario :
  let s1 := run pi_approx uid0 [RebuildDone; Next] (init pi_approx uid0 twoParts) in
  let s2 := handle pi_approx uid0 Next s1 in
  (autoHighlightIdx s1, map visible (brickMeshes s1)) = (Some 0%nat, [true; false])
  /\ (autoHighlightIdx s2, map visible (brickMeshes s2)) = (Some 1%nat, [true; true]).
Proof. split; vm_compute; reflexivity. Qed.

(** Selecting part 0 while part 1 is auto-highlighted: only part 0 is
    emphasised. *)
Example selection_scenario :
  map emissive (brickMeshes steppedState) = [NoEmphasis; AutoEmphasis]
  /\ map emissive (brickMeshes (handle pi_approx uid0 (PointerDown (Some 0%nat)) steppedState))
     = [SelectEmphasis; NoEmphasis].
Proof. split; vm_compute; reflexivity. Qed.

(** Five parts and the cursor at 5; three parts remain: the cursor is 3. *)
Example cursor_clamp_scenario :
  step finishedState = 5
  /\ length (bricks (handle pi_approx uid0 (SetScadInput threeParts) finishedState)) = 3%nat
  /\ step (handle pi_approx uid0 (SetScadInput threeParts) finishedState) = 3.
Proof. repeat split; vm_compute; reflexivity. Qed.

(** The release of the drag commits (13, 9.4, 3) as (16, 9.6, 0) and one
    radian about x as 90 degrees. *)
Example commit_scenario :
  bricks (handle pi_approx uid0 GizmoMouseUp draggedState) !! 0%nat
  = Some (mkBrick "A" "2x4" (ofZ 16) (ofDec 96 10) 0%Qc (ofZ 90) 0%Qc 0%Qc defaultColor).
Proof. by_eval. Qed.

(** Unticking the snap check boxes does not reach the commit. *)
Example commit_ignores_checkboxes :
  bricks (handle pi_approx uid0 GizmoMouseUp
            (handle pi_approx uid0 (SetSnap (mkSnap false false false)) draggedState)) !! 0%nat
  = Some (mkBrick "A" "2x4" (ofZ 16) (ofDec 96 10) 0%Qc (ofZ 90) 0%Qc 0%Qc defaultColor).
Proof. by_eval. Qed.

Lemma C7_witness :
  0 <= step finishedState <= Z.of_nat (length (bricks finishedState))
  /\ step (handle pi_approx uid0 (SetScadInput threeParts) finishedState)
     = Z.min (step finishedState)
             (Z.of_nat (length (bricks (handle pi_approx uid0 (SetScadInput threeParts)
                                               finishedState)))).
Proof.
  destruct (C7_cursor_in_range pi_approx uid0 finishedState finishedState_reachable)
    as (H1 & _ & _ & H4).
  split; [exact H1 | exact (H4 threeParts)].
Defined.



Lemma C9_witness :
  length (bricks (handle pi_approx uid0 GizmoMouseUp draggedState))
  = length (bricks draggedState)
  /\ bricks (handle pi_approx uid0 (GizmoMove (ofZ 1, ofZ 2, ofZ 3) (0%Qc, 0%Qc, 0%Qc))
                    draggedState)
     = bricks draggedState.
Proof.
  destruct (C9_commit_writes_selected_transform pi_approx uid0 draggedState GizmoMouseUp
              draggedState_stable (or_introl eq_refl)) as (H1 & _ & H3 & _).
  split; [exact H1 | apply H3].
Defined.




End PageExamples.

(** ** Concatenation of strings *)

Module StringFacts.

Lemma app_cons c s t : (String c s ++ t)%string = String c (s ++ t)%string.
Proof. reflexivity. Qed.

Lemma append_empty s : (s ++ EmptyString)%string = s.
Proof. induction s as [| c s IH]; [reflexivity |]. rewrite app_cons, IH. reflexivity. Qed.

Lemma app_assoc_str a b c : ((a ++ b) ++ c)%string = (a ++ (b ++ c))%string.
Proof.
  induction a as [| x a IH]; [reflexivity |]. rewrite !app_cons, IH. reflexivity.
Qed.

Lemma length_app s t :
  String.length (s ++ t)%string = (String.length s + String.length t)%nat.
Proof.
  induction s as [| c s IH]; [reflexivity |].
  rewrite app_cons. cbn [String.length]. rewrite IH. reflexivity.
Qed.

End StringFacts.

(** Closed inequalities between rationals are decided by evaluation. *)
Ltac by_eval_le := apply NumFacts.leb_le; vm_compute; reflexivity.
Ltac by_eval_lt := apply NumFacts.leb_gt; vm_compute; reflexivity.

(** ** More on the colour conversions *)

Module ColorProps.
Import Color NumFacts ColorFacts Parser Blend.

Lemma leb_ofZ a b : leb (ofZ a) (ofZ b) = (a <=? b).
Proof.
  unfold leb. rewrite !this_ofZ.
  destruct (a <=? b) eqn:E.
  - apply Qle_bool_iff. rewrite <- Zle_Qle. lia.
  - destruct (Qle_bool (inject_Z a) (inject_Z b)) eqn:F; [| reflexivity].
    apply Qle_bool_iff in F. rewrite <- Zle_Qle in F. lia.
Qed.

Lemma min_ofZ a b : Math_min (ofZ a) (ofZ b) = ofZ (Z.min a b).
Proof.
  unfold Math_min. rewrite leb_ofZ.
  destruct (a <=? b) eqn:E; f_equal; lia.
Qed.

Lemma max_ofZ a b : Math_max (ofZ a) (ofZ b) = ofZ (Z.max a b).
Proof.
  unfold Math_max. rewrite leb_ofZ.
  destruct (a <=? b) eqn:E; f_equal; lia.
Qed.

Lemma floor_ofZ k : Qfloor (this (ofZ k)) = k.
Proof. rewrite this_ofZ. apply Qfloor_Z. Qed.

Lemma print_byte k : 0 <= k <= 255 -> padStart2 (toString16 k) = hex2 k.
Proof.
  intros H.
  pose proof (forall_byte (fun k => String.eqb (padStart2 (toString16 k)) (hex2 k))) as E.
  apply String.eqb_eq. apply E; [| exact H].
  vm_compute. reflexivity.
Qed.

Lemma to_byteOf v : to v = hex2 (byteOf v).
Proof.
  unfold to, Math_round. change 0%Qc with (ofZ 0).
  rewrite min_ofZ, max_ofZ, floor_ofZ.
  apply print_byte. unfold byteOf. lia.
Qed.

Lemma byteOf_range v : 0 <= byteOf v <= 255.
Proof. unfold byteOf. lia. Qed.

Lemma nibbles k : 0 <= k <= 255 -> 0 <= k / 16 < 16 /\ 0 <= k mod 16 < 16.
Proof.
  intros Hk. split.
  - split; [apply Z.div_pos; lia | apply Z.div_lt_upper_bound; lia].
  - apply Z.mod_pos_bound; lia.
Qed.

(** X1 — [rgb01ToHex] returns a well-formed colour string for every
    triple, whatever its components: [#] and six lower-case hexadecimal
    digits. *)
Theorem rgb01ToHex_wellformed (c : rgb) : isHexColor (rgb01ToHex c) = true.
Proof.
  destruct c as [[r g] b]. unfold rgb01ToHex.
  rewrite !to_byteOf. unfold hex2. cbv [String.append]. cbn [isHexColor].
  destruct (nibbles _ (byteOf_range r)) as [R1 R2].
  destruct (nibbles _ (byteOf_range g)) as [G1 G2].
  destruct (nibbles _ (byteOf_range b)) as [B1 B2].
  rewrite !hexDigit_lower by assumption. reflexivity.
Qed.

Lemma round_mono (x y : num) : (x <= y)%Qc -> round x <= round y.
Proof.
  intros H. unfold round. apply Qfloor_resp_le.
  apply Qplus_le_compat; [exact H | apply Qle_refl].
Qed.

Lemma scale_mono (x y : num) : (x <= y)%Qc -> (x * ofZ 255 <= y * ofZ 255)%Qc.
Proof. intros H. apply Qcmult_le_compat_r; [exact H | by_eval_le]. Qed.

Lemma byteOf_clamp01 v : byteOf (clamp01 v) = byteOf v.
Proof.
  unfold clamp01, Math_max, Math_min.
  destruct (leb 1%Qc v) eqn:E1.
  - apply leb_le in E1. change (leb 0%Qc 1%Qc) with true. cbv iota.
    pose proof (round_mono _ _ (scale_mono _ _ E1)) as M.
    change (round (1 * ofZ 255)%Qc) with 255 in M.
    unfold byteOf at 2. change (byteOf 1%Qc) with 255. lia.
  - destruct (leb 0%Qc v) eqn:E0; [reflexivity |].
    apply leb_gt in E0. apply Qclt_le_weak in E0.
    pose proof (round_mono _ _ (scale_mono _ _ E0)) as M.
    change (round (0 * ofZ 255)%Qc) with 0 in M.
    unfold byteOf at 2. change (byteOf 0%Qc) with 0. lia.
Qed.

(** X2 — [rgb01ToHex] clamps: a triple prints as the triple of its
    components brought into [0,1] by [clamp01] does. *)
Theorem rgb01ToHex_clamps (r g b : num) :
  rgb01ToHex (r, g, b) = rgb01ToHex (clamp01 r, clamp01 g, clamp01 b).
Proof.
  unfold rgb01ToHex. rewrite !to_byteOf, !byteOf_clamp01. reflexivity.
Qed.

Lemma land_byte n : 0 <= Z.land n 255 <= 255.
Proof.
  assert (E : Z.land n 255 = n mod 256).
  { change 255 with (Z.ones 8). rewrite Z.land_ones by lia. reflexivity. }
  rewrite E. pose proof (Z.mod_pos_bound n 256). lia.
Qed.

Lemma hexToRgb01_bytes h :
  exists r g b, 0 <= r <= 255 /\ 0 <= g <= 255 /\ 0 <= b <= 255
    /\ hexToRgb01 h = ((ofZ r / ofZ 255)%Qc, (ofZ g / ofZ 255)%Qc, (ofZ b / ofZ 255)%Qc).
Proof.
  unfold hexToRgb01.
  set (n := toInt32 _).
  exists (Z.land (Z.shiftr n 16) 255), (Z.land (Z.shiftr n 8) 255), (Z.land n 255).
  repeat split; apply land_byte.
Qed.

Lemma bytes_round_trip r g b :
  0 <= r <= 255 -> 0 <= g <= 255 -> 0 <= b <= 255 ->
  hexToRgb01 (rgb01ToHex ((ofZ r / ofZ 255)%Qc, (ofZ g / ofZ 255)%Qc, (ofZ b / ofZ 255)%Qc))
  = ((ofZ r / ofZ 255)%Qc, (ofZ g / ofZ 255)%Qc, (ofZ b / ofZ 255)%Qc).
Proof.
  intros Hr Hg Hb.
  unfold rgb01ToHex. rewrite !to_byte by lia. unfold hex2.
  cbv [String.append].
  destruct (nibbles r Hr) as [R1 R2]. destruct (nibbles g Hg) as [G1 G2].
  destruct (nibbles b Hb) as [B1 B2].
  rewrite (hexToRgb01_digits _ _ _ _ _ _ (r / 16) (r mod 16) (g / 16) (g mod 16)
             (b / 16) (b mod 16));
    try (apply hexVal_hexDigit; assumption);
    try (apply hexDigit_lower; assumption); try assumption.
  rewrite <- !Z.div_mod by lia. reflexivity.
Qed.

Lemma byte_unit01 k : 0 <= k <= 255 -> unit01 (ofZ k / ofZ 255)%Qc.
Proof.
  intros H. unfold unit01, Qcle.
  rewrite this_div, !this_ofZ. change (this 0%Qc) with 0%Q. change (this 1%Qc) with 1%Q.
  split.
  - apply Qle_shift_div_l; [reflexivity |].
    rewrite Qmult_0_l. change (inject_Z 0 <= inject_Z k)%Q. rewrite <- Zle_Qle. lia.
  - apply Qle_shift_div_r; [reflexivity |].
    rewrite Qmult_1_l. rewrite <- Zle_Qle. lia.
Qed.

(** X3 — whatever the string, [hexToRgb01] returns components between 0
    and 1, and a triple that survives the round trip through
    [rgb01ToHex]: printing and reading again changes nothing. *)
Theorem hexToRgb01_normal (h : string) :
  inGamut (hexToRgb01 h)
  /\ hexToRgb01 (rgb01ToHex (hexToRgb01 h)) = hexToRgb01 h.
Proof.
  destruct (hexToRgb01_bytes h) as (r & g & b & Hr & Hg & Hb & E).
  rewrite E. split.
  - cbn [inGamut]. auto using byte_unit01.
  - apply bytes_round_trip; assumption.
Qed.

Lemma hexVal_cases c v :
  hexVal c = Some v ->
  In c ["0"; "1"; "2"; "3"; "4"; "5"; "6"; "7"; "8"; "9"; "a"; "b"; "c"; "d"; "e"; "f";
        "A"; "B"; "C"; "D"; "E"; "F"]%char
  /\ 0 <= v < 16.
Proof.
  destruct c as [[] [] [] [] [] [] [] []]; intros H; vm_compute in H;
    try discriminate H; injection H as <-; (split; [simpl; tauto | lia]).
Qed.

(** Reading six hexadecimal digits of either case. *)
Lemma hexToRgb01_six c1 c2 c3 c4 c5 c6 v1 v2 v3 v4 v5 v6 :
  hexVal c1 = Some v1 -> hexVal c2 = Some v2 -> hexVal c3 = Some v3 ->
  hexVal c4 = Some v4 -> hexVal c5 = Some v5 -> hexVal c6 = Some v6 ->
  hexToRgb01
    (String "#" (String c1 (String c2 (String c3 (String c4 (String c5 (String c6 EmptyString)))))))
  = ((ofZ (16 * v1 + v2) / ofZ 255)%Qc,
     (ofZ (16 * v3 + v4) / ofZ 255)%Qc,
     (ofZ (16 * v5 + v6) / ofZ 255)%Qc).
Proof.
  intros E1 E2 E3 E4 E5 E6.
  destruct (hexVal_cases _ _ E1) as [L1 B1]. destruct (hexVal_cases _ _ E2) as [L2 B2].
  destruct (hexVal_cases _ _ E3) as [_ B3]. destruct (hexVal_cases _ _ E4) as [_ B4].
  destruct (hexVal_cases _ _ E5) as [_ B5]. destruct (hexVal_cases _ _ E6) as [_ B6].
  assert (P : parseInt16
                (String c1 (String c2 (String c3 (String c4 (String c5 (String c6 EmptyString))))))
              = Some (65536 * (16 * v1 + v2) + 256 * (16 * v3 + v4) + (16 * v5 + v6))).
  { assert (X2 : (Ascii.eqb c2 "x" || Ascii.eqb c2 "X")%char = false).
    { simpl in L2.
      repeat (destruct L2 as [<- | L2]; [reflexivity |]). destruct L2. }
    simpl in L1.
    repeat (destruct L1 as [<- | L1];
      [ unfold parseInt16; simpl skipSpaces; cbv beta iota; unfold strip0x;
        try rewrite X2;
        rewrite (hexDigits_cons _ _ _ v1 E1), (hexDigits_cons _ _ _ v2 E2),
          (hexDigits_cons _ _ _ v3 E3), (hexDigits_cons _ _ _ v4 E4),
          (hexDigits_cons _ _ _ v5 E5), (hexDigits_cons _ _ _ v6 E6);
        simpl; f_equal; lia |]).
    destruct L1. }
  unfold hexToRgb01. cbn [removeFirstHash Ascii.eqb Bool.eqb].
  cbn [String.length Nat.eqb]. rewrite P.
  destruct (bytes_of_rgb (16 * v1 + v2) (16 * v3 + v4) (16 * v5 + v6))
    as (R & G & B); [lia | lia | lia |].
  cbv zeta in R, G, B. rewrite R, G, B. reflexivity.
Qed.

(** X4 — the three-digit form: [#abc] reads as [#aabbcc], each digit [d]
    giving the byte [17 * d], for digits of either case. *)
Theorem hexToRgb01_shorthand (a b c : ascii) (va vb vc : Z) :
  hexVal a = Some va -> hexVal b = Some vb -> hexVal c = Some vc ->
  hexToRgb01 (String "#" (String a (String b (String c EmptyString))))
  = ((ofZ (17 * va) / ofZ 255)%Qc, (ofZ (17 * vb) / ofZ 255)%Qc,
     (ofZ (17 * vc) / ofZ 255)%Qc).
Proof.
  intros Ea Eb Ec.
  transitivity
    (hexToRgb01
       (String "#" (String a (String a (String b (String b (String c (String c EmptyString)))))))).
  - unfold hexToRgb01. cbn [removeFirstHash Ascii.eqb Bool.eqb].
    cbn [String.length Nat.eqb doubleChars]. reflexivity.
  - rewrite (hexToRgb01_six a a b b c c va va vb vb vc vc) by assumption.
    replace (16 * va + va) with (17 * va) by lia.
    replace (16 * vb + vb) with (17 * vb) by lia.
    replace (16 * vc + vc) with (17 * vc) by lia.
    reflexivity.
Qed.

Lemma hexToRgb01_shorthand_witness :
  hexToRgb01 "#Fc0"
  = ((ofZ (17 * 15) / ofZ 255)%Qc, (ofZ (17 * 12) / ofZ 255)%Qc,
     (ofZ (17 * 0) / ofZ 255)%Qc).
Proof.
  apply (hexToRgb01_shorthand "F" "c" "0" 15 12 0); reflexivity.
Defined.

End ColorProps.

(** ** The highlight blend *)

Module BlendProps.
Import Color NumFacts Parser Blend.
Local Open Scope Qc_scope.

Lemma clamp01_cases (t : num) :
  unit01 (clamp01 t)
  /\ (t <= 0 -> clamp01 t = 0) /\ (1 <= t -> clamp01 t = 1)
  /\ (unit01 t -> clamp01 t = t).
Proof.
  unfold clamp01, Math_max, Math_min, unit01.
  destruct (leb 1 t) eqn:E1.
  - apply leb_le in E1. change (leb 0 1) with true. cbv iota.
    repeat split; try by_eval_le; try reflexivity.
    + intros H. exfalso. apply (Qcle_not_lt _ _ (Qcle_trans _ _ _ E1 H)). by_eval_lt.
    + intros [_ H]. apply Qcle_antisym; assumption.
  - apply leb_gt in E1. destruct (leb 0 t) eqn:E0.
    + apply leb_le in E0. repeat split; try assumption; try reflexivity.
      * apply Qclt_le_weak; exact E1.
      * intros H. apply Qcle_antisym; assumption.
      * intros H. exfalso. exact (Qcle_not_lt _ _ H E1).
    + apply leb_gt in E0. repeat split; try by_eval_le; try reflexivity.
      * intros H. exfalso. exact (Qcle_not_lt _ _ H E1).
      * intros [H _]. exfalso. exact (Qcle_not_lt _ _ H E0).
Qed.

Lemma mix_between (a b u : num) :
  unit01 u -> unit01 a -> unit01 b -> unit01 (a * (1 - u) + b * u).
Proof.
  unfold unit01, Qcle. intros [U0 U1] [A0 A1] [B0 B1].
  rewrite this_plus, !this_mult, this_minus.
  change (this 0) with 0%Q in *. change (this 1) with 1%Q in *.
  split; nra.
Qed.

(** X5 — [blend a b t] mixes along the segment from [a] to [b]: with
    [t] at or below 0 it is [a], with [t] at or above 1 it is [b], and
    between two colours with components in [0,1] it stays in [0,1]. *)
Theorem blend_between (a b : rgb) (t : num) :
  (t <= 0 -> blend a b t = a)
  /\ (1 <= t -> blend a b t = b)
  /\ (inGamut a -> inGamut b -> inGamut (blend a b t)).
Proof.
  destruct a as [[a0 a1] a2], b as [[b0 b1] b2].
  destruct (clamp01_cases t) as (U & L & H & _).
  unfold blend. split; [| split].
  - intros T. rewrite (L T). f_equal; [f_equal |]; ring.
  - intros T. rewrite (H T). f_equal; [f_equal |]; ring.
  - intros (A0 & A1 & A2) (B0 & B1 & B2). cbn [inGamut].
    split; [| split]; apply mix_between; assumption.
Qed.

End BlendProps.

(** ** The names of the colours *)

Module NamingProps.
Import Parser Naming NumFacts.

Lemma gtb_true a b : gtb a b = true <-> (this b < this a)%Q.
Proof.
  unfold gtb. rewrite negb_true_iff. apply leb_gt.
Qed.

Lemma gtb_false a b : gtb a b = false <-> (this a <= this b)%Q.
Proof.
  unfold gtb. rewrite negb_false_iff. apply leb_le.
Qed.

Lemma ltb_true a b : ltb a b = true <-> (this a < this b)%Q.
Proof.
  unfold ltb. rewrite negb_true_iff. apply leb_gt.
Qed.

Lemma ltb_false a b : ltb a b = false <-> (this b <= this a)%Q.
Proof.
  unfold ltb. rewrite negb_false_iff. apply leb_le.
Qed.

(** The thresholds as fractions. *)
Ltac thresholds :=
  repeat match goal with
         | |- context [this (ofDec ?n ?d)] =>
             let v := eval vm_compute in (this (ofDec n d)) in
             change (this (ofDec n d)) with v
         | H : context [this (ofDec ?n ?d)] |- _ =>
             let v := eval vm_compute in (this (ofDec n d)) in
             change (this (ofDec n d)) with v in H
         end.

(** Tests that hold or fail become inequalities. *)
Ltac tests :=
  repeat match goal with
         | H : (_ && _) = true |- _ => apply andb_prop in H; destruct H
         | H : gtb _ _ = true |- _ => apply gtb_true in H
         | H : gtb _ _ = false |- _ => apply gtb_false in H
         | H : ltb _ _ = true |- _ => apply ltb_true in H
         | H : ltb _ _ = false |- _ => apply ltb_false in H
         | H : (_ < _)%Qc |- _ => unfold Qclt in H
         | H : (_ <= _)%Qc |- _ => unfold Qcle in H
         | H : _ /\ _ |- _ => destruct H
         end;
  thresholds.

(** The value of a test, found from the inequalities at hand. *)
Ltac settle_tests :=
  repeat match goal with
         | |- context [gtb ?x ?c] =>
             first [ replace (gtb x c) with true
                       by (symmetry; apply gtb_true; thresholds; lra)
                   | replace (gtb x c) with false
                       by (symmetry; apply gtb_false; thresholds; lra) ]
         | |- context [ltb ?x ?c] =>
             first [ replace (ltb x c) with true
                       by (symmetry; apply ltb_true; thresholds; lra)
                   | replace (ltb x c) with false
                       by (symmetry; apply ltb_false; thresholds; lra) ]
         end.

Ltac other_tests :=
  repeat match goal with
         | |- context [gtb ?x ?c] => destruct (gtb x c)
         | |- context [ltb ?x ?c] => destruct (ltb x c)
         end.

(** A name is returned on its bucket. *)
Ltac on_bucket :=
  intros; tests; unfold colorName; settle_tests; other_tests; reflexivity.

(** A name is returned on its bucket only. *)
Ltac from_name :=
  unfold colorName;
  repeat match goal with
         | |- (if ?t then _ else _) = _ -> _ =>
             let E := fresh "E" in
             destruct t eqn:E; [try (intros D; discriminate D) | ]
         end;
  try (intros D; discriminate D);
  intros _; tests.

Lemma test_false (a b c : bool) :
  a && b && c = false -> a = false \/ b = false \/ c = false.
Proof. destruct a, b, c; simpl; auto. Qed.

(** X6 — [colorName] returns each of its eight names exactly on the
    bucket its test describes; the order of the tests matters for orange
    only, from which the yellows are taken out. *)
Theorem colorName_buckets (r g b : num) :
  (colorName (r, g, b) = "yellow"%string
   <-> ofDec 7 10 < r /\ ofDec 7 10 < g /\ b < ofDec 35 100)%Qc
  /\ (colorName (r, g, b) = "red"%string
      <-> ofDec 75 100 < r /\ g < ofDec 35 100 /\ b < ofDec 35 100)%Qc
  /\ (colorName (r, g, b) = "green"%string
      <-> ofDec 65 100 < g /\ r < ofDec 45 100 /\ b < ofDec 55 100)%Qc
  /\ (colorName (r, g, b) = "blue"%string
      <-> ofDec 7 10 < b /\ r < ofDec 45 100 /\ g < ofDec 6 10)%Qc
  /\ (colorName (r, g, b) = "light gray"%string
      <-> ofDec 6 10 < r /\ ofDec 6 10 < g /\ ofDec 6 10 < b)%Qc
  /\ (colorName (r, g, b) = "dark gray"%string
      <-> r < ofDec 35 100 /\ g < ofDec 35 100 /\ b < ofDec 35 100)%Qc
  /\ (colorName (r, g, b) = "purple"%string
      <-> ofDec 6 10 < r /\ ofDec 6 10 < b /\ g < ofDec 5 10)%Qc
  /\ (colorName (r, g, b) = "orange"%string
      <-> ofDec 7 10 < r /\ ofDec 4 10 < g /\ g <= ofDec 7 10 /\ b < ofDec 3 10)%Qc.
Proof.
  repeat apply conj.
  all: try solve [on_bucket].
  all: from_name.
  all: repeat match goal with
              | H : _ && _ && _ = false |- _ => apply test_false in H
              end.
  all: unfold Qclt, Qcle; thresholds.
  all: try solve [repeat apply conj; lra].
  all: repeat match goal with
              | H : _ \/ _ |- _ => destruct H
              end; tests; try solve [repeat apply conj; lra].
Qed.

End NamingProps.

(** ** The names of the kinds *)

Module KindProps.
Import Parser Naming NumFacts StringFacts.

Lemma isDigit_cases c :
  Regex.isDigit c = true -> In c ["0"; "1"; "2"; "3"; "4"; "5"; "6"; "7"; "8"; "9"]%char.
Proof.
  destruct c as [[] [] [] [] [] [] [] []]; intros H; vm_compute in H;
    try discriminate H; simpl; tauto.
Qed.

(** A digit is none of the letters the tests of [kindPretty] look for. *)
Lemma digit_other c :
  Regex.isDigit c = true ->
  Ascii.eqb "x" c = false /\ Ascii.eqb "_" c = false /\ Ascii.eqb "p" c = false
  /\ Ascii.eqb "t" c = false /\ Ascii.eqb "s" c = false.
Proof.
  intros H. apply isDigit_cases in H. simpl in H.
  repeat (destruct H as [<- | H]; [repeat split; reflexivity |]). destruct H.
Qed.

Lemma replaceFirst_unfold pat rep s :
  replaceFirst pat rep s
  = if startsWith pat s then (rep ++ dropStr (String.length pat) s)%string
    else match s with
         | EmptyString => EmptyString
         | String c rest => String c (replaceFirst pat rep rest)
         end.
Proof. destruct s; reflexivity. Qed.

(** Digits hold no [x]: the first [x] after them is the one replaced. *)
Lemma replace_x a :
  allDigits a = true ->
  forall t, replaceFirst "x" times (a ++ String "x" t)%string = (a ++ times ++ t)%string.
Proof.
  induction a as [| c a IH]; intros D t.
  - reflexivity.
  - cbn [allDigits] in D. apply andb_prop in D. destruct D as [Dc Da].
    destruct (digit_other c Dc) as (X & _).
    rewrite !app_cons, replaceFirst_unfold. cbn [startsWith]. rewrite X. cbn [andb].
    rewrite (IH Da). reflexivity.
Qed.

(** Digits hold no underscore. *)
Lemma replace_underscore a :
  allDigits a = true ->
  forall t, replaceFirst "_" times (a ++ t)%string = (a ++ replaceFirst "_" times t)%string.
Proof.
  induction a as [| c a IH]; intros D t.
  - reflexivity.
  - cbn [allDigits] in D. apply andb_prop in D. destruct D as [Dc Da].
    destruct (digit_other c Dc) as (_ & U & _).
    rewrite !app_cons, replaceFirst_unfold. cbn [startsWith]. rewrite U. cbn [andb].
    rewrite (IH Da). reflexivity.
Qed.

Lemma no_underscore a b :
  allDigits a = true -> allDigits b = true ->
  replaceFirst "_" times (a ++ String "x" b)%string = (a ++ String "x" b)%string.
Proof.
  intros Da Db. rewrite (replace_underscore a Da).
  rewrite replaceFirst_unfold. cbn [startsWith Ascii.eqb Bool.eqb andb].
  rewrite <- (append_empty b) at 1. rewrite (replace_underscore b Db).
  rewrite replaceFirst_unfold. cbn [startsWith]. rewrite append_empty. reflexivity.
Qed.

Lemma startsWith_app p k : startsWith p (p ++ k)%string = true.
Proof.
  induction p as [| c p IH]; [reflexivity |].
  rewrite app_cons. cbn [startsWith]. rewrite Ascii.eqb_refl. exact IH.
Qed.

Lemma dropStr_app p k : dropStr (String.length p) (p ++ k)%string = k.
Proof. induction p as [| c p IH]; [reflexivity | exact IH]. Qed.

(** Removing a prefix that is there. *)
Lemma strip_prefix p k : replaceFirst p EmptyString (p ++ k)%string = k.
Proof.
  rewrite replaceFirst_unfold, startsWith_app, dropStr_app. reflexivity.
Qed.

(** A name that starts with a digit or with [x] has none of the prefixes. *)
Lemma plain_kind a t :
  allDigits a = true ->
  let k := (a ++ String "x" t)%string in
  startsWith "plate_" k = false /\ startsWith "tile_" k = false
  /\ startsWith "slope_" k = false.
Proof.
  intros D. destruct a as [| c a].
  - repeat split; reflexivity.
  - cbn [allDigits] in D. apply andb_prop in D. destruct D as [Dc _].
    destruct (digit_other c Dc) as (_ & _ & P & T & S).
    cbv zeta. rewrite app_cons. cbn [startsWith]. rewrite P, T, S. auto.
Qed.

(** X7 — [kindPretty] on the names of the catalog's shape, two numbers
    around an [x]: a plain brick [2x4] is shown with the multiplication
    sign; so are the plates and tiles of revision B, while revision A,
    which looks for an underscore there, leaves their [x] as it is. *)
Theorem kindPretty_shapes (a b : string) :
  allDigits a = true -> allDigits b = true ->
  (forall v, kindPretty v (a ++ "x" ++ b) = "brick " ++ a ++ times ++ b)%string
  /\ (kindPretty RevB ("plate_" ++ a ++ "x" ++ b) = "plate " ++ a ++ times ++ b)%string
  /\ (kindPretty RevB ("tile_" ++ a ++ "x" ++ b) = "tile " ++ a ++ times ++ b)%string
  /\ (kindPretty RevA ("plate_" ++ a ++ "x" ++ b) = "plate " ++ a ++ "x" ++ b)%string
  /\ (kindPretty RevA ("tile_" ++ a ++ "x" ++ b) = "tile " ++ a ++ "x" ++ b)%string.
Proof.
  intros Da Db.
  change ("x" ++ b)%string with (String "x" b).
  destruct (plain_kind a b Da) as (P & T & S). cbv zeta in P, T, S.
  assert (PP : forall k, startsWith "plate_" ("plate_" ++ k)%string = true)
    by (intros k; apply startsWith_app).
  assert (TP : forall k, startsWith "plate_" ("tile_" ++ k)%string = false)
    by reflexivity.
  assert (TT : forall k, startsWith "tile_" ("tile_" ++ k)%string = true)
    by (intros k; apply startsWith_app).
  split; [| repeat split].
  - intros v. unfold kindPretty. rewrite P, T, S, (replace_x a Da b). reflexivity.
  - unfold kindPretty. rewrite PP, strip_prefix, (replace_x a Da b). reflexivity.
  - unfold kindPretty. rewrite TP, TT, strip_prefix, (replace_x a Da b). reflexivity.
  - unfold kindPretty. rewrite PP, strip_prefix, (no_underscore a b Da Db). reflexivity.
  - unfold kindPretty. rewrite TP, TT, strip_prefix, (no_underscore a b Da Db). reflexivity.
Qed.

Lemma kindPretty_shapes_witness :
  (kindPretty RevB ("plate_" ++ "2" ++ "x" ++ "10") = "plate " ++ "2" ++ times ++ "10")%string
  /\ (kindPretty RevA ("plate_" ++ "2" ++ "x" ++ "10") = "plate " ++ "2" ++ "x" ++ "10")%string.
Proof.
  destruct (kindPretty_shapes "2" "10" eq_refl eq_refl) as (_ & B & _ & A & _).
  exact (conj B A).
Defined.

End KindProps.

(** ** The instruction line *)

Module InstructionProps.
Import Parser Naming Page.

Lemma revealed_part (bricks : list Brick) (step : Z) :
  let vc := visibleCountOf step (length bricks) in
  0 < vc -> exists b, bricks !! Z.to_nat (vc - 1) = Some b.
Proof.
  intros vc H. apply lookup_lt_is_Some. unfold vc, visibleCountOf in *. lia.
Qed.

Lemma instructionBrick_revealed v bricks step :
  instructionBrick v bricks step
  = match lastRevealed (visibleCountOf step (length bricks)) with
    | Some i => bricks !! i
    | None => None
    end.
Proof.
  destruct v; [| reflexivity].
  unfold instructionBrick, lastRevealed.
  set (vc := visibleCountOf step (length bricks)).
  destruct (0 <? vc) eqn:E.
  - apply Z.ltb_lt in E.
    assert (L : (length bricks =? 0)%nat = false).
    { apply Nat.eqb_neq. unfold vc, visibleCountOf in E. lia. }
    rewrite L. cbn [negb andb]. f_equal. f_equal.
    unfold vc, visibleCountOf in *. lia.
  - rewrite andb_false_r. reflexivity.
Qed.

(** X8 — the instruction line of either revision is about the part
    revealed last, the one at index [visibleCount - 1]; with no part
    revealed it asks for parts or for the first step.  The sentence
    [Press Next to continue.] of the source is never produced. *)
Theorem instruction_names_last_revealed (v : revision) (bricks : list Brick) (step : Z) :
  match lastRevealed (visibleCountOf step (length bricks)) with
  | Some i => exists b, bricks !! i = Some b /\ instructionText v bricks step = placeText v b
  | None =>
      instructionText v bricks step
      = if (length bricks =? 0)%nat
        then "Add bricks in the DSL to generate a blueprint."%string
        else "Press Next to reveal step 1."%string
  end.
Proof.
  unfold instructionText. rewrite instructionBrick_revealed.
  pose proof (revealed_part bricks step) as R. cbv zeta in R.
  unfold lastRevealed in *.
  set (vc := visibleCountOf step (length bricks)) in *.
  destruct (0 <? vc) eqn:E.
  - apply Z.ltb_lt in E. destruct (R E) as [b Hb]. exists b. split; [exact Hb |].
    assert (L : (length bricks =? 0)%nat = false).
    { apply Nat.eqb_neq. unfold vc, visibleCountOf in E. lia. }
    rewrite L, Hb. replace (vc =? 0) with false by (symmetry; apply Z.eqb_neq; lia).
    reflexivity.
  - apply Z.ltb_ge in E.
    destruct (length bricks =? 0)%nat; [reflexivity |].
    replace (vc =? 0) with true; [reflexivity |].
    symmetry. apply Z.eqb_eq. unfold vc, visibleCountOf in *. lia.
Qed.

Lemma instructionText_at v bricks step b :
  let vc := visibleCountOf step (length bricks) in
  0 < vc -> bricks !! Z.to_nat (vc - 1) = Some b ->
  instructionText v bricks step = placeText v b.
Proof.
  intros vc V Hb. unfold instructionText. rewrite instructionBrick_revealed.
  fold vc. unfold lastRevealed.
  replace (0 <? vc) with true by (symmetry; apply Z.ltb_lt; exact V).
  assert (L : (length bricks =? 0)%nat = false).
  { apply Nat.eqb_neq. unfold vc, visibleCountOf in V. lia. }
  rewrite L, Hb. replace (vc =? 0) with false by (symmetry; apply Z.eqb_neq; lia).
  reflexivity.
Qed.

(** X9 — with every part revealed, revision A shows the sentence about
    the last part, while revision B shows its closing line in place of
    that sentence; at every other step revision B shows the instruction
    text.  So revision B never shows the instruction of the last part at
    the step that reveals it. *)
Theorem final_step_line (bricks : list Brick) (b : Brick) :
  last bricks = Some b ->
  let n := Z.of_nat (length bricks) in
  instructionLine RevA bricks n = placeText RevA b
  /\ instructionText RevB bricks n = placeText RevB b
  /\ instructionLine RevB bricks n = "Build complete. Nice."%string
  /\ (forall step, step <> n ->
        instructionLine RevB bricks step = instructionText RevB bricks step).
Proof.
  intros Hl n. rewrite last_lookup in Hl.
  assert (Hn : (0 < length bricks)%nat).
  { apply lookup_lt_Some in Hl. lia. }
  assert (V : visibleCountOf n (length bricks) = n).
  { unfold visibleCountOf, n. lia. }
  assert (Hb : bricks !! Z.to_nat (visibleCountOf n (length bricks) - 1) = Some b).
  { rewrite V. unfold n. rewrite <- Hl. f_equal. lia. }
  assert (P : 0 < visibleCountOf n (length bricks)) by (rewrite V; unfold n; lia).
  assert (L : (length bricks =? 0)%nat = false) by (apply Nat.eqb_neq; lia).
  repeat split.
  - apply instructionText_at; assumption.
  - apply instructionText_at; assumption.
  - unfold instructionLine. fold n. rewrite L, Z.eqb_refl. reflexivity.
  - intros step Hs. unfold instructionLine. fold n.
    replace (step =? n) with false by (symmetry; apply Z.eqb_neq; exact Hs).
    rewrite andb_false_r. reflexivity.
Qed.

Lemma final_step_line_witness :
  let bricks := Parser.parseBrickDSL Samples.uid0 RevB 0 Samples.twoParts in
  let n := Z.of_nat (length bricks) in
  instructionLine RevA bricks n
  = ("Place the red brick 2" ++ times ++ "2, where highlighted.")%string
  /\ instructionLine RevB bricks n = "Build complete. Nice."%string.
Proof.
  cbv zeta.
  destruct (final_step_line (Parser.parseBrickDSL Samples.uid0 RevB 0 Samples.twoParts)
              (mkBrick "B" "2x2" (ofZ 16) 0%Qc 0%Qc 0%Qc (ofZ 90) 0%Qc defaultColor))
    as (A & _ & B & _).
  - by_eval.
  - split; [| exact B]. rewrite A. vm_compute. reflexivity.
Defined.

End InstructionProps.

(** ** More on the parser *)

Module ParserProps.
Import Regex RegexFacts Parser ParserFacts Blend BlendProps Text.

Lemma colorOf_inGamut args : inGamut (colorOf args).
Proof.
  unfold colorOf. destruct (default defaultColor (getVec3 args "color")) as [[r g] b].
  cbn [inGamut]. repeat split; apply clamp01_cases.
Qed.

(** X10 — every part the parser returns has a colour with components
    between 0 and 1, whatever numbers the text gives: [color=[...]] is
    clamped component by component. *)
Theorem parsed_colors_in_gamut (uid : nat -> string) (v : revision) (n : nat)
        (text : string) (b : Brick) :
  In b (parseBrickDSL uid v n text) -> inGamut (color b).
Proof.
  unfold parseBrickDSL. generalize (statements text). intros ms. revert n.
  induction ms as [| cs rest IH]; intros n H; cbn [bricksOf] in H; [destruct H |].
  destruct (kindInBrickDims v (trim (default EmptyString (getCap 1 cs)))).
  - destruct H as [<- | H]; [| eapply IH; exact H].
    unfold brickOf.
    destruct (position v _) as [[px py] pz]. destruct (Parser.rotation _) as [[rx ry] rz].
    cbn [color]. apply colorOf_inGamut.
  - eapply IH; exact H.
Qed.

Lemma parsed_colors_in_gamut_witness :
  inGamut (ofDec 2 10, ofDec 9 10, 1%Qc).
Proof.
  apply (parsed_colors_in_gamut Samples.uid0 RevB 0 Samples.mixedText
           (mkBrick "B" "1x1" (ofDec 102 10) (ofDec 96 10) (ofDec 67 10)
                    0%Qc (ofZ 15) 0%Qc (ofDec 2 10, ofDec 9 10, 1%Qc))).
  refine (proj1 (list_elem_of_In _ _) _). by_eval.
Defined.

Lemma bricksOf_length uid v ms : forall n, (length (bricksOf uid v n ms) <= length ms)%nat.
Proof.
  induction ms as [| cs rest IH]; intros n; cbn [bricksOf]; [cbn; lia |].
  destruct (kindInBrickDims v _); cbn [length]; [specialize (IH (S n)) | specialize (IH n)]; lia.
Qed.

Lemma execAll_length ci r :
  consuming r = true ->
  forall fuel s, (length (execAll fuel ci r s) <= String.length s)%nat.
Proof.
  intros C. induction fuel as [| f IH]; intros s; cbn [execAll]; [cbn; lia |].
  destruct (search ci r s) as [[rest cs] |] eqn:E; [| cbn; lia].
  apply search_progress in E; [| exact C]. cbn [length]. specialize (IH rest). lia.
Qed.

(** X11 — the loop of [parseBrickDSL] over the matches ends on every
    text: each match consumes input, so as many rounds as the text has
    characters are enough, more rounds yield the same parts, and there
    are no more parts than characters. *)
Theorem parse_loop_ends (uid : nat -> string) (v : revision) (n : nat)
        (text : string) (fuel : nat) :
  (String.length text <= fuel)%nat ->
  bricksOf uid v n (statementsFuel fuel text) = parseBrickDSL uid v n text
  /\ (length (parseBrickDSL uid v n text) <= String.length text)%nat.
Proof.
  intros L. split.
  - unfold parseBrickDSL, statements, statementsFuel.
    pose proof (stripScadComments_shrinks text) as S.
    rewrite (execAll_enough false brickRe (stripScadComments text) fuel)
      by (try apply brickRe_consuming; lia).
    rewrite (execAll_enough false brickRe (stripScadComments text) (String.length text))
      by (try apply brickRe_consuming; lia).
    reflexivity.
  - unfold parseBrickDSL, statements, statementsFuel.
    pose proof (bricksOf_length uid v
                  (execAll (String.length text) false brickRe (stripScadComments text)) n) as B.
    pose proof (execAll_length false brickRe brickRe_consuming (String.length text)
                  (stripScadComments text)) as E.
    pose proof (stripScadComments_shrinks text) as S. lia.
Qed.

Lemma parse_loop_ends_witness :
  bricksOf Samples.uid0 RevB 0 (statementsFuel 1000 Samples.twoParts)
  = parseBrickDSL Samples.uid0 RevB 0 Samples.twoParts
  /\ (length (parseBrickDSL Samples.uid0 RevB 0 Samples.twoParts)
      <= String.length Samples.twoParts)%nat.
Proof.
  apply (parse_loop_ends Samples.uid0 RevB 0 Samples.twoParts 1000).
  vm_compute. lia.
Defined.

End ParserProps.

(** ** Comments *)

Module CommentProps.
Import Regex RegexFacts Parser ParserFacts Text StringFacts.

Lemma blockRe_eq :
  blockCommentRe
  = Cat (Cat (Chr (Lit "/")) (Chr (Lit "*")))
        (Cat (Star false (Chr AnyNL)) (Cat (Chr (Lit "*")) (Chr (Lit "/")))).
Proof. reflexivity. Qed.

Lemma lineRe_eq :
  lineCommentRe
  = Cat (Cat (Chr (Lit "/")) (Chr (Lit "/"))) (Cat (Star true (Chr Dot)) Eol).
Proof. reflexivity. Qed.

(** Both comment patterns start with a slash. *)
Lemma block_needs_slash c t :
  Ascii.eqb c "/" = false -> matchAt false blockCommentRe (String c t) = None.
Proof.
  intros H. rewrite Ascii.eqb_sym in H.
  rewrite blockRe_eq. unfold matchAt. cbn [run clsMatch]. rewrite H. reflexivity.
Qed.

Lemma line_needs_slash c t :
  Ascii.eqb c "/" = false -> matchAt false lineCommentRe (String c t) = None.
Proof.
  intros H. rewrite Ascii.eqb_sym in H.
  rewrite lineRe_eq. unfold matchAt. cbn [run clsMatch]. rewrite H. reflexivity.
Qed.

(** A block comment opens with a slash followed by a star. *)
Lemma block_needs_star c t :
  match t with String d _ => Ascii.eqb d "*" | EmptyString => false end = false ->
  matchAt false blockCommentRe (String c t) = None.
Proof.
  intros H. rewrite blockRe_eq. unfold matchAt. cbn [run clsMatch].
  destruct (Ascii.eqb "/" c); [| reflexivity].
  destruct t as [| d t']; [reflexivity |].
  rewrite Ascii.eqb_sym in H. rewrite H. reflexivity.
Qed.

Lemma removeAll_keep r f c t :
  matchAt false r (String c t) = None ->
  removeAll (S f) false r (String c t) = String c (removeAll f false r t).
Proof. intros H. cbn [removeAll]. rewrite H. reflexivity. Qed.

Lemma removeAll_skip r f c t s1 cs :
  matchAt false r (String c t) = Some (s1, cs) ->
  (String.length s1 < String.length (String c t))%nat ->
  removeAll (S f) false r (String c t) = removeAll f false r s1.
Proof.
  intros H L. cbn [removeAll]. rewrite H.
  apply Nat.ltb_lt in L. rewrite L. reflexivity.
Qed.

(** Text without a slash holds no comment. *)
Lemma removeAll_prefix r pre t :
  (forall c t', Ascii.eqb c "/" = false -> matchAt false r (String c t') = None) ->
  hasChar "/" pre = false ->
  forall fuel, (String.length (pre ++ t) <= fuel)%nat ->
    removeAll fuel false r (pre ++ t)
    = (pre ++ removeAll (String.length t) false r t)%string.
Proof.
  intros Hr. induction pre as [| c p IH]; intros Hp fuel L.
  - apply removeAll_enough. exact L.
  - cbn [hasChar] in Hp. apply orb_false_elim in Hp. destruct Hp as [Hc Hp].
    rewrite app_cons in *. cbn [String.length] in L.
    destruct fuel as [| f]; [lia |].
    rewrite removeAll_keep by (apply Hr; exact Hc).
    rewrite (IH Hp f) by lia. reflexivity.
Qed.

(** Text without a star opens no block comment, as long as what follows
    starts with none. *)
Lemma removeAll_no_star u rest :
  hasChar "*" u = false -> atLineEnd rest = true ->
  forall fuel, (String.length (u ++ rest) <= fuel)%nat ->
    removeAll fuel false blockCommentRe (u ++ rest)
    = (u ++ removeAll (String.length rest) false blockCommentRe rest)%string.
Proof.
  intros Hu Hr. induction u as [| c u IH]; intros fuel L.
  - apply removeAll_enough. exact L.
  - cbn [hasChar] in Hu. apply orb_false_elim in Hu. destruct Hu as [Hc Hu].
    rewrite app_cons in *. cbn [String.length] in L.
    destruct fuel as [| f]; [lia |].
    rewrite removeAll_keep.
    + rewrite (IH Hu f) by lia. reflexivity.
    + apply block_needs_star. destruct u as [| d u'].
      * change (EmptyString ++ rest)%string with rest. destruct rest as [| a rest']; [reflexivity |].
        cbn [atLineEnd] in Hr.
        destruct a as [[] [] [] [] [] [] [] []]; try discriminate Hr; reflexivity.
      * rewrite app_cons. cbn [hasChar] in Hu. apply orb_false_elim in Hu. tauto.
Qed.

(** The greedy dots run to the end of the line. *)
Lemma dots_to_line_end {R} (k : string -> caps -> option R) rest cs x :
  atLineEnd rest = true -> k rest cs = Some x ->
  forall s fuel, oneLine s = true -> (String.length s <= fuel)%nat ->
    starLoop (run false (Chr Dot)) true k fuel (s ++ rest) cs = Some x.
Proof.
  intros Hr Hk.
  set (body := run false (Chr Dot)).
  assert (B0 : forall k', body rest cs k' = None).
  { intros k'. destruct rest as [| a rest']; [reflexivity |].
    cbn [atLineEnd] in Hr. unfold body. cbn [run clsMatch]. rewrite Hr. reflexivity. }
  assert (B1 : forall c t k', isLineTerminator c = false ->
                              body (String c t) cs k' = k' t cs).
  { intros c t k' Hc. unfold body. cbn [run clsMatch]. rewrite Hc. reflexivity. }
  induction s as [| c s IH]; intros fuel Hs L.
  - change (EmptyString ++ rest)%string with rest. destruct fuel as [| f]; [exact Hk |].
    cbn [starLoop]. cbv zeta. rewrite B0. exact Hk.
  - cbn [oneLine] in Hs. apply andb_prop in Hs. destruct Hs as [Hc Hs].
    apply negb_true_iff in Hc.
    cbn [String.length] in L. destruct fuel as [| f]; [lia |].
    rewrite app_cons. cbn [starLoop]. cbv zeta. rewrite (B1 _ _ _ Hc).
    replace (String.length (s ++ rest) <? String.length (String c (s ++ rest)))%nat
      with true by (symmetry; apply Nat.ltb_lt; cbn [String.length]; lia).
    rewrite (IH f Hs) by lia. reflexivity.
Qed.

(** A line comment matches up to the end of its line. *)
Lemma line_comment_match s rest :
  oneLine s = true -> atLineEnd rest = true ->
  exists cs, matchAt false lineCommentRe ("//" ++ s ++ rest) = Some (rest, cs).
Proof.
  intros Hs Hr. exists []. rewrite lineRe_eq. unfold matchAt.
  change ("//" ++ s ++ rest)%string with (String "/" (String "/" (s ++ rest))).
  cbn [run clsMatch Ascii.eqb Bool.eqb].
  apply dots_to_line_end; try assumption; [| rewrite length_app; lia].
  destruct rest as [| a rest']; cbn [run]; [reflexivity |].
  cbn [atLineEnd] in Hr. rewrite Hr. reflexivity.
Qed.

(** The lazy run of a block comment stops at the first star and slash. *)
Lemma any_to_close rest cs :
  forall body fuel, hasChar "/" body = false -> (String.length body <= fuel)%nat ->
    starLoop (run false (Chr AnyNL)) false
             (fun s1 cs1 =>
                run false (Cat (Chr (Lit "*")) (Chr (Lit "/"))) s1 cs1
                    (fun s2 cs2 => Some (s2, cs2)))
             fuel (body ++ "*/" ++ rest) cs
    = Some (rest, cs).
Proof.
  set (any := run false (Chr AnyNL)).
  set (k := fun s1 cs1 =>
              run false (Cat (Chr (Lit "*")) (Chr (Lit "/"))) s1 cs1
                  (fun s2 cs2 => Some (s2, cs2))).
  assert (A1 : forall c t (k' : string -> caps -> option (string * caps)),
             any (String c t) cs k' = k' t cs) by reflexivity.
  induction body as [| c b IH]; intros fuel Hb L.
  - change (EmptyString ++ "*/" ++ rest)%string with (String "*" (String "/" rest)).
    destruct fuel as [| f]; reflexivity.
  - cbn [hasChar] in Hb. apply orb_false_elim in Hb. destruct Hb as [Hc Hb].
    cbn [String.length] in L. destruct fuel as [| f]; [lia |].
    rewrite app_cons. cbn [starLoop]. cbv zeta.
    assert (K : k (String c (b ++ "*/" ++ rest)) cs = None).
    { unfold k. cbn [run clsMatch]. destruct (Ascii.eqb "*" c); [| reflexivity].
      destruct b as [| d b'].
      - reflexivity.
      - rewrite app_cons. cbn [hasChar] in Hb. apply orb_false_elim in Hb.
        destruct Hb as [Hd _]. rewrite Ascii.eqb_sym in Hd. rewrite Hd. reflexivity. }
    rewrite K, A1.
    replace (String.length (b ++ "*/" ++ rest)
             <? String.length (String c (b ++ "*/" ++ rest)))%nat
      with true by (symmetry; apply Nat.ltb_lt; cbn [String.length]; lia).
    apply IH; [exact Hb | lia].
Qed.

Lemma block_comment_match body rest :
  hasChar "/" body = false ->
  exists cs, matchAt false blockCommentRe ("/*" ++ body ++ "*/" ++ rest) = Some (rest, cs).
Proof.
  intros Hb. exists []. rewrite blockRe_eq. unfold matchAt.
  change ("/*" ++ body ++ "*/" ++ rest)%string
    with (String "/" (String "*" (body ++ "*/" ++ rest))).
  cbn [run clsMatch Ascii.eqb Bool.eqb].
  apply any_to_close; [exact Hb |]. rewrite length_app. lia.
Qed.

Lemma strip_prefix_free pre t :
  hasChar "/" pre = false ->
  stripScadComments (pre ++ t) = (pre ++ stripScadComments t)%string.
Proof.
  intros Hp. unfold stripScadComments. cbv zeta.
  rewrite (removeAll_prefix blockCommentRe pre t block_needs_slash Hp) by lia.
  rewrite (removeAll_prefix lineCommentRe pre _ line_needs_slash Hp) by lia.
  reflexivity.
Qed.

Lemma parse_of_strip uid v n t1 t2 :
  stripScadComments t1 = stripScadComments t2 ->
  parseBrickDSL uid v n t1 = parseBrickDSL uid v n t2.
Proof.
  intros E. unfold parseBrickDSL, statements, statementsFuel.
  pose proof (stripScadComments_shrinks t1) as S1.
  pose proof (stripScadComments_shrinks t2) as S2.
  rewrite (execAll_enough false brickRe (stripScadComments t1) (String.length t1))
    by (try apply brickRe_consuming; lia).
  rewrite (execAll_enough false brickRe (stripScadComments t2) (String.length t2))
    by (try apply brickRe_consuming; lia).
  rewrite E. reflexivity.
Qed.

Lemma block_keeps_line_end rest :
  atLineEnd rest = true ->
  atLineEnd (removeAll (String.length rest) false blockCommentRe rest) = true.
Proof.
  intros H. destruct rest as [| a rest']; [reflexivity |].
  cbn [String.length]. rewrite removeAll_keep; [exact H |].
  apply block_needs_slash. cbn [atLineEnd] in H.
  destruct a as [[] [] [] [] [] [] [] []]; try discriminate H; reflexivity.
Qed.

Lemma line_comment_strip s rest :
  oneLine s = true -> hasChar "*" s = false -> atLineEnd rest = true ->
  stripScadComments ("//" ++ s ++ rest) = stripScadComments rest.
Proof.
  intros Hs Hn Hr. unfold stripScadComments. cbv zeta.
  set (rest' := removeAll (String.length rest) false blockCommentRe rest).
  assert (P1 : removeAll (String.length ("//" ++ s ++ rest)) false blockCommentRe
                         ("//" ++ s ++ rest)
               = ("//" ++ s ++ rest')%string).
  { change ("//" ++ s ++ rest)%string with (String "/" (String "/" s) ++ rest)%string.
    rewrite (removeAll_no_star (String "/" (String "/" s)) rest) by (try assumption; lia).
    reflexivity. }
  rewrite P1.
  destruct (line_comment_match s rest' Hs (block_keeps_line_end rest Hr)) as [cs M].
  change ("//" ++ s ++ rest')%string with (String "/" (String "/" (s ++ rest'))) in *.
  cbn [String.length].
  rewrite (removeAll_skip _ _ _ _ _ _ M) by (cbn [String.length]; rewrite length_app; lia).
  apply removeAll_enough. rewrite length_app. lia.
Qed.

Lemma block_comment_strip body rest :
  hasChar "/" body = false ->
  stripScadComments ("/*" ++ body ++ "*/" ++ rest) = stripScadComments rest.
Proof.
  intros Hb. unfold stripScadComments. cbv zeta.
  destruct (block_comment_match body rest Hb) as [cs M].
  assert (P1 : removeAll (String.length ("/*" ++ body ++ "*/" ++ rest)) false blockCommentRe
                         ("/*" ++ body ++ "*/" ++ rest)
               = removeAll (String.length rest) false blockCommentRe rest).
  { change ("/*" ++ body ++ "*/" ++ rest)%string
      with (String "/" (String "*" (body ++ "*/" ++ rest))) in *.
    cbn [String.length].
    rewrite (removeAll_skip _ _ _ _ _ _ M)
      by (cbn [String.length]; rewrite !length_app; lia).
    apply removeAll_enough. rewrite !length_app. lia. }
  rewrite P1. reflexivity.
Qed.

(** X12 — a line comment is the same as nothing: text from [//] to the
    end of its line (when it holds no star, which could open a block
    comment first) is dropped, and the parser returns what it returns
    without it. *)
Theorem line_comment_ignored (uid : nat -> string) (v : revision) (n : nat)
        (pre s rest : string) :
  hasChar "/" pre = false -> oneLine s = true -> hasChar "*" s = false ->
  atLineEnd rest = true ->
  stripScadComments (pre ++ "//" ++ s ++ rest) = stripScadComments (pre ++ rest)
  /\ parseBrickDSL uid v n (pre ++ "//" ++ s ++ rest) = parseBrickDSL uid v n (pre ++ rest).
Proof.
  intros Hp Hs Hn Hr.
  assert (E : stripScadComments (pre ++ "//" ++ s ++ rest) = stripScadComments (pre ++ rest)).
  { rewrite (strip_prefix_free pre rest Hp), (strip_prefix_free pre _ Hp).
    rewrite line_comment_strip by assumption. reflexivity. }
  split; [exact E | apply parse_of_strip; exact E].
Qed.

Lemma line_comment_ignored_witness :
  parseBrickDSL Samples.uid0 RevB 0
    (MoreSamples.firstLine ++ "//" ++ MoreSamples.hiddenStatement ++ MoreSamples.lastLine)
  = parseBrickDSL Samples.uid0 RevB 0 (MoreSamples.firstLine ++ MoreSamples.lastLine).
Proof.
  apply (line_comment_ignored Samples.uid0 RevB 0 MoreSamples.firstLine
           MoreSamples.hiddenStatement MoreSamples.lastLine); reflexivity.
Defined.

(** X13 — a block comment is the same as nothing: text between [/*] and
    the next [*/] is dropped, and the parser returns what it returns
    without it. *)
Theorem block_comment_ignored (uid : nat -> string) (v : revision) (n : nat)
        (pre body rest : string) :
  hasChar "/" pre = false -> hasChar "/" body = false ->
  stripScadComments (pre ++ "/*" ++ body ++ "*/" ++ rest) = stripScadComments (pre ++ rest)
  /\ parseBrickDSL uid v n (pre ++ "/*" ++ body ++ "*/" ++ rest)
     = parseBrickDSL uid v n (pre ++ rest).
Proof.
  intros Hp Hb.
  assert (E : stripScadComments (pre ++ "/*" ++ body ++ "*/" ++ rest)
              = stripScadComments (pre ++ rest)).
  { rewrite (strip_prefix_free pre rest Hp), (strip_prefix_free pre _ Hp).
    rewrite block_comment_strip by assumption. reflexivity. }
  split; [exact E | apply parse_of_strip; exact E].
Qed.

Lemma block_comment_ignored_witness :
  parseBrickDSL Samples.uid0 RevB 0
    (MoreSamples.firstLine ++ "/*" ++ MoreSamples.hiddenStatement ++ "*/"
     ++ MoreSamples.lastLine)
  = parseBrickDSL Samples.uid0 RevB 0 (MoreSamples.firstLine ++ MoreSamples.lastLine).
Proof.
  apply (block_comment_ignored Samples.uid0 RevB 0 MoreSamples.firstLine
           MoreSamples.hiddenStatement MoreSamples.lastLine); reflexivity.
Defined.

End CommentProps.

(** ** More on the geometry cache *)

Module CacheProps.
Import Cache CacheFacts Text StringFacts.

Section WithPrinter.
Variable numberToString : num -> string.
Variable v : revision.

Local Abbreviation getGeo := (getBrickGeometry numberToString v).
Local Abbreviation runFrom := (run numberToString v).

(** What the log of compile requests keeps: each request belongs to a
    promise of its key, was made for a kind of the catalog, and no key
    occurs twice. *)
Lemma compiles_call kind p st :
  invariant st ->
  (∀ pid key, In (pid, key) (compiles st) ->
              ∃ ps, promises st !! pid = Some (mkPromise key ps)) ->
  (∀ pid key, In (pid, key) (compiles st) ->
              ∃ kind p, key = geomKey numberToString kind p
                        ∧ Parser.inCatalog v kind = true) ->
  NoDup (map snd (compiles st)) ->
  let st' := snd (getGeo kind p st) in
  (∀ pid key, In (pid, key) (compiles st') ->
              ∃ ps, promises st' !! pid = Some (mkPromise key ps))
  ∧ (∀ pid key, In (pid, key) (compiles st') ->
                ∃ kind p, key = geomKey numberToString kind p
                          ∧ Parser.inCatalog v kind = true)
  ∧ NoDup (map snd (compiles st')).
Proof.
  intros I B K N. set (key := geomKey numberToString kind p).
  unfold getBrickGeometry. fold key.
  destruct (geomCache st !! key) as [geo |] eqn:Hc; [cbn [snd]; auto |].
  destruct (geomPromise st !! key) as [pid0 |] eqn:Hp; [cbn [snd]; auto |].
  assert (Grow : ∀ pid k ps x, promises st !! pid = Some (mkPromise k ps) ->
                               (promises st ++ [x]) !! pid = Some (mkPromise k ps)).
  { intros pid k ps x H. rewrite lookup_app_l; [exact H | eapply lookup_lt_Some; exact H]. }
  destruct (Parser.inCatalog v kind) eqn:Cat; cbn [snd compiles promises].
  - split; [| split].
    + intros pid k H. apply in_app_or in H as [H | [H | []]].
      * destruct (B pid k H) as [ps Hps]. exists ps. apply Grow. exact Hps.
      * injection H as <- <-. exists Pending. apply lookup_snoc_Some. right. split; reflexivity.
    + intros pid k H. apply in_app_or in H as [H | [H | []]].
      * exact (K pid k H).
      * injection H as <- <-. exists kind, p. split; [reflexivity | exact Cat].
    + rewrite map_app. cbn [map snd]. apply NoDup_app. split; [exact N | split].
      * intros k Hk Hin. apply list_elem_of_singleton in Hin. subst k.
        apply list_elem_of_In in Hk. apply in_map_iff in Hk as ([pid k] & E & Hk).
        cbn [snd] in E. subst k.
        destruct (B pid key Hk) as [ps Hps].
        destruct (inv_tracked st I pid _ Hps) as [C | C]; cbn [p_key] in C; congruence.
      * apply NoDup_singleton.
  - split; [| split; [exact K | exact N]].
    intros pid k H. destruct (B pid k H) as [ps Hps]. exists ps. apply Grow. exact Hps.
Qed.

Lemma compiles_done pid o st :
  (∀ pid key, In (pid, key) (compiles st) ->
              ∃ ps, promises st !! pid = Some (mkPromise key ps)) ->
  compiles (compileDone pid o st) = compiles st
  ∧ (∀ pid' key, In (pid', key) (compiles st) ->
                 ∃ ps, promises (compileDone pid o st) !! pid' = Some (mkPromise key ps)).
Proof.
  intros B. unfold compileDone.
  destruct (promises st !! pid) as [[key ps] |] eqn:Hpid; [| auto].
  destruct ps; auto.
  pose proof (lookup_lt_Some _ _ _ Hpid) as Lpid.
  assert (Keep : ∀ x pid' k, In (pid', k) (compiles st) ->
            ∃ ps, (<[pid := mkPromise key x]> (promises st)) !! pid' = Some (mkPromise k ps)).
  { intros x pid' k H. destruct (B pid' k H) as [ps Hps].
    destruct (decide (pid = pid')) as [<- | Np].
    - rewrite Hpid in Hps. injection Hps as <- <-.
      exists x. apply list_lookup_insert_eq. exact Lpid.
    - exists ps. rewrite list_lookup_insert_ne by exact Np. exact Hps. }
  destruct o; cbn [compiles promises]; (split; [reflexivity | apply Keep]).
Qed.

Lemma compiles_run es :
  forall st, invariant st ->
    (∀ pid key, In (pid, key) (compiles st) ->
                ∃ ps, promises st !! pid = Some (mkPromise key ps)) ->
    (∀ pid key, In (pid, key) (compiles st) ->
                ∃ kind p, key = geomKey numberToString kind p
                          ∧ Parser.inCatalog v kind = true) ->
    NoDup (map snd (compiles st)) ->
    (∀ pid key, In (pid, key) (compiles (fst (runFrom st es))) ->
                ∃ kind p, key = geomKey numberToString kind p
                          ∧ Parser.inCatalog v kind = true)
    ∧ NoDup (map snd (compiles (fst (runFrom st es)))).
Proof.
  induction es as [| e es IH]; intros st I B K N; cbn [run].
  - split; assumption.
  - pose proof (step_invariant numberToString v st e I) as I1.
    assert (S1 : (∀ pid key, In (pid, key) (compiles (fst (step numberToString v st e))) ->
                    ∃ ps, promises (fst (step numberToString v st e)) !! pid
                          = Some (mkPromise key ps))
                 ∧ (∀ pid key, In (pid, key) (compiles (fst (step numberToString v st e))) ->
                      ∃ kind p, key = geomKey numberToString kind p
                                ∧ Parser.inCatalog v kind = true)
                 ∧ NoDup (map snd (compiles (fst (step numberToString v st e))))).
    { destruct e as [kind p | pid o]; cbn [step].
      - pose proof (compiles_call kind p st I B K N) as H. cbv zeta in H.
        destruct (getGeo kind p st) as [a st']. exact H.
      - destruct (compiles_done pid o st B) as [E B']. cbn [fst]. rewrite E.
        split; [exact B' | split; assumption]. }
    destruct (step numberToString v st e) as [st1 a1]. cbn [fst snd] in *.
    destruct S1 as (B1 & K1 & N1).
    specialize (IH st1 I1 B1 K1 N1).
    destruct (runFrom st1 es) as [st2 a2]. exact IH.
Qed.

(** X14 — along every history of calls and compiler answers, each key is
    submitted to the compiler at most once, whether its compile succeeds,
    fails, or is still running, and only kinds of the catalog are
    submitted. *)
Theorem compiled_once (es : list event) :
  let st := fst (runFrom empty es) in
  NoDup (map snd (compiles st))
  ∧ ∀ pid key, In (pid, key) (compiles st) ->
               ∃ kind p, key = geomKey numberToString kind p
                         ∧ Parser.inCatalog v kind = true.
Proof.
  cbv zeta.
  destruct (compiles_run es empty invariant_empty) as [K N].
  - intros pid key [].
  - intros pid key [].
  - apply NoDup_nil_2.
  - split; assumption.
Qed.

(** X15 — an entry of the cache is permanent: once a key has a geometry,
    no later call or compiler answer removes or replaces it. *)
Theorem cache_entries_permanent (es1 es2 : list event) (key : string) (geo : nat) :
  let st1 := fst (runFrom empty es1) in
  geomCache st1 !! key = Some geo ->
  geomCache (fst (runFrom st1 es2)) !! key = Some geo.
Proof.
  intros st1 H.
  destruct (run_invariant numberToString v es1 empty invariant_empty) as (I1 & _).
  fold st1 in I1.
  destruct (run_invariant numberToString v es2 st1 I1) as (_ & M & _).
  exact (M (key, Cached geo) H).
Qed.

Lemma quoted_app k t : (quoted k ++ t)%string = String dquote (k ++ String dquote t)%string.
Proof.
  unfold quoted. rewrite app_cons, app_assoc_str. reflexivity.
Qed.

(** A key starts with the kind between quotes. *)
Lemma geomKey_shape kind p :
  ∃ r, geomKey numberToString kind p
       = ("{" ++ quoted "kind" ++ ":" ++ String dquote (kind ++ String dquote r))%string.
Proof.
  eexists. unfold geomKey. rewrite (quoted_app kind). reflexivity.
Qed.

Lemma quote_ends k1 : forall k2 r1 r2,
  hasChar dquote k1 = false -> hasChar dquote k2 = false ->
  (k1 ++ String dquote r1)%string = (k2 ++ String dquote r2)%string -> k1 = k2.
Proof.
  induction k1 as [| c k1 IH]; intros [| d k2] r1 r2 H1 H2 E.
  - reflexivity.
  - rewrite app_cons in E. change (EmptyString ++ String dquote r1)%string with (String dquote r1) in E.
    injection E as E _. subst d. cbn [hasChar] in H2. rewrite Ascii.eqb_refl in H2.
    discriminate H2.
  - rewrite app_cons in E. change (EmptyString ++ String dquote r2)%string with (String dquote r2) in E.
    injection E as E _. subst c. cbn [hasChar] in H1. rewrite Ascii.eqb_refl in H1.
    discriminate H1.
  - rewrite !app_cons in E. injection E as -> E.
    cbn [hasChar] in H1, H2.
    apply orb_false_elim in H1. apply orb_false_elim in H2.
    f_equal. eapply IH; [apply H1 | apply H2 | exact E].
Qed.

(** No name that passes the test [kind in BRICK_DIMS] holds a quote. *)
Lemma kind_no_quote kind :
  Parser.kindInBrickDims v kind = true -> hasChar dquote kind = false.
Proof.
  intros H. unfold Parser.kindInBrickDims, Parser.inCatalog in H.
  apply orb_prop in H as [H | H]; apply existsb_exists in H as (e & Hin & E);
    apply String.eqb_eq in E; subst kind.
  - assert (A : forallb (fun e => negb (hasChar dquote (fst e))) (Parser.BRICK_DIMS v) = true)
      by (destruct v; vm_compute; reflexivity).
    rewrite forallb_forall in A. apply negb_true_iff. exact (A e Hin).
  - assert (A : forallb (fun e => negb (hasChar dquote e)) Parser.objectPrototypeKeys = true)
      by (vm_compute; reflexivity).
    rewrite forallb_forall in A. apply negb_true_iff. exact (A e Hin).
Qed.

(** X16 — the key of the cache tells the kinds apart: two parts whose
    kinds differ never share a key, whatever the geometry parameters and
    however numbers are printed. *)
Theorem geomKey_separates_kinds (k1 k2 : string) (p1 p2 : BrickGeomParams) :
  Parser.kindInBrickDims v k1 = true -> Parser.kindInBrickDims v k2 = true ->
  k1 <> k2 ->
  geomKey numberToString k1 p1 <> geomKey numberToString k2 p2.
Proof.
  intros H1 H2 N E. apply N.
  destruct (geomKey_shape k1 p1) as [r1 E1]. destruct (geomKey_shape k2 p2) as [r2 E2].
  rewrite E1, E2 in E. clear E1 E2.
  change ("{" ++ quoted "kind" ++ ":" ++ String dquote (k1 ++ String dquote r1))%string
    with (String "{" (String dquote (String "k" (String "i" (String "n" (String "d"
            (String dquote (String ":" (String dquote (k1 ++ String dquote r1))))))))))
    in E.
  change ("{" ++ quoted "kind" ++ ":" ++ String dquote (k2 ++ String dquote r2))%string
    with (String "{" (String dquote (String "k" (String "i" (String "n" (String "d"
            (String dquote (String ":" (String dquote (k2 ++ String dquote r2))))))))))
    in E.
  injection E as E.
  exact (quote_ends k1 k2 r1 r2 (kind_no_quote k1 H1) (kind_no_quote k2 H2) E).
Qed.

End WithPrinter.

Lemma geomKey_separates_kinds_witness :
  geomKey Samples.showNum "2x4" Page.defaultGeom
  <> geomKey Samples.showNum "plate_2x4"
             (mkParams (ofZ 24) (ofDec 48 10) (ofDec 18 10) (ofDec 2 100)).
Proof.
  apply (geomKey_separates_kinds Samples.showNum RevB "2x4" "plate_2x4");
    [reflexivity | reflexivity | discriminate].
Defined.

Lemma cache_entries_permanent_witness :
  let key := geomKey Samples.showNum "2x4" Page.defaultGeom in
  let st1 := fst (run Samples.showNum RevB empty
                      [Call "2x4" Page.defaultGeom; Done 0 Bytes]) in
  geomCache
    (fst (run Samples.showNum RevB st1
              [Call "2x4" Page.defaultGeom; Call "2x2" Page.defaultGeom;
               Done 1 (Failed "boom"); Done 0 Bytes; Call "2x2" Page.defaultGeom]))
    !! key = Some 0%nat.
Proof.
  apply (cache_entries_permanent Samples.showNum RevB
           [Call "2x4" Page.defaultGeom; Done 0 Bytes]).
  vm_compute. reflexivity.
Defined.

End CacheProps.

(** ** More on snapping *)

Module SnapProps.
Import Parser Snap NumFacts SnapFacts.
Local Open Scope Qc_scope.






Section WithPi.
Variable PI : num.
Hypothesis PI_nonzero : PI <> 0.




End WithPi.


End SnapProps.

(** ** More on the page component *)

Module PageProps.
Import Parser Snap Page PageFacts Scene.

Section WithParams.
Variable PI : num.
Variable uid : nat -> string.

Local Abbreviation rebuildProgressive := (rebuildProgressive PI).
Local Abbreviation syncEffect := (syncEffect PI).
Local Abbreviation renderPass := (renderPass PI uid).
Local Abbreviation settle := (settle PI uid).
Local Abbreviation handle := (handle PI uid).
Local Abbreviation handler := (handler PI).
Local Abbreviation init := (init PI uid).
Local Abbreviation reachable := (reachable PI uid).

Lemma stable_flags s :
  stable s -> textChanged s = false /\ lenChanged s = false.
Proof.
  intros H. unfold textChanged, lenChanged. rewrite H. cbn [d_text d_len depsOf].
  rewrite !bool_decide_eq_true_2 by reflexivity. auto.
Qed.

Lemma runEffects_same cur s : runEffects PI cur cur s = s.
Proof.
  unfold Page.runEffects. cbv zeta.
  rewrite !bool_decide_eq_true_2 by reflexivity. reflexivity.
Qed.

(** A pass over a state with nothing left to render changes nothing. *)
Lemma renderPass_stable s : stable s -> renderPass s = s.
Proof.
  intros H. destruct (stable_flags s H) as [T L].
  unfold Page.renderPass. cbv zeta. rewrite T, L. rewrite <- H.
  rewrite runEffects_same. destruct s. reflexivity.
Qed.

Lemma settle_id n s : stable s -> settle n s = s.
Proof.
  intros H. destruct n; cbn [Page.settle]; rewrite bool_decide_eq_true_2 by exact H;
    reflexivity.
Qed.

(** X19 — no event makes the page render for ever: from any state, three
    render passes reach a state in which no dependency of an effect has
    changed, and a pass over such a state changes nothing. *)
Theorem render_settles (s : State) :
  stable (settle 3 s)
  /\ renderPass (settle 3 s) = settle 3 s
  /\ (stable s -> settle 3 s = s).
Proof.
  assert (S3 : stable (settle 3 s)).
  { cbn [Page.settle].
    repeat match goal with
           | |- context [bool_decide ?P] => destruct (bool_decide_reflect P)
           end; try assumption.
    apply renderPass3_stable. }
  split; [exact S3 | split].
  - apply renderPass_stable. exact S3.
  - intros H. cbn [Page.settle]. rewrite bool_decide_eq_true_2 by exact H. reflexivity.
Qed.

(** *** The scene *)

Lemma shows_refresh n s :
  shows n (brickMeshes s) -> shows n (brickMeshes (refreshAllMaterials s)).
Proof.
  intros H i m Hm. unfold refreshAllMaterials in Hm.
  cbn [brickMeshes set_brickMeshes] in Hm. rewrite list_lookup_imap in Hm.
  destruct (brickMeshes s !! i) as [m0 |] eqn:E; [| discriminate].
  injection Hm as <-. cbn [visible withEmissive]. exact (H i m0 E).
Qed.

Lemma rebuild_scene cur s :
  let s' := rebuildProgressive cur s in
  shows (visibleCountOf (d_step cur) (length (bricks s))) (brickMeshes s')
  /\ selectedIndex s' = None /\ attached s' = None /\ bricks s' = bricks s.
Proof.
  cbv zeta. repeat split.
  unfold Page.rebuildProgressive. cbv zeta.
  match goal with
  | |- shows _ (brickMeshes (set_rebuild _ (refreshAllMaterials ?x))) =>
      change (shows (visibleCountOf (d_step cur) (length (bricks s)))
                    (brickMeshes (refreshAllMaterials x)))
  end.
  apply shows_refresh. intros i m Hm.
  cbn [brickMeshes set_brickMeshes] in Hm. rewrite list_lookup_imap in Hm.
  cbn [bricks set_brickMeshes set_selectedIndex setAutoHighlight refreshAllMaterials
       set_autoHighlightIdx set_attached] in Hm.
  destruct (bricks s !! i) as [b |]; [| discriminate].
  injection Hm as <-. reflexivity.
Qed.

Lemma sync_scene cur s :
  (length (brickMeshes s) <= length (bricks s))%nat ->
  let s' := syncEffect cur s in
  shows (visibleCountOf (d_step cur) (length (bricks s))) (brickMeshes s')
  /\ selectedIndex s' = selectedIndex s /\ attached s' = attached s
  /\ bricks s' = bricks s
  /\ length (brickMeshes s') = length (brickMeshes s).
Proof.
  intros L. cbv zeta. unfold Page.syncEffect.
  destruct (brickMeshes s) as [| m0 rest] eqn:E.
  - rewrite E. repeat split. intros i m Hm. rewrite lookup_nil in Hm. discriminate.
  - rewrite <- E in *. repeat split.
    + apply shows_refresh. intros i m Hm.
      cbn [brickMeshes set_brickMeshes] in Hm. rewrite list_lookup_imap in Hm.
      destruct (brickMeshes s !! i) as [mi |] eqn:Ei; [| discriminate].
      pose proof (lookup_lt_Some _ _ _ Ei) as Li.
      destruct (lookup_lt_is_Some_2 (bricks s) i) as [b Hb]; [lia |].
      cbn [fmap option_fmap option_map] in Hm. rewrite Hb in Hm.
      injection Hm as <-. reflexivity.
    + rewrite refresh_length. cbn [brickMeshes set_brickMeshes]. apply length_imap.
Qed.

Lemma step_scene cur s :
  let s' := stepEffect cur s in
  (forall n, shows n (brickMeshes s) -> shows n (brickMeshes s'))
  /\ selectedIndex s' = selectedIndex s /\ attached s' = attached s
  /\ bricks s' = bricks s.
Proof.
  cbv zeta. unfold stepEffect.
  destruct (prevStep s <? d_step cur); [| auto].
  cbn [selectedIndex set_prevStep].
  destruct (bool_decide (selectedIndex s = None)); [| auto].
  repeat split. intros n H. unfold setAutoHighlight. apply shows_refresh. exact H.
Qed.

(** The three effects together, as in [effects_chain]. *)
Lemma effects_scene (b1 b2 b3 : bool) cur s :
  let vc := visibleCountOf (d_step cur) (length (bricks s)) in
  let s1 := if b1 then rebuildProgressive cur s else s in
  let s2 := if b2 then syncEffect cur s1 else s1 in
  let s3 := if b3 then stepEffect cur s2 else s2 in
  (b1 = false -> (length (brickMeshes s) <= length (bricks s))%nat) ->
  (if b1 then selectedIndex s3 = None /\ attached s3 = None
   else selectedIndex s3 = selectedIndex s /\ attached s3 = attached s)
  /\ (if b1 || b2 then shows vc (brickMeshes s3)
      else forall n, shows n (brickMeshes s) -> shows n (brickMeshes s3)).
Proof.
  intros vc s1 s2 s3 L.
  assert (F1 : (if b1 then shows vc (brickMeshes s1) /\ selectedIndex s1 = None
                            /\ attached s1 = None
                            /\ length (brickMeshes s1) = length (bricks s)
                else s1 = s)
               /\ bricks s1 = bricks s).
  { unfold s1. destruct b1; [| auto].
    destruct (rebuild_scene cur s) as (A & B & C & D).
    destruct (rebuildProgressive_refs PI cur s) as (_ & _ & _ & _ & E & _).
    auto. }
  destruct F1 as [F1 B1].
  assert (L1 : (length (brickMeshes s1) <= length (bricks s1))%nat).
  { rewrite B1. destruct b1; [destruct F1 as (_ & _ & _ & E); lia | subst s1; exact (L eq_refl)]. }
  assert (F2 : (if b2 then shows vc (brickMeshes s2)
                else forall n, shows n (brickMeshes s1) -> shows n (brickMeshes s2))
               /\ selectedIndex s2 = selectedIndex s1 /\ attached s2 = attached s1).
  { unfold s2. destruct b2; [| auto].
    destruct (sync_scene cur s1 L1) as (A & B & C & _). rewrite B1 in A. auto. }
  assert (F3 : (forall n, shows n (brickMeshes s2) -> shows n (brickMeshes s3))
               /\ selectedIndex s3 = selectedIndex s2 /\ attached s3 = attached s2).
  { unfold s3. destruct b3; [| auto].
    destruct (step_scene cur s2) as (A & B & C & _). auto. }
  clearbody s1 s2 s3.
  destruct F2 as (V2 & S2 & A2). destruct F3 as (V3 & S3 & A3).
  destruct b1.
  - destruct F1 as (V1 & S1 & A1 & _). split; [split; congruence |].
    cbn [orb]. apply V3. destruct b2; [exact V2 | apply V2, V1].
  - subst s1. split; [split; congruence |].
    cbn [orb]. destruct b2; [apply V3, V2 | intros n H; apply V3, V2, H].
Qed.

(** A render pass keeps the scene invariant. *)
Lemma renderPass_scene s : pageInv s -> sceneInv s -> sceneInv (renderPass s).
Proof.
  intros [J1 J2 J3 J4 J5 J6 J7] [K1 K2 K3].
  destruct (renderPass_fields PI uid s) as (T & G & R & B & I & S).
  destruct (renderPass_refs PI uid s) as (Rs & _ & Rm & _ & _ & Rt). cbv zeta in *.
  unfold Page.runEffects in Rs, Rm, Rt. cbv zeta in *.
  match type of Rs with
  | _ = selectedIndex (if ?b3 then _ else if ?b2 then _ (if ?b1 then _ else ?s0) else _) =>
      pose proof (effects_scene b1 b2 b3 (depsOf s) s0) as C; cbv zeta in C;
      set (B1 := b1) in *; set (B2 := b2) in *; set (B3 := b3) in *
  end.
  cbn [d_len d_step depsOf bricks brickMeshes set_rendered selectedIndex attached] in C.
  assert (Bdef : B1 = false ->
                 d_step (rendered s) = step s /\ d_len (rendered s) = length (bricks s)).
  { unfold B1. intros H.
    apply orb_false_elim in H as [H Hk]. apply orb_false_elim in H as [H Hl].
    apply orb_false_elim in H as [Hg Hs].
    apply negb_false_iff in Hs, Hl. apply bool_decide_eq_true in Hs, Hl. auto. }
  assert (New : renderedCount (renderPass s) = visibleCountOf (step s) (length (bricks s))).
  { unfold renderedCount. rewrite R. reflexivity. }
  assert (Old : B1 = false -> renderedCount s = visibleCountOf (step s) (length (bricks s))).
  { intros H. destruct (Bdef H) as [Es El]. unfold renderedCount. rewrite Es, El. reflexivity. }
  rewrite <- Rs, <- Rm, <- Rt in C.
  assert (Len : B1 = false -> (length (brickMeshes s) <= length (bricks s))%nat).
  { intros H. destruct (Bdef H) as [_ El]. lia. }
  specialize (C Len). destruct C as [Cs Cv].
  destruct B1 eqn:E1.
  - destruct Cs as [Cs Ct]. cbn [orb] in Cv. split.
    + rewrite New. exact Cv.
    + intros i Hi. congruence.
    + congruence.
  - destruct Cs as [Cs Ct]. cbn [orb] in Cv. split.
    + rewrite New. destruct B2; [exact Cv |]. apply Cv. rewrite <- (Old eq_refl). exact K1.
    + intros i Hi. rewrite New, <- (Old eq_refl). apply K2. congruence.
    + congruence.
Qed.

Lemma settle_scene fuel :
  forall s, pageInv s -> sceneInv s -> sceneInv (settle fuel s).
Proof.
  induction fuel as [| f IH]; intros s J K; cbn [Page.settle];
    destruct (bool_decide (rendered s = depsOf s)); try exact K.
  apply IH; [apply renderPass_inv; exact J | apply renderPass_scene; assumption].
Qed.

(** The scene invariant only looks at these fields. *)
Lemma sceneInv_ext s s' :
  brickMeshes s' = brickMeshes s -> selectedIndex s' = selectedIndex s ->
  attached s' = attached s -> rendered s' = rendered s ->
  sceneInv s -> sceneInv s'.
Proof.
  intros Em Es Ea Ed [K1 K2 K3].
  split; unfold renderedCount in *; rewrite ?Em, ?Es, ?Ea, ?Ed; assumption.
Qed.

Lemma deselect_scene s : sceneInv s -> sceneInv (deselect s).
Proof.
  intros [K1 K2 K3]. unfold deselect, setAutoHighlight. split.
  - apply shows_refresh. exact K1.
  - intros i H. discriminate H.
  - reflexivity.
Qed.

Lemma onPointerDown_scene hit s :
  stable s -> pageInv s -> sceneInv s -> sceneInv (onPointerDown hit s).
Proof.
  intros St J K. unfold onPointerDown.
  destruct (gizmoActive s); [exact K |].
  destruct (brickMeshes s) as [| m0 rest] eqn:Em; [exact K |]. rewrite <- Em.
  destruct hit as [idx |]; [| apply deselect_scene; assumption].
  destruct (brickMeshes s !! idx) as [m |] eqn:Hm; [| exact K].
  destruct (visible m) eqn:Vm; [| exact K].
  cbn [bricks set_selectedIndex].
  destruct (bricks s !! idx) as [b |] eqn:Hb.
  - destruct K as [K1 K2 K3]. split.
    + unfold setAutoHighlight. apply shows_refresh, shows_refresh. exact K1.
    + intros i H. injection H as <-.
      pose proof (K1 idx m Hm) as V. rewrite Vm in V. symmetry in V.
      apply Z.ltb_lt in V. exact V.
    + reflexivity.
  - exfalso. apply lookup_lt_Some in Hm. apply lookup_ge_None in Hb.
    rewrite (inv_meshes s J), (stable_len s St) in Hm. lia.
Qed.

Lemma applySnap_visible v o c mesh :
  visible (applySnapToMesh PI v o c mesh) = visible mesh.
Proof.
  unfold applySnapToMesh. destruct (negb (snapEnabled o)); [reflexivity |].
  destruct c; [reflexivity |]. destruct (position mesh) as [[x y] z]. reflexivity.
Qed.

Lemma commit_scene s : sceneInv s -> sceneInv (commitSelectedMeshToState PI s).
Proof.
  intros K. unfold commitSelectedMeshToState.
  destruct (selectedIndex s) as [idx |] eqn:Hs; [| exact K].
  destruct (brickMeshes s !! idx) as [mesh |] eqn:Hm; [| exact K].
  set (mesh' := applySnapToMesh PI RevB (listenerSnap s) (ctrl s) mesh).
  assert (K' : sceneInv (set_brickMeshes (<[idx := mesh']> (brickMeshes s)) s)).
  { destruct K as [K1 K2 K3]. split; try assumption.
    intros i m H. cbn [brickMeshes set_brickMeshes] in H.
    apply list_lookup_insert_Some in H as [(<- & <- & _) | (N & H)].
    - unfold mesh'. rewrite applySnap_visible. apply K1. exact Hm.
    - apply K1. exact H. }
  cbn [bricks set_brickMeshes].
  destruct (bricks s !! idx); [| exact K'].
  revert K'. apply sceneInv_ext; reflexivity.
Qed.

Lemma rebuildDone_scene s : sceneInv s -> sceneInv (rebuildDone s).
Proof.
  intros K. unfold rebuildDone.
  destruct (rebuild s) as [vc |]; [| exact K].
  cbn [selectedIndex set_rebuild].
  assert (K0 : sceneInv (set_rebuild None s))
    by (revert K; apply sceneInv_ext; reflexivity).
  destruct (bool_decide (selectedIndex s = None)); [| exact K0].
  destruct K0 as [K1 K2 K3]. unfold setAutoHighlight. split.
  - apply shows_refresh. exact K1.
  - exact K2.
  - exact K3.
Qed.

Lemma handler_scene e s :
  stable s -> pageInv s -> sceneInv s -> sceneInv (handler e s).
Proof.
  intros St J K. pose proof K as [K1 K2 K3].
  destruct e; cbn [Page.handler].
  - revert K. apply sceneInv_ext; reflexivity.
  - destruct ((0 <=? v) && (v <=? Z.of_nat (length (bricks s))));
      [revert K; apply sceneInv_ext; reflexivity | exact K].
  - revert K. apply sceneInv_ext; reflexivity.
  - revert K. apply sceneInv_ext; reflexivity.
  - revert K. apply sceneInv_ext; reflexivity.
  - revert K. apply sceneInv_ext; reflexivity.
  - revert K. apply sceneInv_ext; reflexivity.
  - apply deselect_scene; assumption.
  - revert K. apply sceneInv_ext; reflexivity.
  - revert K. apply sceneInv_ext; reflexivity.
  - apply onPointerDown_scene; assumption.
  - revert K. apply sceneInv_ext; reflexivity.
  - apply commit_scene. revert K. apply sceneInv_ext; reflexivity.
  - destruct value; [exact K | apply commit_scene; exact K].
  - destruct (attached s) as [i |] eqn:Ha; [| exact K].
    split; [| exact K2 | cbn [attached set_brickMeshes selectedIndex]; congruence].
    intros j m H. cbn [brickMeshes set_brickMeshes] in H.
    destruct (decide (i = j)) as [<- | N].
    + rewrite list_lookup_alter_eq in H.
      destruct (brickMeshes s !! i) as [m0 |] eqn:H0; [| discriminate].
      injection H as <-. cbn [visible]. apply K1. exact H0.
    + rewrite list_lookup_alter_ne in H by exact N. apply K1. exact H.
  - revert K. apply sceneInv_ext; reflexivity.
  - revert K. apply sceneInv_ext; reflexivity.
  - unfold applySelectedColor. cbn [selectedIndex set_selectedHex bricks].
    destruct (selectedIndex s); [| revert K; apply sceneInv_ext; reflexivity].
    destruct (bricks s !! n); revert K; apply sceneInv_ext; reflexivity.
  - apply rebuildDone_scene. exact K.
Qed.

Lemma init_scene text : sceneInv (init text).
Proof.
  unfold Page.init. cbv zeta.
  set (bs := parseBrickDSL uid RevB 0 text).
  set (s0 := mkState _ _ _ _ _ _ _ _ _ _ _ _ _ _ _ _ _ _ _ _).
  pose proof (effects_scene true true true (depsOf s0) s0) as C. cbv zeta in C.
  destruct C as ((Cs & Ct) & Cv); [discriminate |].
  assert (K : core (stepEffect (depsOf s0)
                      (syncEffect (depsOf s0) (rebuildProgressive (depsOf s0) s0)))
              = core s0).
  { rewrite stepEffect_core, syncEffect_core. reflexivity. }
  apply core_fields in K. destruct K as (_ & _ & _ & _ & _ & _ & K7).
  set (s1 := stepEffect _ _) in *.
  split.
  - unfold renderedCount. rewrite K7. exact Cv.
  - intros i H. congruence.
  - congruence.
Qed.

(** Every state the page can be in satisfies the scene invariant. *)
Lemma reachable_scene s : reachable s -> sceneInv s.
Proof.
  induction 1 as [text | s e R K].
  - apply init_scene.
  - destruct (reachable_inv PI uid s R) as [J St].
    apply settle_scene; [apply handler_inv; assumption | apply handler_scene; assumption].
Qed.

Lemma reachable_count s : reachable s -> renderedCount s = step s.
Proof.
  intros R. destruct (reachable_inv PI uid s R) as [J St].
  pose proof (inv_cursor s J) as C.
  unfold renderedCount. rewrite (stable_step s St) in *.
  unfold visibleCountOf. lia.
Qed.

(** X20 — the scene follows the cursor: in every state the page can be
    in there is one mesh per part, and the mesh of part [i] is visible
    exactly when [i] is below the step cursor. *)
Theorem scene_shows_revealed_parts (s : State) :
  reachable s ->
  length (brickMeshes s) = length (bricks s)
  /\ forall i m, brickMeshes s !! i = Some m -> visible m = (Z.of_nat i <? step s).
Proof.
  intros R. destruct (reachable_inv PI uid s R) as [J St]. split.
  - rewrite (inv_meshes s J). apply stable_len. exact St.
  - rewrite <- (reachable_count s R). exact (scene_shows s (reachable_scene s R)).
Qed.

Lemma selected_mesh s i :
  reachable s -> selectedIndex s = Some i ->
  attached s = Some i
  /\ exists m, brickMeshes s !! i = Some m /\ visible m = true.
Proof.
  intros R Hi. destruct (reachable_inv PI uid s R) as [J St].
  pose proof (reachable_scene s R) as [K1 K2 K3].
  pose proof (K2 i Hi) as Li.
  pose proof (inv_cursor s J) as Cur.
  split; [congruence |].
  destruct (lookup_lt_is_Some_2 (brickMeshes s) i) as [m Hm].
  { rewrite (inv_meshes s J). unfold renderedCount, visibleCountOf in Li. lia. }
  exists m. split; [exact Hm |]. rewrite (K1 i m Hm). apply Z.ltb_lt. exact Li.
Qed.

(** X21 — the selected part is a revealed one and holds the gizmo: in
    every state the page can be in, a selected index is below the step
    cursor, its mesh is visible and carries the selection emphasis, its
    part exists, and the gizmo is attached to that mesh and to no other. *)
Theorem selection_is_revealed_and_attached (s : State) :
  reachable s ->
  attached s = selectedIndex s
  /\ forall i, selectedIndex s = Some i ->
       Z.of_nat i < step s
       /\ (exists m, brickMeshes s !! i = Some m /\ visible m = true
                     /\ emissive m = SelectEmphasis)
       /\ (exists b, bricks s !! i = Some b).
Proof.
  intros R. destruct (reachable_inv PI uid s R) as [J St].
  pose proof (reachable_scene s R) as [K1 K2 K3].
  pose proof (reachable_count s R) as C. pose proof (inv_cursor s J) as Cur.
  rewrite (stable_len s St) in Cur.
  split; [exact K3 |]. intros i Hi.
  pose proof (K2 i Hi) as Li. rewrite C in Li.
  split; [exact Li | split].
  - destruct (lookup_lt_is_Some_2 (brickMeshes s) i) as [m Hm].
    { rewrite (inv_meshes s J), (stable_len s St). lia. }
    exists m. split; [exact Hm | split].
    + rewrite (K1 i m Hm), C. apply Z.ltb_lt. exact Li.
    + rewrite (inv_emissive s J i m Hm). unfold emphasisOf.
      rewrite bool_decide_eq_true_2 by exact Hi. reflexivity.
  - apply lookup_lt_is_Some_2. lia.
Qed.

(** *** Selection and the cursor *)

Lemma effects_selection (b1 b2 b3 : bool) cur s :
  let s1 := if b1 then rebuildProgressive cur s else s in
  let s2 := if b2 then syncEffect cur s1 else s1 in
  let s3 := if b3 then stepEffect cur s2 else s2 in
  if b1 then selectedIndex s3 = None /\ attached s3 = None
  else selectedIndex s3 = selectedIndex s /\ attached s3 = attached s.
Proof.
  intros s1 s2 s3.
  assert (F1 : if b1 then selectedIndex s1 = None /\ attached s1 = None else s1 = s).
  { unfold s1. destruct b1; [| reflexivity].
    destruct (rebuild_scene cur s) as (_ & B & C & _). auto. }
  assert (F2 : selectedIndex s2 = selectedIndex s1 /\ attached s2 = attached s1).
  { unfold s2. destruct b2; [| auto].
    destruct (syncEffect_refs PI cur s1) as (A & _). split; [exact A |].
    unfold Page.syncEffect. destruct (brickMeshes s1); reflexivity. }
  assert (F3 : selectedIndex s3 = selectedIndex s2 /\ attached s3 = attached s2).
  { unfold s3. destruct b3; [| auto].
    destruct (step_scene cur s2) as (_ & B & C & _). auto. }
  clearbody s1 s2 s3. destruct F2, F3.
  destruct b1; [destruct F1 | subst s1]; split; congruence.
Qed.

(** A pass that sees the cursor moved drops the selection; no pass makes
    one. *)
Lemma renderPass_selection s :
  (d_step (rendered s) <> step s ->
   selectedIndex (renderPass s) = None /\ attached (renderPass s) = None)
  /\ (selectedIndex s = None -> attached s = None ->
      selectedIndex (renderPass s) = None /\ attached (renderPass s) = None).
Proof.
  destruct (renderPass_refs PI uid s) as (Rs & _ & _ & _ & _ & Rt). cbv zeta in *.
  unfold Page.runEffects in Rs, Rt. cbv zeta in *.
  match type of Rs with
  | _ = selectedIndex (if ?b3 then _ else if ?b2 then _ (if ?b1 then _ else ?s0) else _) =>
      pose proof (effects_selection b1 b2 b3 (depsOf s) s0) as C; cbv zeta in C;
      set (B1 := b1) in *; set (B2 := b2) in *; set (B3 := b3) in *
  end.
  rewrite <- Rs, <- Rt in C. cbn [selectedIndex attached set_rendered] in C.
  split.
  - intros N. assert (E : B1 = true).
    { unfold B1. cbn [d_step depsOf].
      rewrite (bool_decide_eq_false_2 (d_step (rendered s) = step s)) by exact N.
      cbn [negb]. rewrite orb_true_r. reflexivity. }
    rewrite E in C. exact C.
  - intros Hs Ha. destruct B1; destruct C; split; congruence.
Qed.

Lemma renderPass_rendered_step s : d_step (rendered (renderPass s)) = step s.
Proof.
  destruct (renderPass_fields PI uid s) as (_ & _ & R & _). rewrite R. reflexivity.
Qed.

Lemma settle_deselects n :
  forall s,
    d_step (rendered s) <> step (settle n s)
    \/ (selectedIndex s = None /\ attached s = None) ->
    stable (settle n s) ->
    selectedIndex (settle n s) = None /\ attached (settle n s) = None.
Proof.
  induction n as [| n IH]; intros s H St; cbn [Page.settle] in *.
  - assert (St0 : stable s) by (destruct (bool_decide (rendered s = depsOf s)); exact St).
    assert (E : settle 0 s = s) by (cbn [Page.settle]; destruct (bool_decide _); reflexivity).
    destruct (bool_decide (rendered s = depsOf s)).
    + destruct H as [H | H]; [| exact H]. exfalso. apply H. apply stable_step. exact St0.
    + destruct H as [H | H]; [| exact H]. exfalso. apply H. apply stable_step. exact St0.
  - destruct (bool_decide_reflect (rendered s = depsOf s)) as [E | E].
    + destruct H as [H | H]; [| exact H]. exfalso. apply H. apply stable_step. exact E.
    + destruct (renderPass_selection s) as [A B].
      apply IH; [| exact St].
      destruct (Z.eq_dec (d_step (rendered s)) (step s)) as [Es | Ns].
      * destruct H as [H | [Hs Ha]]; [left | right; apply B; assumption].
        rewrite renderPass_rendered_step, <- Es. exact H.
      * right. apply A. exact Ns.
Qed.

Lemma handler_rendered e s : rendered (handler e s) = rendered s.
Proof.
  destruct (classic_text e) as [[text ->] | N]; [reflexivity |].
  apply (handler_frame PI e s N).
Qed.

(** X22 — the selection never survives a move of the step cursor:
    whichever event changes the cursor (a step button or key, the slider,
    or an edit of the text that leaves fewer parts than the cursor), the
    page ends with no part selected and the gizmo detached. *)
Theorem cursor_move_deselects (s : State) (e : event) :
  reachable s ->
  step (handle e s) <> step s ->
  selectedIndex (handle e s) = None /\ attached (handle e s) = None.
Proof.
  intros R N. destruct (reachable_inv PI uid s R) as [J St].
  unfold Page.handle. apply settle_deselects; [| apply settle_stable].
  left. rewrite handler_rendered, (stable_step s St).
  intros E. apply N. unfold Page.handle. symmetry. exact E.
Qed.

(** X23 — the instruction is about the part that glows: in every state
    the page can be in with no part selected and no rebuild awaiting its
    geometries, the auto-highlighted part is the one the instruction text
    describes, its mesh carries the auto emphasis, and no part is
    auto-highlighted only at step 0. *)
Theorem instruction_names_highlighted (s : State) :
  reachable s -> selectedIndex s = None -> rebuild s = None ->
  match autoHighlightIdx s with
  | Some i =>
      exists b m, bricks s !! i = Some b /\ brickMeshes s !! i = Some m
                  /\ emissive m = AutoEmphasis
                  /\ Naming.instructionText RevB (bricks s) (step s)
                     = Naming.placeText RevB b
  | None => step s = 0
  end.
Proof.
  intros R Hs Hr. destruct (reachable_inv PI uid s R) as [J St].
  pose proof (inv_auto s J Hs Hr) as A. rewrite (reachable_count s R) in A.
  pose proof (inv_cursor s J) as Cur. rewrite (stable_len s St) in Cur.
  assert (V : visibleCountOf (step s) (length (bricks s)) = step s)
    by (unfold visibleCountOf; lia).
  rewrite A. unfold lastRevealed. destruct (0 <? step s) eqn:P.
  - apply Z.ltb_lt in P.
    destruct (lookup_lt_is_Some_2 (bricks s) (Z.to_nat (step s - 1))) as [b Hb]; [lia |].
    destruct (lookup_lt_is_Some_2 (brickMeshes s) (Z.to_nat (step s - 1))) as [m Hm].
    { rewrite (inv_meshes s J), (stable_len s St). lia. }
    exists b, m. split; [exact Hb | split; [exact Hm | split]].
    + rewrite (inv_emissive s J _ m Hm), A, Hs. unfold emphasisOf, lastRevealed.
      replace (0 <? step s) with true by (symmetry; apply Z.ltb_lt; exact P).
      rewrite bool_decide_eq_false_2 by discriminate.
      rewrite !bool_decide_eq_true_2 by reflexivity. reflexivity.
    + unfold Naming.instructionText, Naming.instructionBrick. rewrite V.
      unfold lastRevealed.
      replace (0 <? step s) with true by (symmetry; apply Z.ltb_lt; exact P).
      rewrite Hb.
      replace (length (bricks s) =? 0)%nat with false
        by (symmetry; apply Nat.eqb_neq; lia).
      replace (step s =? 0) with false by (symmetry; apply Z.eqb_neq; lia).
      reflexivity.
  - apply Z.ltb_ge in P. lia.
Qed.

(** *** Edits of one part *)

(** The renders after an edit that replaces the part list by one of the
    same length and kinds: one pass, which runs the sync effect only. *)
Lemma settle_edit n s0 :
  d_text (rendered s0) = scadInput s0 -> d_len (rendered s0) = length (bricks s0) ->
  d_kindsKey (rendered s0) = kindsKey (bricks s0) -> d_step (rendered s0) = step s0 ->
  d_geom (rendered s0) = geomId s0 ->
  settle (S n) s0
  = if bool_decide (rendered s0 = depsOf s0) then s0
    else syncEffect (depsOf s0) (set_rendered (depsOf s0) s0).
Proof.
  intros Ht Hl Hk Hs Hg. cbn [Page.settle].
  destruct (bool_decide_reflect (rendered s0 = depsOf s0)) as [E | E]; [reflexivity |].
  assert (Ni : d_bricksId (rendered s0) <> bricksId s0).
  { intros Hi. apply E. destruct (rendered s0) as [t i l k st g].
    cbn [d_text d_bricksId d_len d_kindsKey d_step d_geom] in *. subst. reflexivity. }
  assert (P : renderPass s0 = syncEffect (depsOf s0) (set_rendered (depsOf s0) s0)).
  { unfold Page.renderPass, textChanged, lenChanged. cbv zeta.
    rewrite (bool_decide_eq_true_2 _ Ht), (bool_decide_eq_true_2 _ Hl). cbn [negb].
    unfold Page.runEffects. cbv zeta. cbn [d_bricksId d_len d_kindsKey d_step d_geom depsOf].
    rewrite (bool_decide_eq_true_2 _ Hl), (bool_decide_eq_true_2 _ Hk),
      (bool_decide_eq_true_2 _ Hs), (bool_decide_eq_true_2 _ Hg),
      (bool_decide_eq_false_2 _ Ni).
    reflexivity. }
  rewrite P.
  assert (St : stable (syncEffect (depsOf s0) (set_rendered (depsOf s0) s0))).
  { pose proof (syncEffect_core PI (depsOf s0) (set_rendered (depsOf s0) s0)) as C.
    apply core_fields in C. destruct C as (C1 & C2 & C3 & C4 & C5 & C6 & C7).
    set (X := syncEffect (depsOf s0) (set_rendered (depsOf s0) s0)) in *.
    unfold stable. unfold depsOf at 1. rewrite C1, C2, C3, C4, C5, C7. reflexivity. }
  destruct n as [| n]; cbn [Page.settle].
  - destruct (bool_decide _); reflexivity.
  - rewrite (bool_decide_eq_true_2 _ St). reflexivity.
Qed.

Lemma sync_fields cur s :
  selectedIndex (syncEffect cur s) = selectedIndex s
  /\ attached (syncEffect cur s) = attached s
  /\ selectedHex (syncEffect cur s) = selectedHex s
  /\ bricks (syncEffect cur s) = bricks s /\ step (syncEffect cur s) = step s
  /\ listenerSnap (syncEffect cur s) = listenerSnap s
  /\ ctrl (syncEffect cur s) = ctrl s.
Proof.
  unfold Page.syncEffect. destruct (brickMeshes s); repeat split; reflexivity.
Qed.


Lemma kindsKey_insert bs i b b' :
  bs !! i = Some b -> kind b' = kind b -> kindsKey (<[i := b']> bs) = kindsKey bs.
Proof.
  intros H K. unfold kindsKey. f_equal.
  change (kind <$> <[i := b']> bs = kind <$> bs).
  rewrite list_fmap_insert. apply list_insert_id.
  rewrite list_lookup_fmap, H, K. reflexivity.
Qed.

(** X24 — a colour edit touches the colour of the selected part only and
    keeps the selection: the parts, the cursor and the selection are as
    before but for that colour, and, for a well-formed colour string,
    clicking the part again puts the same string back in the colour
    input. *)
Theorem color_edit_keeps_selection (s : State) (idx : nat) (b : Brick) (hex : string) :
  reachable s -> selectedIndex s = Some idx -> bricks s !! idx = Some b ->
  let s' := handle (ColorInput hex) s in
  bricks s'
  = <[idx := mkBrick (id b) (kind b) (xMm b) (yMm b) (zMm b) (rotX b) (rotY b) (rotZ b)
                     (Color.hexToRgb01 hex)]> (bricks s)
  /\ step s' = step s /\ selectedIndex s' = Some idx /\ attached s' = Some idx
  /\ selectedHex s' = hex
  /\ (Color.isHexColor hex = true -> gizmoActive s = false ->
      selectedHex (handle (PointerDown (Some idx)) s') = hex).
Proof.
  intros R Hs Hb s'.
  destruct (reachable_inv PI uid s R) as [J St].
  destruct (selected_mesh s idx R Hs) as (At & m & Hm & Vm).
  set (b' := mkBrick (id b) (kind b) (xMm b) (yMm b) (zMm b) (rotX b) (rotY b) (rotZ b)
                     (Color.hexToRgb01 hex)).
  set (s0 := handler (ColorInput hex) s).
  assert (E0 : s0 = set_bricks (<[idx := b']> (bricks s)) (set_selectedHex hex s)).
  { unfold s0. cbn [Page.handler]. unfold applySelectedColor.
    cbn [selectedIndex set_selectedHex bricks]. rewrite Hs, Hb. reflexivity. }
  assert (E1 : s' = if bool_decide (rendered s0 = depsOf s0) then s0
                    else syncEffect (depsOf s0) (set_rendered (depsOf s0) s0)).
  { unfold s', Page.handle. fold s0. apply settle_edit; rewrite E0;
      cbn [rendered scadInput bricks step geomId set_bricks set_selectedHex];
      rewrite St; cbn [d_text d_len d_kindsKey d_step d_geom depsOf]; try reflexivity.
    - rewrite length_insert. reflexivity.
    - symmetry. apply (kindsKey_insert _ _ b); [exact Hb | reflexivity]. }
  assert (F : bricks s' = <[idx := b']> (bricks s) /\ step s' = step s
              /\ selectedIndex s' = Some idx /\ attached s' = Some idx
              /\ selectedHex s' = hex /\ gizmoActive s' = gizmoActive s).
  { rewrite E1. destruct (bool_decide _).
    - rewrite E0. cbn. rewrite At. repeat split; try reflexivity; assumption.
    - destruct (sync_fields (depsOf s0) (set_rendered (depsOf s0) s0))
        as (F1 & F2 & F3 & F4 & F5 & _).
      rewrite F1, F2, F3, F4, F5, E0. cbn. rewrite At. repeat split; try assumption.
      unfold Page.syncEffect. destruct (brickMeshes _); reflexivity. }
  destruct F as (Fb & Fs & Fi & Fa & Fh & Fg).
  repeat split; try assumption.
  intros Hx Hg.
  assert (R' : reachable s') by (constructor; exact R).
  destruct (reachable_inv PI uid s' R') as [J' St'].
  destruct (selected_mesh s' idx R' Fi) as (_ & m' & Hm' & Vm').
  assert (Hb' : bricks s' !! idx = Some b').
  { rewrite Fb. apply list_lookup_insert_eq. eapply lookup_lt_Some. exact Hb. }
  set (s1 := handler (PointerDown (Some idx)) s').
  assert (H1 : selectedHex s1 = Color.rgb01ToHex (Color.hexToRgb01 hex)
               /\ rendered s1 = rendered s' /\ scadInput s1 = scadInput s'
               /\ bricks s1 = bricks s' /\ step s1 = step s' /\ bricksId s1 = bricksId s'
               /\ geomId s1 = geomId s').
  { unfold s1. cbn [Page.handler]. unfold onPointerDown. rewrite Fg, Hg.
    destruct (brickMeshes s') as [| m0 rest] eqn:E; [rewrite lookup_nil in Hm'; discriminate |].
    rewrite <- E in *. rewrite Hm', Vm'. cbn [bricks set_selectedIndex]. rewrite Hb'.
    repeat split. }
  destruct H1 as (H1 & H2 & H3 & H4 & H5 & H6 & H7).
  assert (St1 : stable s1).
  { unfold stable, depsOf. rewrite H2, H3, H4, H5, H6, H7. exact St'. }
  unfold Page.handle. fold s1.
  rewrite (settle_id 3 s1 St1), H1.
  destruct hex as [| c0 [| c1 [| c2 [| c3 [| c4 [| c5 [| c6 [| ? ?]]]]]]]];
    try discriminate Hx;
    try (destruct c0 as [[] [] [] [] [] [] [] []]; discriminate Hx).
  destruct c0 as [[] [] [] [] [] [] [] []]; try discriminate Hx.
  cbn [Color.isHexColor] in Hx.
  repeat (apply andb_prop in Hx; destruct Hx as [Hx ?]).
  destruct (ColorFacts.lowerHex_val c1) as (v1 & E1' & B1 & D1); [assumption |].
  destruct (ColorFacts.lowerHex_val c2) as (v2 & E2' & B2 & D2); [assumption |].
  destruct (ColorFacts.lowerHex_val c3) as (v3 & E3' & B3 & D3); [assumption |].
  destruct (ColorFacts.lowerHex_val c4) as (v4 & E4' & B4 & D4); [assumption |].
  destruct (ColorFacts.lowerHex_val c5) as (v5 & E5' & B5 & D5); [assumption |].
  destruct (ColorFacts.lowerHex_val c6) as (v6 & E6' & B6 & D6); [assumption |].
  rewrite (ColorFacts.hexToRgb01_digits c1 c2 c3 c4 c5 c6 v1 v2 v3 v4 v5 v6) by assumption.
  unfold Color.rgb01ToHex.
  rewrite !ColorFacts.to_byte by lia. rewrite !ColorFacts.byte_of_digits by lia.
  rewrite D1, D2, D3, D4, D5, D6. cbv [String.append]. reflexivity.
Qed.

(** *** The snap options and the two release listeners *)

Lemma commit_of_fields s t :
  selectedIndex t = selectedIndex s -> brickMeshes t = brickMeshes s ->
  bricks t = bricks s -> listenerSnap t = listenerSnap s -> ctrl t = ctrl s ->
  bricks (commitSelectedMeshToState PI t) = bricks (commitSelectedMeshToState PI s).
Proof.
  intros E1 E2 E3 E4 E5. rewrite !commit_bricks, E1, E2, E3, E4, E5. reflexivity.
Qed.

(** X25 — the snap check boxes never reach the commit: the gizmo
    listeners were registered by the mount effect, so whatever the three
    snap options are set to later, a release commits what it would have
    committed with the options of the first render (all three on). *)
Theorem snap_checkboxes_never_reach_commit (s : State) (o : SnapOptions) (e : event) :
  reachable s ->
  e = GizmoMouseUp \/ e = DraggingChanged false ->
  let s1 := handle (SetSnap o) s in
  snap s1 = o /\ listenerSnap s1 = allSnaps
  /\ bricks (handle e s1) = bricks (handle e s).
Proof.
  intros R He s1. destruct (reachable_inv PI uid s R) as [J St].
  assert (E1 : s1 = set_snap o s).
  { unfold s1, Page.handle. cbn [Page.handler]. apply settle_id. exact St. }
  assert (St1 : stable s1) by (rewrite E1; exact St).
  split; [rewrite E1; reflexivity | split].
  - rewrite E1. exact (listenerSnap_fixed PI uid s R).
  - rewrite (release_bricks PI uid s1 e St1 He), (release_bricks PI uid s e St He).
    apply commit_of_fields; rewrite E1; reflexivity.
Qed.









End WithParams.

(** *** The theorems at the sample states *)

Import Samples PageExamples.

Lemma scene_shows_revealed_parts_witness :
  length (brickMeshes draggedState) = length (bricks draggedState)
  /\ forall i m, brickMeshes draggedState !! i = Some m ->
                 visible m = (Z.of_nat i <? step draggedState).
Proof.
  exact (scene_shows_revealed_parts pi_approx uid0 draggedState draggedState_reachable).
Defined.

Lemma selection_is_revealed_and_attached_witness :
  attached draggedState = selectedIndex draggedState
  /\ forall i, selectedIndex draggedState = Some i ->
       Z.of_nat i < step draggedState
       /\ (exists m, brickMeshes draggedState !! i = Some m /\ visible m = true
                     /\ emissive m = SelectEmphasis)
       /\ (exists b, bricks draggedState !! i = Some b).
Proof.
  exact (selection_is_revealed_and_attached pi_approx uid0 draggedState
           draggedState_reachable).
Defined.

Lemma cursor_move_deselects_witness :
  selectedIndex (handle pi_approx uid0 Prev draggedState) = None
  /\ attached (handle pi_approx uid0 Prev draggedState) = None.
Proof.
  apply (cursor_move_deselects pi_approx uid0 draggedState Prev draggedState_reachable).
  vm_compute. discriminate.
Defined.

Lemma instruction_names_highlighted_witness :
  match autoHighlightIdx steppedState with
  | Some i =>
      exists b m, bricks steppedState !! i = Some b /\ brickMeshes steppedState !! i = Some m
                  /\ emissive m = AutoEmphasis
                  /\ Naming.instructionText RevB (bricks steppedState) (step steppedState)
                     = Naming.placeText RevB b
  | None => step steppedState = 0
  end.
Proof.
  apply (instruction_names_highlighted pi_approx uid0 steppedState steppedState_reachable);
    vm_compute; reflexivity.
Defined.

Lemma color_edit_keeps_selection_witness :
  let s' := handle pi_approx uid0 (ColorInput "#00ff7f") draggedState in
  bricks s'
  = <[0%nat := mkBrick (id firstPart) (kind firstPart) (xMm firstPart) (yMm firstPart)
                       (zMm firstPart) (rotX firstPart) (rotY firstPart) (rotZ firstPart)
                       (Color.hexToRgb01 "#00ff7f")]> (bricks draggedState)
  /\ selectedIndex s' = Some 0%nat.
Proof.
  destruct (color_edit_keeps_selection pi_approx uid0 draggedState 0 firstPart "#00ff7f"
              draggedState_reachable) as (H1 & _ & H3 & _).
  - vm_compute. reflexivity.
  - by_eval.
  - exact (conj H1 H3).
Defined.

Lemma snap_checkboxes_never_reach_commit_witness :
  let s1 := handle pi_approx uid0 (SetSnap (mkSnap false false false)) draggedState in
  snap s1 = mkSnap false false false /\ listenerSnap s1 = allSnaps
  /\ bricks (handle pi_approx uid0 GizmoMouseUp s1)
     = bricks (handle pi_approx uid0 GizmoMouseUp draggedState).
Proof.
  apply (snap_checkboxes_never_reach_commit pi_approx uid0 draggedState
           (mkSnap false false false) GizmoMouseUp draggedState_reachable).
  left. reflexivity.
Defined.


End PageProps.

(** ** The tint of revision A *)

Module TintProps.
Import Parser Blend PageA.

Lemma highlight_fields i on s :
  bricks (setBrickHighlight i on s) = bricks s
  /\ step (setBrickHighlight i on s) = step s
  /\ selectedHex (setBrickHighlight i on s) = selectedHex s
  /\ selectedIndex (setBrickHighlight i on s) = selectedIndex s
  /\ prevSelectedIndex (setBrickHighlight i on s) = prevSelectedIndex s
  /\ rebuild (setBrickHighlight i on s) = rebuild s
  /\ length (brickMeshes (setBrickHighlight i on s)) = length (brickMeshes s).
Proof.
  unfold setBrickHighlight.
  destruct (brickMeshes s !! i) as [mesh |], (bricks s !! i) as [b |]; cbn;
    repeat split; try reflexivity.
  apply length_insert.
Qed.

(** What [setBrickHighlight] leaves in a mesh. *)
Lemma highlight_lookup i on s j m :
  (∀ k, is_Some (brickMeshes s !! k) -> is_Some (bricks s !! k)) ->
  brickMeshes (setBrickHighlight i on s) !! j = Some m ->
  ∃ m0, brickMeshes s !! j = Some m0 /\ shown m = shown m0
        /\ (j <> i -> m = m0)
        /\ (j = i -> ∃ b, bricks s !! i = Some b /\ matColor m = tinted on b).
Proof.
  intros C. unfold setBrickHighlight.
  destruct (brickMeshes s !! i) as [mesh |] eqn:M.
  - destruct (C i) as [b B]; [rewrite M; eauto |]. rewrite B. cbn [brickMeshes set_brickMeshes].
    destruct (decide (j = i)) as [-> | N].
    + rewrite list_lookup_insert_eq by (eapply lookup_lt_Some; exact M).
      intros [= <-]. exists mesh. repeat split; [exact M | congruence |].
      intros _. exists b. split; reflexivity.
    + rewrite list_lookup_insert_ne by congruence. intros H. exists m.
      repeat split; [exact H | congruence].
  - intros H. exists m. repeat split; [exact H |]. intros ->. congruence.
Qed.

(** Every mesh stands for a part. *)
Lemma inv_covered s :
  invA s -> ∀ k, is_Some (brickMeshes s !! k) -> is_Some (bricks s !! k).
Proof.
  intros I k [m M]. destruct (inv_tint s I k m M) as (b & B & _). eauto.
Qed.

Lemma untinted (i : nat) b : tinted (bool_decide (None = Some i)) b = color b.
Proof. reflexivity. Qed.

Lemma tinted_other (p i : nat) b : p <> i -> tinted (bool_decide (Some p = Some i)) b = color b.
Proof. intros N. rewrite bool_decide_eq_false_2 by congruence. reflexivity. Qed.

Lemma tinted_same (i : nat) b :
  tinted (bool_decide (Some i = Some i)) b = blend (color b) HIGHLIGHT_RGB HIGHLIGHT_T.
Proof. rewrite bool_decide_eq_true_2 by reflexivity. reflexivity. Qed.

(** Clearing the previous highlight leaves every mesh in the plain colour
    of its part. *)
Lemma clearPrevious_plain s :
  invA s ->
  bricks (clearPrevious s) = bricks s
  /\ step (clearPrevious s) = step s
  /\ rebuild (clearPrevious s) = rebuild s
  /\ length (brickMeshes (clearPrevious s)) = length (brickMeshes s)
  /\ ∀ j m, brickMeshes (clearPrevious s) !! j = Some m ->
            ∃ b, bricks s !! j = Some b /\ matColor m = color b.
Proof.
  intros I. unfold clearPrevious. destruct (prevSelectedIndex s) as [p |] eqn:P.
  - destruct (highlight_fields p false s) as (F1 & F2 & _ & _ & _ & F6 & F7).
    repeat apply conj; try assumption.
    intros j m M.
    destruct (highlight_lookup p false s j m (inv_covered s I) M) as (m0 & M0 & _ & Hne & Heq).
    destruct (decide (j = p)) as [-> | N].
    + destruct (Heq eq_refl) as (b & B & C). exists b. split; [exact B | exact C].
    + rewrite (Hne N). destruct (inv_tint s I j m0 M0) as (b & B & C).
      exists b. split; [exact B |]. rewrite C, <- (inv_prev s I), P.
      apply tinted_other. congruence.
  - repeat apply conj; try reflexivity.
    intros j m M. destruct (inv_tint s I j m M) as (b & B & C).
    exists b. split; [exact B |]. rewrite C, <- (inv_prev s I), P. exact (untinted j b).
Qed.

Lemma deselect_tint s : invA s -> invA (deselect s).
Proof.
  intros I. destruct (clearPrevious_plain s I) as (F1 & F2 & F3 & F4 & T).
  unfold deselect. split; cbn.
  - reflexivity.
  - intros i [=].
  - intros R. rewrite F3 in R. apply length_zero_iff_nil. rewrite F4.
    rewrite (inv_waiting s I R). reflexivity.
  - intros i m M. cbn in M. destruct (T i m M) as (b & B & C).
    exists b. cbn. rewrite F1. split; [exact B | exact C].
Qed.

Lemma rebuildEffect_state s :
  invA (rebuildEffect s)
  /\ brickMeshes (rebuildEffect s) = []
  /\ selectedIndex (rebuildEffect s) = None
  /\ prevSelectedIndex (rebuildEffect s) = None
  /\ bricks (rebuildEffect s) = bricks s
  /\ step (rebuildEffect s) = step s.
Proof.
  assert (V : forall s', brickMeshes s' = [] -> selectedIndex s' = None ->
                         prevSelectedIndex s' = None -> invA s').
  { intros s' M S P. split.
    - congruence.
    - intros i Hi. congruence.
    - intros _. exact M.
    - intros i m Hm. rewrite M, lookup_nil in Hm. discriminate Hm. }
  unfold rebuildEffect. cbn. destruct (bricks s) as [| b bs] eqn:B.
  - unfold rebuildDone. cbn. rewrite B.
    repeat apply conj; try reflexivity. apply V; reflexivity.
  - repeat apply conj; try reflexivity; try exact B. apply V; reflexivity.
Qed.

Lemma syncEffect_empty s : brickMeshes s = [] -> syncEffect s = s.
Proof. intros E. unfold syncEffect. rewrite E. reflexivity. Qed.

Lemma syncEffect_fields s :
  bricks (syncEffect s) = bricks s /\ step (syncEffect s) = step s
  /\ selectedIndex (syncEffect s) = selectedIndex s
  /\ prevSelectedIndex (syncEffect s) = prevSelectedIndex s
  /\ rebuild (syncEffect s) = rebuild s
  /\ selectedHex (syncEffect s) = selectedHex s.
Proof.
  unfold syncEffect. destruct (brickMeshes s); cbn; repeat split; reflexivity.
Qed.

Lemma syncEffect_lookup s i :
  brickMeshes (syncEffect s) !! i
  = (fun mesh => match bricks s !! i with
                 | None => mesh
                 | Some b =>
                     mkMeshA (tinted (bool_decide (selectedIndex s = Some i)) b)
                             (Z.of_nat i <? Page.visibleCountOf (step s) (length (bricks s)))
                 end) <$> brickMeshes s !! i.
Proof.
  unfold syncEffect. destruct (brickMeshes s) as [| m ms] eqn:M.
  - rewrite M, lookup_nil. reflexivity.
  - cbn [brickMeshes set_brickMeshes]. rewrite list_lookup_imap. reflexivity.
Qed.

(** The sync effect tints afresh, whatever the colours were. *)
Lemma syncEffect_tint s :
  prevSelectedIndex s = selectedIndex s ->
  (∀ i, selectedIndex s = Some i -> is_Some (brickMeshes s !! i)) ->
  (rebuild s <> None -> brickMeshes s = []) ->
  (∀ k, is_Some (brickMeshes s !! k) -> is_Some (bricks s !! k)) ->
  invA (syncEffect s).
Proof.
  intros P S W C.
  destruct (syncEffect_fields s) as (F1 & F2 & F3 & F4 & F5 & _).
  split.
  - rewrite F3, F4. exact P.
  - intros i Hi. rewrite F3 in Hi. rewrite syncEffect_lookup.
    destruct (S i Hi) as [m M]. rewrite M. cbn. eauto.
  - intros R. rewrite F5 in R. rewrite syncEffect_empty by exact (W R). exact (W R).
  - intros i m M. rewrite syncEffect_lookup in M.
    destruct (brickMeshes s !! i) as [m0 |] eqn:M0; [| discriminate M].
    destruct (C i) as [b B]; [rewrite M0; eauto |].
    rewrite B in M. cbn in M. injection M as <-.
    exists b. rewrite F1, F3. split; [exact B | reflexivity].
Qed.

Lemma rebuildDone_tint s : invA s -> invA (rebuildDone s).
Proof.
  intros I. unfold rebuildDone. destruct (rebuild s) as [stp |] eqn:R; [| exact I].
  assert (E : brickMeshes s = []) by (apply (inv_waiting s I); congruence).
  assert (N : selectedIndex s = None).
  { destruct (selectedIndex s) as [i |] eqn:Si; [| reflexivity].
    destruct (inv_selected s I i Si) as [m M]. rewrite E, lookup_nil in M. discriminate M. }
  split; cbn.
  - exact (inv_prev s I).
  - intros i Hi. congruence.
  - congruence.
  - intros i m M. cbn in M. unfold newMeshes in M. rewrite list_lookup_imap in M.
    destruct (bricks s !! i) as [b |] eqn:B; [| discriminate M].
    cbn in M. injection M as <-. exists b. cbn. rewrite B, N. split; reflexivity.
Qed.

Lemma rebuildFailed_tint s : invA s -> invA (rebuildFailed s).
Proof.
  intros [P S W T]. unfold rebuildFailed. split; cbn; try assumption. congruence.
Qed.

(** A render that rebuilds leaves no mesh and no selection, whatever the
    state before. *)
Lemma effects_rebuild dBricks dStep dLen dKinds dGeom s :
  dGeom || dStep || dLen || dKinds = true ->
  invA (effects dBricks dStep dLen dKinds dGeom s)
  /\ brickMeshes (effects dBricks dStep dLen dKinds dGeom s) = []
  /\ selectedIndex (effects dBricks dStep dLen dKinds dGeom s) = None
  /\ prevSelectedIndex (effects dBricks dStep dLen dKinds dGeom s) = None.
Proof.
  intros F. unfold effects. rewrite F.
  set (s1 := if dStep then autoHighlightEffect s else s).
  destruct (rebuildEffect_state s1) as (I & E & S & P & _).
  rewrite (syncEffect_empty _ E). destruct (dBricks || dStep); repeat apply conj; assumption.
Qed.

Lemma set_selectedHex_tint hex s : invA s -> invA (set_selectedHex hex s).
Proof. intros [P S W T]. split; assumption. Qed.

Lemma setBricks_tint bs s : invA s -> invA (setBricks bs s).
Proof.
  intros I. unfold setBricks.
  set (dLen := negb (length bs =? length (bricks s))%nat).
  set (dKinds := negb (String.eqb (Page.kindsKey bs) (Page.kindsKey (bricks s)))).
  set (s1 := effects true false dLen dKinds false (set_bricks bs s)).
  assert (I1 : invA s1).
  { destruct (dLen || dKinds) eqn:D.
    - apply effects_rebuild. exact D.
    - apply orb_false_elim in D. destruct D as [DL DK].
      subst s1. rewrite DL, DK. unfold effects. cbn [orb].
      apply negb_false_iff, Nat.eqb_eq in DL.
      apply syncEffect_tint; cbn.
      + exact (inv_prev s I).
      + exact (inv_selected s I).
      + exact (inv_waiting s I).
      + intros k Hk. apply (inv_covered s I) in Hk.
        apply lookup_lt_is_Some_2. apply lookup_lt_is_Some_1 in Hk. lia. }
  destruct (dLen && negb (Z.min (step s1) (Z.of_nat (length bs)) =? step s1)).
  - apply effects_rebuild. reflexivity.
  - exact I1.
Qed.

Lemma setStep_tint v s : invA s -> invA (setStep v s).
Proof.
  intros I. unfold setStep. destruct (v =? step s); [exact I |].
  apply effects_rebuild. reflexivity.
Qed.

Lemma onPointerDown_tint hit s : invA s -> invA (onPointerDown hit s).
Proof.
  intros I. unfold onPointerDown.
  destruct (brickMeshes s) as [| m0 ms] eqn:Ms; [exact I |]. rewrite <- Ms.
  destruct hit as [idx |]; [| apply deselect_tint; exact I].
  destruct (brickMeshes s !! idx) as [mesh |] eqn:M; [| exact I].
  destruct (shown mesh); [| exact I].
  destruct (clearPrevious_plain s I) as (F1 & F2 & F3 & F4 & T).
  set (s1 := clearPrevious s) in *. cbn [bricks set_selectedIndex set_prevSelectedIndex].
  destruct (inv_covered s I idx) as [b B]; [rewrite M; eauto |].
  rewrite F1, B.
  set (s3 := set_selectedHex _ _).
  assert (C3 : ∀ k, is_Some (brickMeshes s3 !! k) -> is_Some (bricks s3 !! k)).
  { intros k Hk. cbn in *. rewrite F1. apply (inv_covered s I).
    apply lookup_lt_is_Some_2. apply lookup_lt_is_Some_1 in Hk. lia. }
  destruct (highlight_fields idx true s3) as (G1 & G2 & _ & G4 & G5 & G6 & G7).
  split.
  - rewrite G4, G5. reflexivity.
  - intros i Hi. rewrite G4 in Hi. cbn in Hi. injection Hi as <-.
    apply lookup_lt_is_Some_2. rewrite G7. cbn. rewrite F4.
    eapply lookup_lt_Some. exact M.
  - intros R. rewrite G6 in R. cbn in R. rewrite F3 in R.
    rewrite (inv_waiting s I R) in Ms. discriminate Ms.
  - intros j m Mj.
    destruct (highlight_lookup idx true s3 j m C3 Mj) as (m1 & M1 & _ & Hne & Heq).
    rewrite G1, G4. cbn [bricks selectedIndex s3 set_selectedHex set_selectedIndex
                          set_prevSelectedIndex]. rewrite F1.
    destruct (decide (j = idx)) as [-> | N].
    + destruct (Heq eq_refl) as (b' & B' & C'). cbn in B'. rewrite F1 in B'.
      exists b'. split; [exact B' |]. rewrite C'. symmetry. apply tinted_same.
    + rewrite (Hne N). cbn in M1. destruct (T j m1 M1) as (b' & B' & C').
      exists b'. split; [exact B' |]. rewrite C'. symmetry. apply tinted_other. congruence.
Qed.

Lemma applySelectedColor_tint hex s : invA s -> invA (applySelectedColor hex s).
Proof.
  intros I. unfold applySelectedColor.
  destruct (selectedIndex s) as [idx |]; [| exact I].
  destruct (bricks s !! idx) as [b |]; [| exact I].
  apply setBricks_tint. exact I.
Qed.

Lemma handler_tint e s : invA s -> invA (handler e s).
Proof.
  intros I. destruct e; cbn [handler].
  - apply setStep_tint; exact I.
  - apply setBricks_tint; exact I.
  - apply effects_rebuild. reflexivity.
  - apply onPointerDown_tint; exact I.
  - apply deselect_tint; exact I.
  - apply applySelectedColor_tint, set_selectedHex_tint; exact I.
  - apply rebuildDone_tint; exact I.
  - apply rebuildFailed_tint; exact I.
Qed.

Lemma reachable_invA s : reachable s -> invA s.
Proof.
  induction 1 as [bs | s e R IH].
  - apply effects_rebuild. reflexivity.
  - apply handler_tint. exact IH.
Qed.

Lemma autoHighlight_fields s :
  bricks (autoHighlightEffect s) = bricks s /\ step (autoHighlightEffect s) = step s.
Proof.
  unfold autoHighlightEffect. destruct (selectedIndex s); [split; reflexivity |].
  destruct (step s - 1 <? 0); [split; reflexivity |].
  match goal with |- context [setBrickHighlight ?i ?on ?x] =>
    destruct (highlight_fields i on x) as (F1 & F2 & _) end.
  rewrite F1, F2. cbn [bricks step set_prevSelectedIndex].
  unfold clearPrevious. destruct (prevSelectedIndex s) as [p |]; [| split; reflexivity].
  destruct (highlight_fields p false s) as (G1 & G2 & _). split; assumption.
Qed.

Lemma rebuildEffect_done s :
  brickMeshes (rebuildDone (rebuildEffect s)) = newMeshes (step s) (bricks s).
Proof.
  unfold rebuildEffect. cbn. destruct (bricks s) as [| b bs] eqn:B.
  - unfold rebuildDone. cbn. rewrite ?B. reflexivity.
  - unfold rebuildDone. cbn. rewrite ?B. reflexivity.
Qed.

(** X27 — in revision A the yellow tint marks the selected part and no
    other, in every state the page can reach: each mesh has the colour of
    its part, blended with yellow exactly when that part is selected, and
    the two selection refs agree. *)
Theorem tint_marks_the_selection (s : StateA) :
  reachable s ->
  prevSelectedIndex s = selectedIndex s
  /\ ∀ i m, brickMeshes s !! i = Some m ->
            ∃ b, bricks s !! i = Some b
                 /\ matColor m
                    = if bool_decide (selectedIndex s = Some i)
                      then blend (color b) HIGHLIGHT_RGB HIGHLIGHT_T
                      else color b.
Proof.
  intros R. apply reachable_invA in R. split; [exact (inv_prev s R) |].
  exact (inv_tint s R).
Qed.

Lemma tint_marks_the_selection_witness :
  prevSelectedIndex SamplesA.selectedState = selectedIndex SamplesA.selectedState
  /\ ∀ i m, brickMeshes SamplesA.selectedState !! i = Some m ->
            ∃ b, bricks SamplesA.selectedState !! i = Some b
                 /\ matColor m
                    = if bool_decide (selectedIndex SamplesA.selectedState = Some i)
                      then blend (color b) HIGHLIGHT_RGB HIGHLIGHT_T
                      else color b.
Proof.
  apply (tint_marks_the_selection SamplesA.selectedState).
  unfold SamplesA.selectedState, run. cbn [foldl].
  do 4 apply reach_step. apply reach_init.
Defined.

(** X28 — in revision A the highlight of the part revealed last never
    shows: a change of the cursor empties the scene and both selection
    refs in the same round of effects, and the meshes the rebuild then
    makes have the plain colours of their parts, the first
    [visibleCount] of them visible. *)
Theorem step_change_discards_tint (s : StateA) (v : Z) :
  v <> step s ->
  let s' := setStep v s in
  brickMeshes s' = [] /\ selectedIndex s' = None /\ prevSelectedIndex s' = None
  /\ bricks s' = bricks s /\ step s' = v
  /\ ∀ i m, brickMeshes (rebuildDone s') !! i = Some m ->
            ∃ b, bricks s !! i = Some b /\ matColor m = color b
                 /\ shown m = (Z.of_nat i <? Page.visibleCountOf v (length (bricks s))).
Proof.
  intros N. cbv zeta. unfold setStep.
  destruct (v =? step s) eqn:E; [apply Z.eqb_eq in E; contradiction |].
  unfold effects. cbn [orb].
  set (s1 := autoHighlightEffect (set_step v s)).
  destruct (autoHighlight_fields (set_step v s)) as (A1 & A2). fold s1 in A1, A2.
  cbn [bricks step set_step] in A1, A2.
  destruct (rebuildEffect_state s1) as (_ & M & S & P & B & St).
  rewrite (syncEffect_empty _ M).
  repeat apply conj; try assumption; try congruence.
  intros i m H. rewrite rebuildEffect_done, A1, A2 in H.
  unfold newMeshes in H. rewrite list_lookup_imap in H.
  destruct (bricks s !! i) as [b |]; [| discriminate H].
  cbn in H. injection H as <-. exists b. repeat split; reflexivity.
Qed.

Lemma step_change_discards_tint_witness :
  let s' := setStep 1 SamplesA.selectedState in
  brickMeshes s' = [] /\ selectedIndex s' = None /\ prevSelectedIndex s' = None
  /\ bricks s' = bricks SamplesA.selectedState /\ step s' = 1
  /\ ∀ i m, brickMeshes (rebuildDone s') !! i = Some m ->
            ∃ b, bricks SamplesA.selectedState !! i = Some b /\ matColor m = color b
                 /\ shown m
                    = (Z.of_nat i
                       <? Page.visibleCountOf 1 (length (bricks SamplesA.selectedState))).
Proof.
  apply (step_change_discards_tint SamplesA.selectedState 1).
  vm_compute. discriminate.
Defined.

(** X29 — in revision A a colour chosen while a part is selected becomes
    the colour of that part and of no other, the selection stays, and the
    mesh of the part shows the new colour under the yellow tint. *)
Theorem color_input_retints (s : StateA) (i : nat) (hex : string) :
  reachable s ->
  selectedIndex s = Some i ->
  let s' := handler (ColorInput hex) s in
  selectedIndex s' = Some i
  /\ selectedHex s' = hex
  /\ (∀ j, j <> i -> bricks s' !! j = bricks s !! j)
  /\ ∃ b m, bricks s' !! i = Some b /\ color b = Color.hexToRgb01 hex
            /\ brickMeshes s' !! i = Some m
            /\ matColor m = blend (Color.hexToRgb01 hex) HIGHLIGHT_RGB HIGHLIGHT_T.
Proof.
  intros R S. cbv zeta. apply reachable_invA in R.
  destruct (inv_selected s R i S) as [m M].
  destruct (inv_covered s R i) as [b B]; [rewrite M; eauto |].
  cbn [handler]. unfold applySelectedColor.
  cbn [selectedIndex bricks set_selectedHex]. rewrite S, B.
  set (b' := mkBrick _ _ _ _ _ _ _ _ _).
  set (s0 := set_selectedHex hex s).
  unfold setBricks. cbn [bricks s0 set_selectedHex].
  rewrite length_insert, Nat.eqb_refl.
  rewrite (PageProps.kindsKey_insert (bricks s) i b b' B eq_refl), String.eqb_refl.
  cbn [negb andb]. unfold effects. cbn [orb].
  set (s1 := set_bricks _ s0).
  destruct (syncEffect_fields s1) as (F1 & F2 & F3 & F4 & F5 & F6).
  assert (B' : bricks s1 !! i = Some b').
  { cbn. apply list_lookup_insert_eq. eapply lookup_lt_Some. exact B. }
  repeat apply conj.
  - rewrite F3. exact S.
  - rewrite F6. reflexivity.
  - intros j Nj. rewrite F1. cbn. apply list_lookup_insert_ne. congruence.
  - exists b'. eexists. rewrite F1. split; [exact B' |]. split; [reflexivity |].
    rewrite syncEffect_lookup. cbn [brickMeshes s1 s0 set_bricks set_selectedHex].
    rewrite M. cbn [fmap option_fmap option_map]. rewrite B'.
    split; [reflexivity |]. cbn [matColor selectedIndex s1 s0 set_bricks set_selectedHex].
    rewrite S. apply tinted_same.
Qed.

Lemma color_input_retints_witness :
  let s' := handler (ColorInput "#336699") SamplesA.selectedState in
  selectedIndex s' = Some 1%nat
  /\ selectedHex s' = "#336699"
  /\ (∀ j, j <> 1%nat -> bricks s' !! j = bricks SamplesA.selectedState !! j)
  /\ ∃ b m, bricks s' !! 1%nat = Some b /\ color b = Color.hexToRgb01 "#336699"
            /\ brickMeshes s' !! 1%nat = Some m
            /\ matColor m = blend (Color.hexToRgb01 "#336699") HIGHLIGHT_RGB HIGHLIGHT_T.
Proof.
  apply (color_input_retints SamplesA.selectedState 1%nat "#336699").
  - unfold SamplesA.selectedState, run. cbn [foldl].
    do 4 apply reach_step. apply reach_init.
  - vm_compute. reflexivity.
Defined.

End TintProps.
